(** * Chat-room identity and authorization of the waste-cycle server

    A shallow embedding of [server/src/controllers/chatController.js]:
    the room identity function [generateChatRoomId], the six request
    handlers and the part of the document store they talk to; and of
    what surrounds them, the state and the handlers of the client
    [client/src/App.tsx] and the private key of
    [server/src/config/firebaseConfig.js].

    - Strings are sequences of UTF-16 code units, values are the
      JSON-like values of a request body or a stored document.
    - SHA-256 is written out, so that a room identifier can be
      computed.
    - A handler is a function from the store to an outcome and a new
      store; what the platform supplies during a request (the clock,
      the generated message identifier, the parsing of dates) is an
      argument of the handler.
    - A handler of the client is a function on the state of the
      component; what the API answers is an argument of the handler.
    - Logging is left out. *)

From Stdlib Require Import NArith ZArith Lia String Ascii.
From stdpp Require Import base list gmap sorting pretty.

(** ** JavaScript strings

    A JavaScript string is a sequence of UTF-16 code units.  [===] on
    strings is equality of these sequences, [length] counts code units
    and the relational operators compare code unit by code unit. *)

Module JsString.

Local Open Scope N_scope.

Abbreviation t := (list N).

(** An ASCII literal of the source. *)
Definition lit (s : string) : t :=
  map N_of_ascii (list_ascii_of_string s).

(** The order [<] of the language on two strings. *)
Fixpoint compare (a b : t) : comparison :=
  match a, b with
  | [], [] => Eq
  | [], _ :: _ => Lt
  | _ :: _, [] => Gt
  | x :: a', y :: b' =>
      match N.compare x y with
      | Eq => compare a' b'
      | c => c
      end
  end.

Definition ltb (a b : t) : bool :=
  match compare a b with Lt => true | _ => false end.

(** [Array.prototype.sort], which is stable; [after x y] says that the
    comparator is positive on [(x, y)], so that [y] moves in front of
    an earlier [x].  For a comparator that is consistent this is the
    order of every engine, the stable sorted order being unique.  For
    one that is not (a comparison with [NaN] among others that are
    not) the language leaves the order to the engine: the result is a
    permutation, and that is all that is used of it then. *)
Fixpoint sort_insert {A} (after : A → A → bool) (x : A) (l : list A) : list A :=
  match l with
  | [] => [x]
  | y :: l' => if after x y then y :: sort_insert after x l' else x :: y :: l'
  end.

Definition sort_by {A} (after : A → A → bool) (l : list A) : list A :=
  foldr (sort_insert after) [] l.

(** Without a comparator, on strings: [SortCompare x y] is positive
    when [y < x]. *)
Definition sort (l : list t) : list t :=
  sort_by (λ x y, ltb y x) l.

(** [s.substring(0, n)]. *)
Definition substring0 (n : nat) (s : t) : t := take n s.

(** What a template literal prints for [arr[i]]: the element, or
    ["undefined"] past the end of the array. *)
Definition template_index (arr : list t) (i : nat) : t :=
  match arr !! i with
  | Some s => s
  | None => lit "undefined"
  end.

(** UTF-8 encoding, as [Buffer.from(s, 'utf8')] does it: a surrogate
    pair becomes one four-byte sequence, a lone surrogate becomes
    U+FFFD. *)
Definition is_high_surrogate (c : N) : bool := (0xD800 <=? c) && (c <? 0xDC00).
Definition is_low_surrogate (c : N) : bool := (0xDC00 <=? c) && (c <? 0xE000).

Definition utf8_of_code_point (cp : N) : list N :=
  if cp <? 0x80 then [cp]
  else if cp <? 0x800 then
    [N.lor 0xC0 (N.shiftr cp 6); N.lor 0x80 (N.land cp 0x3F)]
  else if cp <? 0x10000 then
    [N.lor 0xE0 (N.shiftr cp 12);
     N.lor 0x80 (N.land (N.shiftr cp 6) 0x3F);
     N.lor 0x80 (N.land cp 0x3F)]
  else
    [N.lor 0xF0 (N.land (N.shiftr cp 18) 0x07);
     N.lor 0x80 (N.land (N.shiftr cp 12) 0x3F);
     N.lor 0x80 (N.land (N.shiftr cp 6) 0x3F);
     N.lor 0x80 (N.land cp 0x3F)].

Definition replacement : list N := [0xEF; 0xBF; 0xBD].

Fixpoint utf8 (s : t) : list N :=
  match s with
  | [] => []
  | c :: s' =>
      if is_high_surrogate c then
        match s' with
        | d :: s'' =>
            if is_low_surrogate d then
              utf8_of_code_point
                (0x10000 + N.shiftl (c - 0xD800) 10 + (d - 0xDC00))
                ++ utf8 s''
            else replacement ++ utf8 s'
        | [] => replacement
        end
      else if is_low_surrogate c then replacement ++ utf8 s'
      else utf8_of_code_point c ++ utf8 s'
  end.

End JsString.

(** ** SHA-256 (FIPS 180-4), what [crypto.createHash('sha256')] computes *)

Module Sha256.

Local Open Scope N_scope.

Definition word (x : N) : N := x mod 2 ^ 32.
Definition add (x y : N) : N := word (x + y).
Definition rotr (n x : N) : N :=
  word (N.lor (N.shiftr x n) (N.shiftl x (32 - n))).
Definition shr (n x : N) : N := N.shiftr x n.
Definition not32 (x : N) : N := N.lxor x 0xFFFFFFFF.

Definition ch (x y z : N) : N :=
  N.lxor (N.land x y) (N.land (not32 x) z).
Definition maj (x y z : N) : N :=
  N.lxor (N.lxor (N.land x y) (N.land x z)) (N.land y z).
Definition bsig0 (x : N) : N := N.lxor (N.lxor (rotr 2 x) (rotr 13 x)) (rotr 22 x).
Definition bsig1 (x : N) : N := N.lxor (N.lxor (rotr 6 x) (rotr 11 x)) (rotr 25 x).
Definition ssig0 (x : N) : N := N.lxor (N.lxor (rotr 7 x) (rotr 18 x)) (shr 3 x).
Definition ssig1 (x : N) : N := N.lxor (N.lxor (rotr 17 x) (rotr 19 x)) (shr 10 x).

Definition round_constants : list N :=
  [0x428A2F98; 0x71374491; 0xB5C0FBCF; 0xE9B5DBA5;
   0x3956C25B; 0x59F111F1; 0x923F82A4; 0xAB1C5ED5;
   0xD807AA98; 0x12835B01; 0x243185BE; 0x550C7DC3;
   0x72BE5D74; 0x80DEB1FE; 0x9BDC06A7; 0xC19BF174;
   0xE49B69C1; 0xEFBE4786; 0x0FC19DC6; 0x240CA1CC;
   0x2DE92C6F; 0x4A7484AA; 0x5CB0A9DC; 0x76F988DA;
   0x983E5152; 0xA831C66D; 0xB00327C8; 0xBF597FC7;
   0xC6E00BF3; 0xD5A79147; 0x06CA6351; 0x14292967;
   0x27B70A85; 0x2E1B2138; 0x4D2C6DFC; 0x53380D13;
   0x650A7354; 0x766A0ABB; 0x81C2C92E; 0x92722C85;
   0xA2BFE8A1; 0xA81A664B; 0xC24B8B70; 0xC76C51A3;
   0xD192E819; 0xD6990624; 0xF40E3585; 0x106AA070;
   0x19A4C116; 0x1E376C08; 0x2748774C; 0x34B0BCB5;
   0x391C0CB3; 0x4ED8AA4A; 0x5B9CCA4F; 0x682E6FF3;
   0x748F82EE; 0x78A5636F; 0x84C87814; 0x8CC70208;
   0x90BEFFFA; 0xA4506CEB; 0xBEF9A3F7; 0xC67178F2].

(** The eight chaining words. *)
Definition state : Type := N * N * N * N * N * N * N * N.

Definition initial : state :=
  (0x6A09E667, 0xBB67AE85, 0x3C6EF372, 0xA54FF53A,
   0x510E527F, 0x9B05688C, 0x1F83D9AB, 0x5BE0CD19).

(** Padding: the bit 1, zeros up to 56 mod 64 bytes, then the length
    in bits as a 64-bit big-endian number. *)
Definition be_bytes (n : nat) (x : N) : list N :=
  map (fun i => N.land (N.shiftr x (8 * N.of_nat i)) 0xFF) (rev (seq 0 n)).

Definition pad (msg : list N) : list N :=
  let len := length msg in
  let zeros := ((64 - (len + 9) mod 64) mod 64)%nat in
  msg ++ [0x80] ++ replicate zeros 0 ++ be_bytes 8 (8 * N.of_nat len).

(** A block of 64 bytes as sixteen big-endian words. *)
Fixpoint words_of_bytes (n : nat) (bs : list N) : list N :=
  match n with
  | O => []
  | S n' =>
      match bs with
      | b0 :: b1 :: b2 :: b3 :: rest =>
          (N.shiftl b0 24 + N.shiftl b1 16 + N.shiftl b2 8 + b3)
            :: words_of_bytes n' rest
      | _ => []
      end
  end.

(** The message schedule; [w] holds the words computed so far, newest
    first. *)
Fixpoint extend (n : nat) (w : list N) : list N :=
  match n with
  | O => w
  | S n' =>
      let at_back i := nth i w 0 in
      extend n'
        (add (add (add (ssig1 (at_back 1%nat)) (at_back 6%nat))
                (ssig0 (at_back 14%nat))) (at_back 15%nat) :: w)
  end.

Definition schedule (block : list N) : list N :=
  rev (extend 48 (rev (words_of_bytes 16 block))).

Definition round (s : state) (kw : N * N) : state :=
  let '(a, b, c, d, e, f, g, h) := s in
  let t1 := add (add (add (add h (bsig1 e)) (ch e f g)) kw.1) kw.2 in
  let t2 := add (bsig0 a) (maj a b c) in
  (add t1 t2, a, b, c, add d t1, e, f, g).

Definition compress (s : state) (block : list N) : state :=
  let '(a, b, c, d, e, f, g, h) := s in
  let '(a', b', c', d', e', f', g', h') :=
    foldl round s (zip round_constants (schedule block)) in
  (add a a', add b b', add c c', add d d',
   add e e', add f f', add g g', add h h').

Fixpoint blocks (n : nat) (s : state) (bs : list N) : state :=
  match n with
  | O => s
  | S n' => blocks n' (compress s (take 64 bs)) (drop 64 bs)
  end.

Definition digest (msg : list N) : state :=
  let p := pad msg in
  blocks (length p / 64) initial p.

(** [digest('hex')]: lowercase hexadecimal, eight digits a word. *)
Definition hex_digit (d : N) : N :=
  if d <? 10 then 48 + d else 87 + d.

Definition hex_word (x : N) : JsString.t :=
  map (fun i => hex_digit (N.land (N.shiftr x (4 * N.of_nat i)) 0xF))
    [7; 6; 5; 4; 3; 2; 1; 0]%nat.

Definition hex (s : state) : JsString.t :=
  let '(a, b, c, d, e, f, g, h) := s in
  hex_word a ++ hex_word b ++ hex_word c ++ hex_word d ++
  hex_word e ++ hex_word f ++ hex_word g ++ hex_word h.

(** [crypto.createHash('sha256').update(s).digest('hex')] on a string
    [s], which [update] encodes as UTF-8. *)
Definition hex_digest (s : JsString.t) : JsString.t :=
  hex (digest (JsString.utf8 s)).

End Sha256.

(** ** The room identity function *)

Definition generateChatRoomId (userId1 userId2 productId : JsString.t) : JsString.t :=
  let sortedIds := JsString.sort [userId1; userId2] in
  let uniqueString :=
    JsString.template_index sortedIds 0 ++ JsString.lit "_" ++
    JsString.template_index sortedIds 1 ++ JsString.lit "_" ++
    productId in
  let hash := Sha256.hex_digest uniqueString in
  JsString.substring0 32 hash.

(** ** JavaScript values

    The values a request body or a stored document holds.  Numbers are
    the integers (the legacy numeric identifiers the handlers
    normalise), [Num n] being the number that the literal [n] denotes;
    an object keeps its fields in key order, as the store does. *)

Module Js.

Unset Elimination Schemes.
Inductive value : Type :=
| Undefined
| Null
| Bool (b : bool)
| Num (n : Z)
| Str (s : JsString.t)
| Arr (elems : list value)
| Obj (fields : list (string * value)).
Set Elimination Schemes.

(** [ToBoolean]. *)
Definition truthy (v : value) : bool :=
  match v with
  | Undefined | Null => false
  | Bool b => b
  | Num n => negb (n =? 0)%Z
  | Str s => match s with [] => false | _ :: _ => true end
  | Arr _ | Obj _ => true
  end.

(** [a || b]. *)
Definition or (a b : value) : value := if truthy a then a else b.

(** The number that an integer [n ≥ 0] denotes: [n] itself below
    [2^53], else the nearest number with 53 significant bits, the even
    one of two that are as near; nothing when that is an infinity. *)
Definition nearest_double (n : Z) : option Z :=
  if (n <? 2 ^ 53)%Z then Some n else
  let ulp := (2 ^ (Z.log2 n - 52))%Z in
  let q := (n / ulp)%Z in
  let r := (n mod ulp)%Z in
  let q' := if (2 * r <? ulp)%Z then q
            else if (ulp <? 2 * r)%Z then (q + 1)%Z
            else if Z.even q then q else (q + 1)%Z in
  if (2 ^ 1024 <=? q' * ulp)%Z then None else Some (q' * ulp)%Z.

(** The decimal with the fewest significant digits that denotes the
    number [m], the nearest to [m] if there are several; [p] is the
    weight of the last significant digit that is tried. *)
Fixpoint shortest_decimal (m p : Z) (fuel : nat) : Z :=
  match fuel with
  | O => m
  | S fuel' =>
      let lo := (m / p * p)%Z in
      let hi := (lo + p)%Z in
      let denotes v := bool_decide (nearest_double v = Some m) in
      match denotes lo, denotes hi with
      | true, true =>
          if (m - lo <? hi - m)%Z then lo
          else if (hi - m <? m - lo)%Z then hi
          else if Z.even (m / p) then lo else hi
      | true, false => lo
      | false, true => hi
      | false, false => shortest_decimal m (p / 10) fuel'
      end
  end.

Fixpoint drop_zeros (rev_digits : list ascii) : list ascii :=
  match rev_digits with
  | "0"%char :: l => drop_zeros l
  | _ => rev_digits
  end.

(** A decimal of up to 21 digits is printed in full, a longer one
    with an exponent. *)
Definition print_decimal (v : Z) : string :=
  let digits := list_ascii_of_string (pretty v) in
  let n := length digits in
  if (n <=? 21)%nat then pretty v
  else
    match rev (drop_zeros (rev digits)) with
    | [] => pretty v
    | [c] => String c ("e+" +:+ pretty (Z.of_nat n - 1)%Z)
    | c :: s =>
        String c ("." +:+ string_of_list_ascii s +:+ "e+" +:+ pretty (Z.of_nat n - 1)%Z)
    end.

(** [Number::toString] on an integer. *)
Definition number_to_string (n : Z) : string :=
  if (Z.abs n <? 2 ^ 53)%Z then pretty n
  else
    let sign := if (n <? 0)%Z then "-" else EmptyString in
    match nearest_double (Z.abs n) with
    | None => sign +:+ "Infinity"
    | Some m =>
        let d := String.length (pretty m) in
        sign +:+ print_decimal (shortest_decimal m (10 ^ (Z.of_nat d - 1)) d)
    end.

(** [String(v)]; an array prints its elements separated by commas,
    with nothing for [null] and [undefined]. *)
Fixpoint to_string (v : value) : JsString.t :=
  match v with
  | Undefined => JsString.lit "undefined"
  | Null => JsString.lit "null"
  | Bool true => JsString.lit "true"
  | Bool false => JsString.lit "false"
  | Num n => JsString.lit (number_to_string n)
  | Str s => s
  | Arr elems =>
      (fix join (l : list value) : JsString.t :=
         let item x :=
           match x with
           | Undefined | Null => []
           | _ => to_string x
           end in
         match l with
         | [] => []
         | [x] => item x
         | x :: (_ :: _) as l' => item x ++ JsString.lit "," ++ join l'
         end) elems
  | Obj _ => JsString.lit "[object Object]"
  end.

(** [Array.isArray(v) ? v.map(p => String(p)) : []], the
    normalisation every handler applies to [participants]. *)
Definition string_array (v : value) : list JsString.t :=
  match v with
  | Arr elems => map to_string elems
  | _ => []
  end.

(** [arr[i]] on an array value. *)
Definition index (v : value) (i : nat) : value :=
  match v with
  | Arr elems => default Undefined (elems !! i)
  | _ => Undefined
  end.

(** [s.trim()]: white space and line terminators are stripped at
    both ends. *)
Definition is_space (c : N) : bool :=
  bool_decide (c ∈ [9; 10; 11; 12; 13; 32; 160; 0x1680; 0x2028; 0x2029;
                    0x202F; 0x205F; 0x3000; 0xFEFF]%N)
  || ((0x2000 <=? c)%N && (c <=? 0x200A)%N).

Fixpoint trim_start (s : JsString.t) : JsString.t :=
  match s with
  | c :: s' => if is_space c then trim_start s' else s
  | [] => []
  end.

Definition trim (s : JsString.t) : JsString.t :=
  rev (trim_start (rev (trim_start s))).

End Js.

(** Induction on values, through the arrays and objects. *)
Section ValueInduction.

Import Js.

Variable P : value → Prop.
Hypothesis HUndefined : P Undefined.
Hypothesis HNull : P Null.
Hypothesis HBool : ∀ b, P (Bool b).
Hypothesis HNum : ∀ n, P (Num n).
Hypothesis HStr : ∀ s, P (Str s).
Hypothesis HArr : ∀ l, Forall P l → P (Arr l).
Hypothesis HObj : ∀ l, Forall (λ kv, P kv.2) l → P (Obj l).

Fixpoint value_induction (v : value) : P v :=
  match v with
  | Undefined => HUndefined
  | Null => HNull
  | Bool b => HBool b
  | Num n => HNum n
  | Str s => HStr s
  | Arr l =>
      HArr l ((fix go (l : list value) : Forall P l :=
                 match l with
                 | [] => Forall_nil_2 P
                 | x :: l' => Forall_cons_2 P x l' (value_induction x) (go l')
                 end) l)
  | Obj l =>
      HObj l ((fix go (l : list (string * value)) : Forall (λ kv, P kv.2) l :=
                 match l with
                 | [] => Forall_nil_2 _
                 | kv :: l' => Forall_cons_2 _ kv l' (value_induction kv.2) (go l')
                 end) l)
  end.

End ValueInduction.

(** ** The document store

    Cloud Firestore as the handlers use it through [firebase-admin]:
    one tree of documents addressed by their path from the root,
    [chatRooms/<id>] for a room and [chatRooms/<id>/messages/<id>] for
    a message.  The store keeps no schema: a document is any map from
    field names to values. *)

Module Firestore.

Import Js.

Abbreviation doc := (gmap string value).
Abbreviation path := (list JsString.t).
Abbreviation db := (gmap path doc).

(** [data.field], [undefined] when the document has no such field. *)
Definition prop (d : doc) (k : string) : value := default Undefined (d !! k).

(** *** Outcomes of a handler

    A handler either sends a reply or throws; an error thrown by the
    handler itself comes after [res.status(n)], one thrown by a
    library call leaves the status untouched.  Writes made before a
    throw stay in the store. *)
Inductive outcome (A : Type) : Type :=
| Returned (a : A)
| Thrown (status : option N) (message : string).
Arguments Returned {A} a.
Arguments Thrown {A} status message.

Definition M (A : Type) : Type := db → outcome A * db.

Definition ret {A} (a : A) : M A := λ s, (Returned a, s).
Definition bind {A B} (m : M A) (k : A → M B) : M B :=
  λ s, match m s with
       | (Returned a, s') => k a s'
       | (Thrown c e, s') => (Thrown c e, s')
       end.
Definition throw {A} (status : option N) (message : string) : M A :=
  λ s, (Thrown status message, s).

(** *** Document references

    [collection.doc(p)] validates its argument before anything is
    read: it throws on a path that is not a non-empty string (so
    [doc('')] throws) or that contains [//], splits the path at [/]
    dropping empty segments, and throws unless the result names a
    document (an even number of segments from the root). *)
Fixpoint split_slash (s : JsString.t) : list JsString.t :=
  match s with
  | [] => [[]]
  | c :: s' =>
      if (c =? 47)%N then [] :: split_slash s'
      else match split_slash s' with
           | [] => [[c]]
           | seg :: segs => (c :: seg) :: segs
           end
  end.

Definition segments (s : JsString.t) : list JsString.t :=
  filter (λ seg, seg ≠ []) (split_slash s).

Fixpoint has_double_slash (s : JsString.t) : bool :=
  match s with
  | c :: (d :: _) as s' => ((c =? 47)%N && (d =? 47)%N) || has_double_slash s'
  | _ => false
  end.

Definition doc_ref (collection : path) (p : value) : M path :=
  match p with
  | Str [] | Undefined | Null | Bool _ | Num _ | Arr _ | Obj _ =>
      throw None "Path must be a non-empty string."
  | Str s =>
      if has_double_slash s then throw None "Paths must not contain //."
      else
        let r := collection ++ segments s in
        if Nat.even (length r) then ret r
        else throw None "Your path does not contain an even number of components."
  end.

(** [ref.id], the last segment. *)
Definition doc_id (r : path) : JsString.t := default [] (last r).

(** A document identifier, as the store accepts one: a non-empty
    string of at most 1500 bytes without [/], other than [.] and [..]
    and not of the reserved form [__.*__].  [doc] takes it as the
    single segment it is. *)
Definition reserved (s : JsString.t) : Prop :=
  4 ≤ length s
  ∧ take 2 s = JsString.lit "__"
  ∧ drop (length s - 2) s = JsString.lit "__".

Definition identifier (s : JsString.t) : Prop :=
  s ≠ [] ∧ (47%N ∉ s)
  ∧ s ≠ JsString.lit "." ∧ s ≠ JsString.lit ".."
  ∧ (¬ reserved s)
  ∧ length (JsString.utf8 s) ≤ 1500.

#[global] Instance reserved_dec s : Decision (reserved s).
Proof. unfold reserved. apply _. Defined.

#[global] Instance identifier_dec s : Decision (identifier s).
Proof. unfold identifier. apply _. Defined.

(** *** Reads and writes *)
Definition get (r : path) : M (option doc) := λ s, (Returned (s !! r), s).

Definition set (r : path) (d : doc) : M unit :=
  λ s, (Returned (), <[r := d]> s).

(** [ref.update(fields)] fails on a missing document and otherwise
    overwrites the given fields only. *)
Definition update (r : path) (fields : doc) : M unit :=
  λ s, match s !! r with
       | Some d => (Returned (), <[r := fields ∪ d]> s)
       | None => (Thrown None "No document to update", s)
       end.

(** [collection.add(d)]: a create under a generated identifier. *)
Definition add (collection : path) (auto_id : JsString.t) (d : doc) : M path :=
  λ s, let r := collection ++ [auto_id] in
       match s !! r with
       | Some _ => (Thrown None "Document already exists", s)
       | None => (Returned r, <[r := d]> s)
       end.

Definition delete (r : path) : M unit :=
  λ s, (Returned (), base.delete r s).

(** *** The order of values and of document names

    Values order by type first (null, booleans, numbers, strings,
    arrays, maps); strings by their UTF-8 bytes, arrays and maps
    element by element.  Document names order segment by segment. *)
Fixpoint bytes_compare (a b : list N) : comparison :=
  match a, b with
  | [], [] => Eq
  | [], _ :: _ => Lt
  | _ :: _, [] => Gt
  | x :: a', y :: b' =>
      match N.compare x y with
      | Eq => bytes_compare a' b'
      | c => c
      end
  end.

Definition string_compare (a b : JsString.t) : comparison :=
  bytes_compare (JsString.utf8 a) (JsString.utf8 b).

Definition key_compare (a b : string) : comparison :=
  bytes_compare (map N_of_ascii (list_ascii_of_string a))
                (map N_of_ascii (list_ascii_of_string b)).

Definition type_rank (v : value) : nat :=
  match v with
  | Undefined => 0
  | Null => 1
  | Bool _ => 2
  | Num _ => 3
  | Str _ => 4
  | Arr _ => 5
  | Obj _ => 6
  end.

Fixpoint value_compare (a b : value) : comparison :=
  match a, b with
  | Bool x, Bool y => Nat.compare (Nat.b2n x) (Nat.b2n y)
  | Num x, Num y => Z.compare x y
  | Str x, Str y => string_compare x y
  | Arr xs, Arr ys =>
      (fix go (xs ys : list value) : comparison :=
         match xs, ys with
         | [], [] => Eq
         | [], _ :: _ => Lt
         | _ :: _, [] => Gt
         | x :: xs', y :: ys' =>
             match value_compare x y with
             | Eq => go xs' ys'
             | c => c
             end
         end) xs ys
  | Obj xs, Obj ys =>
      (fix go (xs ys : list (string * value)) : comparison :=
         match xs, ys with
         | [], [] => Eq
         | [], _ :: _ => Lt
         | _ :: _, [] => Gt
         | (k, x) :: xs', (l, y) :: ys' =>
             match key_compare k l with
             | Eq =>
                 match value_compare x y with
                 | Eq => go xs' ys'
                 | c => c
                 end
             | c => c
             end
         end) xs ys
  | _, _ => Nat.compare (type_rank a) (type_rank b)
  end.

Fixpoint path_compare (a b : path) : comparison :=
  match a, b with
  | [], [] => Eq
  | [], _ :: _ => Lt
  | _ :: _, [] => Gt
  | x :: a', y :: b' =>
      match string_compare x y with
      | Eq => path_compare a' b'
      | c => c
      end
  end.

Definition not_after (c : comparison) : bool :=
  match c with Gt => false | _ => true end.

(** *** Queries

    A query over a collection sees the documents directly below it
    and returns them in the order of its [orderBy], ties (and a query
    without one) by document name. *)
Definition is_child (collection r : path) : bool :=
  bool_decide (length r = S (length collection) ∧ take (length collection) r = collection).

Definition children (collection : path) (s : db) : list (path * doc) :=
  filter (λ rd, is_child collection rd.1 = true) (map_to_list s).

Definition by_name (x y : path * doc) : Prop :=
  not_after (path_compare x.1 y.1).

#[global] Instance by_name_dec x y : Decision (by_name x y).
Proof. unfold by_name. apply _. Defined.

(** [collection.where(field, 'array-contains', v).get()] for a
    string [v]. *)
Definition array_contains (v : JsString.t) (a : value) : bool :=
  match a with
  | Arr elems =>
      existsb (λ e, match e with Str t => bool_decide (t = v) | _ => false end) elems
  | _ => false
  end.

Definition select_array_contains
    (collection : path) (field : string) (v : JsString.t) (s : db) : list (path * doc) :=
  merge_sort by_name
    (filter (λ rd, array_contains v (prop rd.2 field) = true)
       (children collection s)).

Definition where_array_contains
    (collection : path) (field : string) (v : JsString.t) : M (list (path * doc)) :=
  λ s, (Returned (select_array_contains collection field v s), s).

(** [collection.orderBy(field, 'asc').get()]: only the documents that
    have the field, ascending by its value. *)
Definition by_field (field : string) (x y : path * doc) : Prop :=
  match value_compare (prop x.2 field) (prop y.2 field) with
  | Lt => True
  | Eq => by_name x y
  | Gt => False
  end.

#[global] Instance by_field_dec field x y : Decision (by_field field x y).
Proof. unfold by_field. destruct (value_compare _ _); apply _. Defined.

Definition select_order_by
    (collection : path) (field : string) (s : db) : list (path * doc) :=
  merge_sort (by_field field)
    (filter (λ rd, is_Some (rd.2 !! field)) (children collection s)).

Definition order_by_asc (collection : path) (field : string) : M (list (path * doc)) :=
  λ s, (Returned (select_order_by collection field s), s).

End Firestore.

Notation "x <- m ;; k" := (Firestore.bind m (λ x, k))
  (at level 100, m at next level, right associativity,
   format "'[v' x  <-  m  ;;  '/' k ']'").

(** ** The chat controller *)

Module ChatController.

Import Js Firestore.

(** [req.user], as the authentication middleware leaves it: the
    [uid] claim is a string when present. *)
Record user : Type := {
  uid : option JsString.t;
  displayName : value;
  name : value
}.

Record request : Type := {
  req_user : option user;
  body : doc;
  params_id : JsString.t
}.

(** What the platform supplies during one request: the two readings
    of [new Date().toISOString()], the identifier [add] generates and
    [new Date(v).getTime()], [None] for [NaN]. *)
Record env : Type := {
  now_first : JsString.t;
  now_second : JsString.t;
  auto_id : JsString.t;
  getTime : value → option Z
}.

(** [res.status(n).json({ success: true, data, message })]. *)
Inductive payload : Type :=
| One (d : doc)
| Many (ds : list doc)
| Nothing.

Record response : Type := {
  status : N;
  data : payload;
  message : option string
}.

Definition reply (n : N) (p : payload) : M response :=
  ret {| status := n; data := p; message := None |}.

(** The guards every handler starts with. *)
Definition require_user (req : request) : M user :=
  match req_user req with
  | None => throw (Some 401%N) "User not authenticated"
  | Some u => ret u
  end.

Definition require_uid (u : user) : M JsString.t :=
  match uid u with
  | None | Some [] => throw (Some 401%N) "User ID not found - uid is required"
  | Some s =>
      if 100 <? length s
      then throw (Some 401%N) "Invalid user ID - uid appears to be a token string"
      else ret s
  end.

(** The request comes from the subject [z]: the middleware resolved
    a [uid] that passes the guards. *)
Definition subject_of (req : request) (z : JsString.t) : Prop :=
  ∃ u, req_user req = Some u ∧ uid u = Some z ∧ z ≠ [] ∧ length z ≤ 100.

(** [participants.some(p => String(p) === userIdStr)]. *)
Definition isParticipant (participants : list JsString.t) (userIdStr : JsString.t) : bool :=
  existsb (λ p, bool_decide (p = userIdStr)) participants.

(** [participants.find(id => String(id) !== userIdStr)]. *)
Definition find_other (participants : list JsString.t) (userIdStr : JsString.t) : value :=
  match list_find (λ id, id ≠ userIdStr) participants with
  | Some (_, id) => Str id
  | None => Undefined
  end.

(** [participants.findIndex(id => String(id) !== userIdStr)], [None]
    for [-1]. *)
Definition find_other_index (participants : list JsString.t) (userIdStr : JsString.t) : option nat :=
  fst <$> list_find (λ id, id ≠ userIdStr) participants.

Definition is_array (v : value) : bool :=
  match v with Arr _ => true | _ => false end.

(** [{ id, ...data, participants, otherParticipantId }]: the fields
    of [data] win over [id] and lose to the two that follow. *)
Definition room_view (id : JsString.t) (data : doc) (userIdStr : JsString.t) : doc :=
  let participants := string_array (prop data "participants") in
  <["otherParticipantId" := or (find_other participants userIdStr) Null]>
    (<["participants" := Arr (Str <$> participants)]>
       (data ∪ {["id" := Str id]})).

(** *** GET /api/chat *)
Definition room_time (e : env) (a : doc) : option Z :=
  getTime e (or (or (prop a "updatedAt") (prop a "createdAt")) (Num 0)).

(** [timeB - timeA > 0]; a comparison with [NaN] is not. *)
Definition older (e : env) (a b : doc) : bool :=
  match room_time e a, room_time e b with
  | Some timeA, Some timeB => (0 <? timeB - timeA)%Z
  | _, _ => false
  end.

Definition list_view (userId : JsString.t) (rd : path * doc) : doc :=
  let data := rd.2 in
  let participants := string_array (prop data "participants") in
  let participantIndex := find_other_index participants userId in
  <["otherParticipantName" :=
      match participantIndex with
      | Some i =>
          if truthy (prop data "participantNames") && is_array (prop data "participantNames")
          then index (prop data "participantNames") i
          else Str (JsString.lit "Unknown")
      | None => Str (JsString.lit "Unknown")
      end]>
    (room_view (doc_id rd.1) data userId).

Definition getChatRooms (e : env) (req : request) : M response :=
  u <- require_user req ;;
  userId <- require_uid u ;;
  docs <- where_array_contains [JsString.lit "chatRooms"] "participants" userId ;;
  let chatRooms := map (list_view userId) docs in
  reply 200 (Many (JsString.sort_by (older e) chatRooms)).

(** *** POST /api/chat *)

(** [(userData && userData.name)] on the snapshot of a user. *)
Definition stored_name (d : option doc) : value :=
  match d with
  | Some userData => prop userData "name"
  | None => Null
  end.

(** The document of a new room. *)
Definition newChatRoom (e : env) (u : user) (product : doc)
    (buyerDoc sellerDoc : option doc)
    (buyerId sellerId : JsString.t) (productId : value) : doc :=
  let buyerName :=
    or (or (or (stored_name buyerDoc) (displayName u)) (name u))
       (Str (JsString.lit "Buyer")) in
  let sellerName :=
    or (or (stored_name sellerDoc) (prop product "farmName"))
       (Str (JsString.lit "Seller")) in
  list_to_map
    [("participants", Arr [Str buyerId; Str sellerId]);
     ("participantNames", Arr [buyerName; sellerName]);
     ("productId", Str (to_string productId));
     ("productTitle", or (prop product "title") (Str []));
     ("productImage",
       match prop product "images" with
       | Arr (first :: _) => first
       | _ => Str []
       end);
     ("createdAt", Str (now_first e));
     ("updatedAt", Str (now_second e));
     ("lastMessage", Str []);
     ("lastMessageSenderId", Null);
     ("buyerId", Str buyerId);
     ("sellerId", Str sellerId);
     ("buyerName", buyerName);
     ("sellerName", sellerName)].

Definition createChatRoom (e : env) (req : request) : M response :=
  u <- require_user req ;;
  let productId := prop (body req) "productId" in
  if negb (truthy productId) then throw (Some 400%N) "Product ID is required" else
  buyerId <- require_uid u ;;
  productRef <- doc_ref [JsString.lit "products"] productId ;;
  productDoc <- get productRef ;;
  match productDoc with
  | None => throw (Some 404%N) "Product not found"
  | Some product =>
      let sellerId := to_string (or (prop product "userId") (Str [])) in
      if bool_decide (sellerId = buyerId)
      then throw (Some 400%N) "You cannot start a chat for your own product"
      else
        let chatRoomId := generateChatRoomId buyerId sellerId (to_string productId) in
        chatRoomRef <- doc_ref [JsString.lit "chatRooms"] (Str chatRoomId) ;;
        chatRoomDoc <- get chatRoomRef ;;
        match chatRoomDoc with
        | Some existingData =>
            ret {| status := 200;
                   data := One (room_view chatRoomId existingData buyerId);
                   message := Some "Chat room already exists" |}
        | None =>
            buyerRef <- doc_ref [JsString.lit "users"] (Str buyerId) ;;
            buyerDoc <- get buyerRef ;;
            sellerRef <- doc_ref [JsString.lit "users"] (Str sellerId) ;;
            sellerDoc <- get sellerRef ;;
            let room :=
              newChatRoom e u product buyerDoc sellerDoc buyerId sellerId productId in
            _ <- set chatRoomRef room ;;
            reply 201
              (One (<["otherParticipantId" := Str sellerId]>
                      (room ∪ {["id" := Str chatRoomId]})))
        end
  end.

(** *** GET /api/chat/:id *)
Definition getChatRoomById (req : request) : M response :=
  u <- require_user req ;;
  userId <- require_uid u ;;
  let chatRoomId := params_id req in
  chatRoomRef <- doc_ref [JsString.lit "chatRooms"] (Str chatRoomId) ;;
  chatRoomDoc <- get chatRoomRef ;;
  match chatRoomDoc with
  | None => throw (Some 404%N) "Chat room not found"
  | Some chatRoomData =>
      let participants := string_array (prop chatRoomData "participants") in
      if negb (isParticipant participants userId)
      then throw (Some 403%N) "Not authorized to access this chat room"
      else reply 200 (One (room_view (doc_id chatRoomRef) chatRoomData userId))
  end.

(** *** POST /api/chat/:id/messages *)

(** The document of a new message. *)
Definition newMessage (e : env) (chatRoomId senderId : JsString.t)
    (receiverId : value) (text : JsString.t) : doc :=
  list_to_map
    [("chatRoomId", Str chatRoomId);
     ("senderId", Str senderId);
     ("receiverId", receiverId);
     ("text", Str (trim text));
     ("timestamp", Str (now_first e));
     ("read", Bool false)].

(** The summary fields a post overwrites in the room. *)
Definition lastMessageUpdate (e : env) (senderId text : JsString.t) : doc :=
  list_to_map
    [("lastMessage", Str (trim text));
     ("lastMessageSenderId", Str senderId);
     ("updatedAt", Str (now_second e))].

Definition postMessage (e : env) (req : request) : M response :=
  u <- require_user req ;;
  senderId <- require_uid u ;;
  let chatRoomId := params_id req in
  let text := prop (body req) "text" in
  if negb (truthy text) then throw (Some 400%N) "Message text is required" else
  match text with
  | Str t =>
      if bool_decide (trim t = []) then throw (Some 400%N) "Message text is required" else
      chatRoomRef <- doc_ref [JsString.lit "chatRooms"] (Str chatRoomId) ;;
      chatRoomDoc <- get chatRoomRef ;;
      match chatRoomDoc with
      | None => throw (Some 404%N) "Chat room not found"
      | Some chatRoomData =>
          let participants := string_array (prop chatRoomData "participants") in
          if negb (isParticipant participants senderId)
          then throw (Some 403%N) "Not authorized to post in this chat room"
          else
            let receiverId := find_other participants senderId in
            if negb (truthy receiverId)
            then throw (Some 400%N) "Cannot determine receiver"
            else
              let message := newMessage e chatRoomId senderId receiverId t in
              messageRef <- add (chatRoomRef ++ [JsString.lit "messages"])
                                (auto_id e) message ;;
              _ <- update chatRoomRef (lastMessageUpdate e senderId t) ;;
              reply 201 (One (message ∪ {["id" := Str (doc_id messageRef)]}))
      end
  | _ => throw None "text.trim is not a function"
  end.

(** *** GET /api/chat/:id/messages *)

(** [{ id: doc.id, ...doc.data() }]. *)
Definition message_view (rd : path * doc) : doc :=
  rd.2 ∪ {["id" := Str (doc_id rd.1)]}.

Definition getMessages (req : request) : M response :=
  u <- require_user req ;;
  userId <- require_uid u ;;
  let chatRoomId := params_id req in
  chatRoomRef <- doc_ref [JsString.lit "chatRooms"] (Str chatRoomId) ;;
  chatRoomDoc <- get chatRoomRef ;;
  match chatRoomDoc with
  | None => throw (Some 404%N) "Chat room not found"
  | Some chatRoomData =>
      (* the debug log maps over a truthy [participants] before the
         array check *)
      if truthy (prop chatRoomData "participants")
         && negb (is_array (prop chatRoomData "participants"))
      then throw None "chatRoomData.participants.map is not a function"
      else
        let participants := string_array (prop chatRoomData "participants") in
        if negb (isParticipant participants userId)
        then throw (Some 403%N) "Not authorized to access this chat room"
        else
          messagesSnapshot <-
            order_by_asc (chatRoomRef ++ [JsString.lit "messages"]) "timestamp" ;;
          let messages := map message_view messagesSnapshot in
          reply 200 (Many messages)
  end.

(** *** DELETE /api/chat/:id *)
Definition deleteChatRoom (req : request) : M response :=
  let chatRoomId := params_id req in
  chatRoomRef <- doc_ref [JsString.lit "chatRooms"] (Str chatRoomId) ;;
  _ <- delete chatRoomRef ;;
  ret {| status := 200; data := Nothing; message := Some "Chat room deleted" |}.

End ChatController.

(** ** The client

    [client/src/App.tsx]: the state variables of the [App] component are
    the fields of [state]; a handler runs on the state its render
    captured and yields the state after its updates.  Objects (a post,
    a room, the user) are maps from keys to values.  What a call to the
    API or to the identity service ends with is an argument of the
    handler; alerts are what a handler returns besides the state. *)

Module App.

Import Js Firestore.

Local Open Scope N_scope.

(** [s.startsWith(p)], [s.includes(p)] and [s.split(c)[0]]. *)
Definition startsWith (p s : JsString.t) : bool :=
  bool_decide (take (length p) s = p).

Definition includes (p s : JsString.t) : bool :=
  existsb (λ k, startsWith p (drop k s)) (seq 0 (S (length s))).

Fixpoint split_first (c : N) (s : JsString.t) : JsString.t :=
  match s with
  | [] => []
  | x :: s' => if x =? c then [] else x :: split_first c s'
  end.

(** [a === b] on values that come from different answers: two objects
    or two arrays are never the same reference. *)
Definition strict_eq (a b : value) : bool :=
  match a, b with
  | Undefined, Undefined | Null, Null => true
  | Bool x, Bool y => bool_decide (x = y)
  | Num x, Num y => bool_decide (x = y)
  | Str x, Str y => bool_decide (x = y)
  | _, _ => false
  end.

(** [v?.k]. *)
Definition member (v : value) (k : string) : value :=
  match v with
  | Obj fields => default Undefined (snd <$> List.find (λ kv, bool_decide (kv.1 = k)) fields)
  | _ => Undefined
  end.

(** A [Set] of strings, in insertion order. *)
Definition set_add (x : JsString.t) (l : list JsString.t) : list JsString.t :=
  if bool_decide (x ∈ l) then l else l ++ [x].

Definition set_delete (x : JsString.t) (l : list JsString.t) : list JsString.t :=
  List.filter (λ y, negb (bool_decide (y = x))) l.

Record state : Type := {
  currentPage : JsString.t;
  user : option doc;
  allPosts : list doc;
  myPosts : list doc;
  chatRooms : list doc;
  chatMessages : list (JsString.t * list doc);
  confirmedChatRooms : list JsString.t;
  selectedPostId : option JsString.t;
  isEditingPost : bool;
  chatPostId : option JsString.t;
  selectedRoomId : value;
  isLoading : bool;
  error : value
}.

(** The state of the first render. *)
Definition initial : state :=
  {| currentPage := JsString.lit "landing"; user := None;
     allPosts := []; myPosts := []; chatRooms := []; chatMessages := [];
     confirmedChatRooms := []; selectedPostId := None; isEditingPost := false;
     chatPostId := None; selectedRoomId := Null; isLoading := true; error := Null |}.

(** *** The setters *)
Definition setCurrentPage (v : JsString.t) (st : state) : state :=
  {| currentPage := v; user := user st; allPosts := allPosts st;
     myPosts := myPosts st; chatRooms := chatRooms st;
     chatMessages := chatMessages st; confirmedChatRooms := confirmedChatRooms st;
     selectedPostId := selectedPostId st; isEditingPost := isEditingPost st;
     chatPostId := chatPostId st; selectedRoomId := selectedRoomId st;
     isLoading := isLoading st; error := error st |}.

Definition setUser (v : option doc) (st : state) : state :=
  {| currentPage := currentPage st; user := v; allPosts := allPosts st;
     myPosts := myPosts st; chatRooms := chatRooms st;
     chatMessages := chatMessages st; confirmedChatRooms := confirmedChatRooms st;
     selectedPostId := selectedPostId st; isEditingPost := isEditingPost st;
     chatPostId := chatPostId st; selectedRoomId := selectedRoomId st;
     isLoading := isLoading st; error := error st |}.

Definition setAllPosts (v : list doc) (st : state) : state :=
  {| currentPage := currentPage st; user := user st; allPosts := v;
     myPosts := myPosts st; chatRooms := chatRooms st;
     chatMessages := chatMessages st; confirmedChatRooms := confirmedChatRooms st;
     selectedPostId := selectedPostId st; isEditingPost := isEditingPost st;
     chatPostId := chatPostId st; selectedRoomId := selectedRoomId st;
     isLoading := isLoading st; error := error st |}.

Definition setMyPosts (v : list doc) (st : state) : state :=
  {| currentPage := currentPage st; user := user st; allPosts := allPosts st;
     myPosts := v; chatRooms := chatRooms st;
     chatMessages := chatMessages st; confirmedChatRooms := confirmedChatRooms st;
     selectedPostId := selectedPostId st; isEditingPost := isEditingPost st;
     chatPostId := chatPostId st; selectedRoomId := selectedRoomId st;
     isLoading := isLoading st; error := error st |}.

Definition setChatRooms (v : list doc) (st : state) : state :=
  {| currentPage := currentPage st; user := user st; allPosts := allPosts st;
     myPosts := myPosts st; chatRooms := v;
     chatMessages := chatMessages st; confirmedChatRooms := confirmedChatRooms st;
     selectedPostId := selectedPostId st; isEditingPost := isEditingPost st;
     chatPostId := chatPostId st; selectedRoomId := selectedRoomId st;
     isLoading := isLoading st; error := error st |}.

Definition setChatMessages (v : list (JsString.t * list doc)) (st : state) : state :=
  {| currentPage := currentPage st; user := user st; allPosts := allPosts st;
     myPosts := myPosts st; chatRooms := chatRooms st;
     chatMessages := v; confirmedChatRooms := confirmedChatRooms st;
     selectedPostId := selectedPostId st; isEditingPost := isEditingPost st;
     chatPostId := chatPostId st; selectedRoomId := selectedRoomId st;
     isLoading := isLoading st; error := error st |}.

Definition setConfirmedChatRooms (v : list JsString.t) (st : state) : state :=
  {| currentPage := currentPage st; user := user st; allPosts := allPosts st;
     myPosts := myPosts st; chatRooms := chatRooms st;
     chatMessages := chatMessages st; confirmedChatRooms := v;
     selectedPostId := selectedPostId st; isEditingPost := isEditingPost st;
     chatPostId := chatPostId st; selectedRoomId := selectedRoomId st;
     isLoading := isLoading st; error := error st |}.

Definition setSelectedPostId (v : option JsString.t) (st : state) : state :=
  {| currentPage := currentPage st; user := user st; allPosts := allPosts st;
     myPosts := myPosts st; chatRooms := chatRooms st;
     chatMessages := chatMessages st; confirmedChatRooms := confirmedChatRooms st;
     selectedPostId := v; isEditingPost := isEditingPost st;
     chatPostId := chatPostId st; selectedRoomId := selectedRoomId st;
     isLoading := isLoading st; error := error st |}.

Definition setIsEditingPost (v : bool) (st : state) : state :=
  {| currentPage := currentPage st; user := user st; allPosts := allPosts st;
     myPosts := myPosts st; chatRooms := chatRooms st;
     chatMessages := chatMessages st; confirmedChatRooms := confirmedChatRooms st;
     selectedPostId := selectedPostId st; isEditingPost := v;
     chatPostId := chatPostId st; selectedRoomId := selectedRoomId st;
     isLoading := isLoading st; error := error st |}.

Definition setChatPostId (v : option JsString.t) (st : state) : state :=
  {| currentPage := currentPage st; user := user st; allPosts := allPosts st;
     myPosts := myPosts st; chatRooms := chatRooms st;
     chatMessages := chatMessages st; confirmedChatRooms := confirmedChatRooms st;
     selectedPostId := selectedPostId st; isEditingPost := isEditingPost st;
     chatPostId := v; selectedRoomId := selectedRoomId st;
     isLoading := isLoading st; error := error st |}.

Definition setSelectedRoomId (v : value) (st : state) : state :=
  {| currentPage := currentPage st; user := user st; allPosts := allPosts st;
     myPosts := myPosts st; chatRooms := chatRooms st;
     chatMessages := chatMessages st; confirmedChatRooms := confirmedChatRooms st;
     selectedPostId := selectedPostId st; isEditingPost := isEditingPost st;
     chatPostId := chatPostId st; selectedRoomId := v;
     isLoading := isLoading st; error := error st |}.

Definition setIsLoading (v : bool) (st : state) : state :=
  {| currentPage := currentPage st; user := user st; allPosts := allPosts st;
     myPosts := myPosts st; chatRooms := chatRooms st;
     chatMessages := chatMessages st; confirmedChatRooms := confirmedChatRooms st;
     selectedPostId := selectedPostId st; isEditingPost := isEditingPost st;
     chatPostId := chatPostId st; selectedRoomId := selectedRoomId st;
     isLoading := v; error := error st |}.

Definition setError (v : value) (st : state) : state :=
  {| currentPage := currentPage st; user := user st; allPosts := allPosts st;
     myPosts := myPosts st; chatRooms := chatRooms st;
     chatMessages := chatMessages st; confirmedChatRooms := confirmedChatRooms st;
     selectedPostId := selectedPostId st; isEditingPost := isEditingPost st;
     chatPostId := chatPostId st; selectedRoomId := selectedRoomId st;
     isLoading := isLoading st; error := v |}.

(** *** Navigation *)
Definition navigateTo (page : JsString.t) (st : state) : state :=
  let st := setCurrentPage page st in
  let st :=
    if bool_decide (page ≠ JsString.lit "create-post")
    then setSelectedPostId None st else st in
  if bool_decide (page ≠ JsString.lit "create-post")
  then setIsEditingPost false st else st.

Definition handleViewPostDetail (postId : JsString.t) (st : state) : state :=
  setCurrentPage (JsString.lit "post-detail") (setSelectedPostId (Some postId) st).


Definition handleOpenChatDialog (postId : JsString.t) (st : state) : state :=
  setChatPostId (Some postId) st.

Definition handleCloseChat (st : state) : state := setChatPostId None st.

(** *** Sales *)

(** [p.id === postId ? { ...p, sold: true } : p]. *)
Definition mark_sold (postId : JsString.t) (p : doc) : doc :=
  if strict_eq (prop p "id") (Str postId) then <["sold" := Bool true]> p else p.

Definition handleConfirmSale (postId roomId : JsString.t) (st : state) : state :=
  let st := setAllPosts (map (mark_sold postId) (allPosts st)) st in
  let st := setMyPosts (map (mark_sold postId) (myPosts st)) st in
  setConfirmedChatRooms (set_add roomId (confirmedChatRooms st)) st.

Definition handleCancelChat (roomId : JsString.t) (st : state) : state :=
  let st := setSelectedRoomId Null st in
  setConfirmedChatRooms (set_delete roomId (confirmedChatRooms st)) st.

(** *** Calls to the API *)

(** The error a rejected call throws: [err.response?.status],
    [err.response?.data] and [err.message]. *)
Record failure : Type := {
  response_status : value;
  response_data : value;
  failure_message : value
}.

Inductive answer (A : Type) : Type :=
| Resolved (a : A)
| Rejected (err : failure).
Arguments Resolved {A} a.
Arguments Rejected {A} err.

Inductive alert : Type :=
| PleaseLogIn
| Failed (errorMessage : value).

(** "ไม่สามารถเริ่มแชทได้" *)
Definition cannot_start_chat : JsString.t :=
  [0xe44; 0xe21; 0xe48; 0xe2a; 0xe32; 0xe21; 0xe32; 0xe23; 0xe16; 0xe40;
   0xe23; 0xe34; 0xe48; 0xe21; 0xe41; 0xe0a; 0xe17; 0xe44; 0xe14; 0xe49].

(** [createChatRoom(postId)] is called only when the post is not a
    mock post; [room] is the [data.data] of its answer. *)
Definition handleOpenChat (postId : JsString.t) (createChatRoom : answer doc)
    (st : state) : state * option alert :=
  match user st with
  | None => (st, Some PleaseLogIn)
  | Some u =>
      if negb (truthy (prop u "id")) then (st, Some PleaseLogIn) else
      let post := List.find (λ p, strict_eq (prop p "id") (Str postId)) (allPosts st) in
      let isMockProduct :=
        match post with
        | Some _ => startsWith (JsString.lit "mock-post-") postId
        | None => false
        end in
      if isMockProduct then (navigateTo (JsString.lit "chat") st, None)
      else
        match createChatRoom with
        | Resolved room =>
            let st :=
              if existsb (λ r, strict_eq (prop r "id") (prop room "id")) (chatRooms st)
              then st
              else setChatRooms (chatRooms st ++ [room]) st in
            let st := setSelectedRoomId (prop room "id") st in
            (navigateTo (JsString.lit "chat") st, None)
        | Rejected err =>
            let errorMessage :=
              or (or (or (member (response_data err) "message")
                         (member (response_data err) "error"))
                     (failure_message err))
                 (Str cannot_start_chat) in
            (setError errorMessage st, Some (Failed errorMessage))
        end
  end.

(** [fetchAllData]: the three calls succeed together, each with a
    list or nothing as its [data.data], or one of them fails.
    [generateMockPosts] is the function of [mockData]. *)
Definition fetchAllData (generateMockPosts : value → list doc)
    (answers : option (option (list doc) * option (list doc) * option (list doc)))
    (st : state) : state :=
  match user st with
  | None => st
  | Some u =>
      let st := setError Null st in
      match answers with
      | Some (allProducts, myProducts, rooms) =>
          let fetchedAllPosts := default [] allProducts in
          let fetchedMyPosts := default [] myProducts in
          let mockPosts := generateMockPosts (prop u "id") in
          let existingIds := map (λ p, prop p "id") fetchedAllPosts in
          let newMockPosts :=
            List.filter
              (λ p, negb (existsb (λ x, strict_eq x (prop p "id")) existingIds))
              mockPosts in
          let fetchedAllPosts := fetchedAllPosts ++ newMockPosts in
          let st := setAllPosts fetchedAllPosts st in
          let st := setMyPosts fetchedMyPosts st in
          setChatRooms (default [] rooms) st
      | None =>
          let mockPosts := generateMockPosts (prop u "id") in
          let st := setAllPosts mockPosts st in
          let st := setMyPosts [] st in
          setChatRooms [] st
      end
  end.

(** *** What is rendered *)
Inductive component : Type :=
| LandingPage
| LoginPage
| RegisterPage
| Dashboard
| Marketplace (chattingPostIds : list value)
| CreatePost (editingPost : option doc)
| PostDetail (post : doc) (isMyPost : bool)
| BookingPage
| FertilizerAdvisor (defaultTab : JsString.t)
| CircularEconomy
| AdminPanel
| ChatPage
| ProfilePage
| ChatDialog (post : doc).

Inductive screen : Type :=
| Public (page : component)
| Spinner
| Private (banner : option value) (main : list component).

(** [id ? allPosts.find(p => p.id === id) : null]. *)
Definition find_post (id : option JsString.t) (st : state) : option doc :=
  match id with
  | Some (c :: s) =>
      List.find (λ p, strict_eq (prop p "id") (Str (c :: s))) (allPosts st)
  | _ => None
  end.

(** [cond && <C />]. *)
Definition when (cond : bool) (c : component) : list component :=
  if cond then [c] else [].

(** [new Set(values)]: the values in the order of their first
    occurrence. *)
Definition set_of (l : list value) : list value :=
  foldl (λ acc v, if existsb (strict_eq v) acc then acc else acc ++ [v]) [] l.

Definition render (st : state) : screen :=
  let currentPost := find_post (selectedPostId st) st in
  let chatPost := find_post (chatPostId st) st in
  let on (page : string) := bool_decide (currentPage st = JsString.lit page) in
  match user st with
  | None =>
      if isLoading st then Spinner
      else if on "landing" then Public LandingPage
      else if on "login" then Public LoginPage
      else if on "register" then Public RegisterPage
      else Public LandingPage
  | Some u =>
      if isLoading st then Spinner
      else
        let admin := strict_eq (prop u "role") (Str (JsString.lit "admin")) in
        Private (if truthy (error st) then Some (error st) else None)
          (when (on "dashboard") Dashboard
           ++ when (on "marketplace" && negb admin)
                (Marketplace
                   (set_of (map (λ room, or (prop room "postId") (prop room "productId"))
                              (chatRooms st))))
           ++ when (on "create-post" && negb admin)
                (CreatePost (if isEditingPost st then currentPost else None))
           ++ match currentPost with
              | Some post =>
                  when (on "post-detail")
                    (PostDetail post
                       (bool_decide
                          (to_string (prop post "userId")
                           = to_string (or (prop u "id") (prop u "uid")))))
              | None => []
              end
           ++ when (on "bookings" && negb admin) BookingPage
           ++ when (on "fertilizer-advisor" && negb admin)
                (FertilizerAdvisor (JsString.lit "recommendation"))
           ++ when (on "npk-calculator" && negb admin)
                (FertilizerAdvisor (JsString.lit "calculator"))
           ++ when (on "circular-view" && negb admin) CircularEconomy
           ++ when (on "admin" && admin) AdminPanel
           ++ when (on "chat" && negb admin) ChatPage
           ++ when (on "profile" && negb admin) ProfilePage
           ++ match chatPost with
              | Some post => [ChatDialog post]
              | None => []
              end)
  end.

(** *** The session

    Besides the state of the component: the token [setAuthToken]
    keeps for the API, and the flag the listener of the identity
    service closes over. *)
Record session : Type := {
  view : state;
  authToken : option JsString.t;
  isInitialMount : bool
}.

(** The signed-in user of the identity service. *)
Record firebaseUser : Type := {
  fb_displayName : option JsString.t;
  fb_email : option JsString.t
}.

(** "ผู้ใช้" *)
Definition default_name : JsString.t := [0xe1c; 0xe39; 0xe49; 0xe43; 0xe0a; 0xe49].

(** [s || t] on strings that may be [null]. *)
Definition or_string (s : option JsString.t) (t : JsString.t) : JsString.t :=
  match s with
  | Some (c :: s') => c :: s'
  | _ => t
  end.

Definition defaultProfile (fu : firebaseUser) : doc :=
  {[ "name" :=
       Str (or_string (fb_displayName fu)
              (or_string (split_first 64 <$> fb_email fu) default_name));
     "farmName" := Str [];
     "role" := Str (JsString.lit "user") ]}.

(** Whether a failed profile request says that there is no profile;
    [None] when the test itself throws ([message.includes] on a value
    that has no such method). *)
Definition isNotFoundError (err : failure) : option bool :=
  if strict_eq (response_status err) (Num 404) then Some true
  else if negb (truthy (response_data err)) then Some false
  else if strict_eq (member (response_data err) "code")
            (Str (JsString.lit "USER_NOT_FOUND")) then Some true
  else match member (response_data err) "message" with
       | Undefined | Null => Some false
       | Str m => Some (includes (JsString.lit "not found") m)
       | Arr elems => Some (existsb (strict_eq (Str (JsString.lit "not found"))) elems)
       | Bool _ | Num _ | Obj _ => None
       end.

(** [setUser(null); setAuthToken(null)]. *)
Definition signed_out (c : session) : session :=
  {| view := setUser None (view c); authToken := None;
     isInitialMount := isInitialMount c |}.

(** [setUser(u)] and the page that follows a profile. *)
Definition signed_in (u : doc) (token : JsString.t) (c : session) : session :=
  {| view :=
       setCurrentPage
         (if isInitialMount c then JsString.lit "landing" else JsString.lit "profile")
         (setUser (Some u) (view c));
     authToken := Some token;
     isInitialMount := isInitialMount c |}.

(** The listener [onAuthChange] registers.  [getIdToken] is [None]
    when the token request fails. *)
Definition onAuthChange (getIdToken : option JsString.t) (getMyProfile : answer doc)
    (createProfile : doc → answer doc)
    (user : option firebaseUser) (c : session) : session :=
  let c :=
    match user with
    | Some fu =>
        match getIdToken with
        | Some token =>
            match getMyProfile with
            | Resolved u => signed_in u token c
            | Rejected profileError =>
                match isNotFoundError profileError with
                | Some true =>
                    match createProfile (defaultProfile fu) with
                    | Resolved u => signed_in u token c
                    | Rejected _ => signed_out c
                    end
                | Some false => signed_out c
                | None => signed_out c
                end
            end
        | None => signed_out c
        end
    | None =>
        let st := setUser None (view c) in
        let st := setAllPosts [] st in
        let st := setMyPosts [] st in
        let st := setChatRooms [] st in
        let st := setChatMessages [] st in
        let st := setCurrentPage (JsString.lit "landing") st in
        {| view := st; authToken := None; isInitialMount := isInitialMount c |}
    end in
  {| view := setIsLoading false (view c); authToken := authToken c;
     isInitialMount := false |}.


End App.

(** ** The configuration of the store

    [server/src/config/firebaseConfig.js] reads the private key of the
    service account from the environment, where its line breaks are
    written as a backslash followed by [n]. *)

Module FirebaseConfig.

Local Open Scope N_scope.

(** [key.replace(/\\n/g, '\n')]: from left to right, every backslash
    followed by [n] becomes a line feed. *)
Fixpoint unescape_newlines (s : JsString.t) : JsString.t :=
  match s with
  | [] => []
  | c :: s' =>
      match s' with
      | d :: s'' =>
          if (c =? 92) && (d =? 110) then 10 :: unescape_newlines s''
          else c :: unescape_newlines s'
      | [] => [c]
      end
  end.

(** [process.env.FIREBASE_PRIVATE_KEY?.replace(...)]. *)
Definition privateKey (env_key : option JsString.t) : option JsString.t :=
  unescape_newlines <$> env_key.

(** The lines of a key joined by the two characters. *)
Fixpoint join_escaped (lines : list JsString.t) : JsString.t :=
  match lines with
  | [] => []
  | [l] => l
  | l :: (_ :: _) as ls => l ++ [92; 110] ++ join_escaped ls
  end.

Fixpoint join_lines (lines : list JsString.t) : JsString.t :=
  match lines with
  | [] => []
  | [l] => l
  | l :: (_ :: _) as ls => l ++ [10] ++ join_lines ls
  end.

(** A backslash followed by [n] occurs in [s]. *)
Fixpoint has_escaped_newline (s : JsString.t) : bool :=
  match s with
  | c :: (d :: _) as s' => ((c =? 92) && (d =? 110)) || has_escaped_newline s'
  | _ => false
  end.

End FirebaseConfig.

(** ** The room identity function, as the specification words it

    The two participant identifiers in lexicographic order, the listing
    identifier, joined by underscores; the first 32 hexadecimal
    characters of the SHA-256 digest of that. *)

Definition str_min (a b : JsString.t) : JsString.t :=
  match JsString.compare a b with Gt => b | _ => a end.

Definition str_max (a b : JsString.t) : JsString.t :=
  match JsString.compare a b with Gt => a | _ => b end.

Definition derive_room_id_spec (A B L : JsString.t) : JsString.t :=
  take 32
    (Sha256.hex_digest
       (str_min A B ++ JsString.lit "_" ++ str_max A B ++ JsString.lit "_" ++ L)).

(** ** Notions the properties are stated with *)

Module Notions.

Import Js Firestore ChatController.

(** The participants of a room document are two distinct non-empty
    strings. *)
Definition well_formed_participants (d : doc) : Prop :=
  ∃ a b, d !! "participants" = Some (Arr [Str a; Str b])
         ∧ a ≠ [] ∧ b ≠ [] ∧ a ≠ b.

Definition rooms_well_formed (s : db) : Prop :=
  ∀ id d, s !! [JsString.lit "chatRooms"; id] = Some d →
          well_formed_participants d.

(** After normalisation no participant of the room differs from [z]. *)
Definition no_other (d : doc) (z : JsString.t) : Prop :=
  ∀ p, p ∈ string_array (prop d "participants") → p = z.

(** Two views are in ascending order of their [timestamp]. *)
Definition timestamp_le (a b : doc) : Prop :=
  not_after (value_compare (prop a "timestamp") (prop b "timestamp")).


(** The characters of a digest are the digits and [a] to [f]. *)
Definition hex_char (c : N) : Prop :=
  (48 ≤ c ∧ c ≤ 57)%N ∨ (97 ≤ c ∧ c ≤ 102)%N.

(** A three-way comparison behaves as an order at [a]. *)
Definition ordered_at {A} (cmp : A → A → comparison) (a : A) : Prop :=
  ∀ b c,
    (cmp a b = Eq → cmp a c = cmp b c)
    ∧ (cmp a b = Lt → cmp b c = Lt → cmp a c = Lt)
    ∧ (cmp a b = Lt → cmp b c = Eq → cmp a c = Lt).

(** The room [a] is not older than the room [b], both having a time. *)
Definition newest_first (e : env) (a b : doc) : Prop :=
  match room_time e a, room_time e b with
  | Some timeA, Some timeB => (timeB ≤ timeA)%Z
  | _, _ => False
  end.

End Notions.

(** ** A small marketplace to run the handlers on

    The listing [p1] belongs to [u2]; [u1] is the buyer and [u3] a
    stranger. *)

Module Scenario.

Import Js Firestore ChatController.

Definition str (s : string) : value := Str (JsString.lit s).

Definition member (id : string) : user :=
  {| uid := Some (JsString.lit id); displayName := Undefined; name := Undefined |}.

Definition as_user (id : string) (fields : doc) (room : string) : request :=
  {| req_user := Some (member id);
     body := fields;
     params_id := JsString.lit room |}.

Definition at_time (first second id : string) : env :=
  {| now_first := JsString.lit first;
     now_second := JsString.lit second;
     auto_id := JsString.lit id;
     getTime := λ _, None |}.

Definition listing : doc :=
  {["userId" := str "u2"; "title" := str "Compost"]}.

Definition market : db :=
  {[ [JsString.lit "products"; JsString.lit "p1"] := listing ]}.

Definition open_chat (id : string) : request :=
  as_user id {["productId" := str "p1"]} "".

(** The room of [u1], [u2] and [p1]. *)
Definition room_id : string := "fc8d88cee97c4827188eacdf6d993c84".

Definition room_ref : path := [JsString.lit "chatRooms"; JsString.lit room_id].

Definition say (id text : string) : request :=
  as_user id {["text" := str text]} room_id.

Definition morning : env :=
  at_time "2024-01-01T08:00:00.000Z" "2024-01-01T08:00:00.001Z" "m0".

(** The store with a room document under [room_id]. *)
Definition with_stored_room (d : doc) : db := <[room_ref := d]> market.

(** The room [u1] opens in the morning, and the store that has it. *)
Definition room_doc : doc :=
  newChatRoom morning (member "u1") listing None None
    (JsString.lit "u1") (JsString.lit "u2") (str "p1").

Definition with_room : db := with_stored_room room_doc.

(** A room document with the given participants and names. *)
Definition room_of (participants names : value) : doc :=
  {["participants" := participants; "participantNames" := names]}.

(** A post of [sender] to [receiver], and the store after it. *)
Definition message_ref (e : env) : path :=
  room_ref ++ [JsString.lit "messages"; auto_id e].

Definition message_doc (e : env) (sender receiver text : string) : doc :=
  newMessage e (JsString.lit room_id) (JsString.lit sender) (str receiver)
    (JsString.lit text).

Definition after_post (e : env) (sender receiver text : string)
    (room : doc) (s : db) : db :=
  <[room_ref := lastMessageUpdate e (JsString.lit sender) (JsString.lit text) ∪ room]>
    (<[message_ref e := message_doc e sender receiver text]> s).

(** Two instants within the same millisecond, and a later hour. *)
Definition tie_first : env :=
  at_time "2024-01-01T09:00:00.000Z" "2024-01-01T09:00:00.000Z" "m1".

Definition tie_second : env :=
  at_time "2024-01-01T09:00:00.000Z" "2024-01-01T09:00:00.000Z" "a0".

Definition afternoon : env :=
  at_time "2024-01-01T15:00:00.000Z" "2024-01-01T15:00:00.001Z" "a0".

(** What a reply shows: the documents listed, and their texts. *)
Definition listed (o : outcome response) : list doc :=
  match o with
  | Returned {| data := Many ds |} => ds
  | _ => []
  end.

Definition texts (ds : list doc) : list value := map (λ d, prop d "text") ds.

(** [new Date(v).getTime()] where the time is a number or a string
    in the format of [toISOString], the one in which the handlers
    write a time; the scenario holds no other. *)
Definition decimal (s : JsString.t) : option Z :=
  foldl (λ acc c,
           match acc with
           | Some n =>
               if bool_decide (48 ≤ c ≤ 57)%N then Some (10 * n + Z.of_N c - 48)%Z
               else None
           | None => None
           end) (Some 0%Z) s.

Definition days_in_month (y m : Z) : Z :=
  if bool_decide (m = 2)%Z then
    if bool_decide ((y mod 4 = 0 ∧ y mod 100 ≠ 0) ∨ y mod 400 = 0)%Z then 29%Z else 28%Z
  else if bool_decide (m = 4 ∨ m = 6 ∨ m = 9 ∨ m = 11)%Z then 30%Z
  else 31%Z.

(** The days from 1970-01-01 to the day [d] of the month [m] of the
    year [y]. *)
Definition days_from_epoch (y m d : Z) : Z :=
  let y := if (m <=? 2)%Z then (y - 1)%Z else y in
  let era := (y / 400)%Z in
  let yoe := (y - era * 400)%Z in
  let doy := ((153 * (if (2 <? m)%Z then m - 3 else m + 9) + 2) / 5 + d - 1)%Z in
  let doe := (yoe * 365 + yoe / 4 - yoe / 100 + doy)%Z in
  (era * 146097 + doe - 719468)%Z.

Definition iso_time (s : JsString.t) : option Z :=
  if bool_decide (length s = 24 ∧ s !! 4 = Some 45%N ∧ s !! 7 = Some 45%N
                  ∧ s !! 10 = Some 84%N ∧ s !! 13 = Some 58%N
                  ∧ s !! 16 = Some 58%N ∧ s !! 19 = Some 46%N
                  ∧ s !! 23 = Some 90%N)
  then
    match decimal (take 4 s), decimal (take 2 (drop 5 s)), decimal (take 2 (drop 8 s)),
          decimal (take 2 (drop 11 s)), decimal (take 2 (drop 14 s)),
          decimal (take 2 (drop 17 s)), decimal (take 3 (drop 20 s)) with
    | Some y, Some m, Some d, Some hh, Some mm, Some ss, Some ms =>
        if bool_decide (1 ≤ m ≤ 12 ∧ 1 ≤ d ≤ days_in_month y m
                        ∧ hh ≤ 23 ∧ mm ≤ 59 ∧ ss ≤ 59)%Z
        then Some ((((days_from_epoch y m d * 24 + hh) * 60 + mm) * 60 + ss) * 1000
                   + ms)%Z
        else None
    | _, _, _, _, _, _, _ => None
    end
  else None.

Definition date_time (v : value) : option Z :=
  match v with
  | Num n => if (Z.abs n <=? 8640000000000000)%Z then Some n else None
  | Str s => iso_time s
  | Bool true => Some 1%Z
  | _ => None
  end.

(** The evening, when times are read. *)
Definition evening : env :=
  {| now_first := JsString.lit "2024-01-01T18:00:00.000Z";
     now_second := JsString.lit "2024-01-01T18:00:00.001Z";
     auto_id := JsString.lit "e0";
     getTime := date_time |}.

(** The room [u3] opens with [u2] at nine, and the store that has it
    beside the room of [u1], in which [u1] has posted in the
    afternoon. *)
Definition other_room_id : JsString.t :=
  generateChatRoomId (JsString.lit "u3") (JsString.lit "u2") (JsString.lit "p1").

Definition other_room_doc : doc :=
  newChatRoom tie_first (member "u3") listing None None
    (JsString.lit "u3") (JsString.lit "u2") (str "p1").

Definition posted_room_doc : doc :=
  lastMessageUpdate afternoon (JsString.lit "u1") (JsString.lit "hello") ∪ room_doc.

Definition two_rooms : db :=
  <[[JsString.lit "chatRooms"; other_room_id] := other_room_doc]>
    (after_post afternoon "u1" "u2" "hello" room_doc with_room).



(** A request without a user. *)
Definition anonymous (room : string) : request :=
  {| req_user := None; body := ∅; params_id := JsString.lit room |}.

(** A room of the time when identifiers were numbers. *)
Definition legacy_room : doc := room_of (Arr [Num 5; str "u2"]) Null.

(** The store after the first message of the morning. *)
Definition after_hello : db :=
  after_post morning "u1" "u2" " hello " room_doc with_room.

(** The client of [u1], signed in, with nothing loaded. *)
Definition buyer : doc := {["id" := str "u1"; "role" := str "user"]}.

Definition signed_in_client : App.state :=
  App.setIsLoading false (App.setUser (Some buyer) App.initial).

(** The room the server answers with. *)
Definition answered_room : doc := {["id" := str room_id; "productId" := str "p1"]}.

(** A mock post, and the same identifier on a post of the server. *)
Definition mock_post : doc := {["id" := str "mock-post-1"; "title" := str "Mock"]}.
Definition served_post : doc := {["id" := str "mock-post-1"; "title" := str "Real"]}.

(** The post [p1], and the session in which [u1] is editing it. *)
Definition edited_post : doc := {["id" := str "p1"; "title" := str "Compost"]}.

(** The client of [u1] with the post [p1] loaded. *)
Definition browsing_client : App.state :=
  App.setAllPosts [edited_post] signed_in_client.


End Scenario.

(** * Properties *)

(** ** Strings and the room identity *)

Section StringOrder.

Lemma compare_refl (a : JsString.t) : JsString.compare a a = Eq.
Proof.
  induction a as [|x a IH]; [done|].
  simpl. by rewrite N.compare_refl.
Qed.

Lemma compare_eq (a b : JsString.t) : JsString.compare a b = Eq → a = b.
Proof.
  revert b. induction a as [|x a IH]; intros [|y b]; simpl; try done.
  destruct (N.compare_spec x y) as [->| |]; try done.
  intros H. f_equal. by apply IH.
Qed.

Lemma compare_antisym (a b : JsString.t) :
  JsString.compare b a = CompOpp (JsString.compare a b).
Proof.
  revert b. induction a as [|x a IH]; intros [|y b]; simpl; try done.
  rewrite (N.compare_antisym x y).
  destruct (N.compare x y); simpl; auto.
Qed.

Lemma sort_pair (a b : JsString.t) :
  JsString.sort [a; b] = if JsString.ltb b a then [b; a] else [a; b].
Proof. reflexivity. Qed.

Lemma sort_pair_min_max (a b : JsString.t) :
  JsString.sort [a; b] = [str_min a b; str_max a b].
Proof.
  rewrite sort_pair. unfold JsString.ltb, str_min, str_max.
  rewrite (compare_antisym a b).
  destruct (JsString.compare a b) eqn:E; simpl; try done.
Qed.

Lemma sort_pair_comm (a b : JsString.t) :
  JsString.sort [a; b] = JsString.sort [b; a].
Proof.
  rewrite !sort_pair. unfold JsString.ltb.
  rewrite (compare_antisym a b).
  destruct (JsString.compare a b) eqn:E; simpl; try done.
  apply compare_eq in E. by subst.
Qed.

End StringOrder.

Section HexDigest.

Lemma hex_word_length (x : N) : length (Sha256.hex_word x) = 8.
Proof. reflexivity. Qed.

Lemma hex_length (s : Sha256.state) : length (Sha256.hex s) = 64.
Proof.
  destruct s as [[[[[[[a b] c] d] e] f] g] h].
  unfold Sha256.hex. rewrite !length_app, !hex_word_length. reflexivity.
Qed.

Lemma generateChatRoomId_length (A B L : JsString.t) :
  length (generateChatRoomId A B L) = 32.
Proof.
  unfold generateChatRoomId, JsString.substring0, Sha256.hex_digest.
  rewrite length_take, hex_length. reflexivity.
Qed.

End HexDigest.

(** C1. The room identity does not depend on the order of the two
    participants: [generateChatRoomId A B L = generateChatRoomId B A L]
    for all strings. *)
Theorem generateChatRoomId_comm (A B L : JsString.t) :
  generateChatRoomId A B L = generateChatRoomId B A L.
Proof.
  unfold generateChatRoomId. by rewrite (sort_pair_comm A B).
Qed.

(** C6. The room identity is the first 32 hexadecimal characters of the
    SHA-256 digest of min(A,B) + "_" + max(A,B) + "_" + L; being a
    function of its three arguments it is deterministic, and its length
    is 32 whatever the lengths of A, B and L. *)
Theorem generateChatRoomId_reference (A B L : JsString.t) :
  generateChatRoomId A B L = derive_room_id_spec A B L
  ∧ length (generateChatRoomId A B L) = 32
  ∧ (∀ A' B' L', A = A' → B = B' → L = L' →
       generateChatRoomId A B L = generateChatRoomId A' B' L').
Proof.
  split; [|split].
  - unfold generateChatRoomId, derive_room_id_spec, JsString.substring0.
    by rewrite sort_pair_min_max.
  - apply generateChatRoomId_length.
  - by intros A' B' L' -> -> ->.
Qed.

(** ** The store and the guards *)

Import Js Firestore ChatController Notions.

Section Monad.

Context {A B : Type}.

Lemma bind_ret (a : A) (k : A → M B) : bind (ret a) k = k a.
Proof. reflexivity. Qed.

Lemma bind_throw (c : option N) (m : string) (k : A → M B) :
  bind (throw c m) k = throw c m.
Proof. reflexivity. Qed.

Lemma bind_get (r : path) (k : option doc → M B) (s : db) :
  bind (get r) k s = k (s !! r) s.
Proof. reflexivity. Qed.

End Monad.

Section References.

Lemma split_slash_no_slash (s : JsString.t) : 47%N ∉ s → split_slash s = [s].
Proof.
  induction s as [|c s IH]; [done|].
  intros H. apply not_elem_of_cons in H as [Hc Hs].
  simpl. destruct (N.eqb_spec c 47) as [->|_]; [done|].
  by rewrite IH.
Qed.

Lemma segments_identifier (s : JsString.t) : identifier s → segments s = [s].
Proof.
  intros (Hne & Hs & _). unfold segments. rewrite split_slash_no_slash by done.
  rewrite filter_cons_True by done. by rewrite filter_nil.
Qed.

Lemma has_double_slash_no_slash (s : JsString.t) :
  47%N ∉ s → has_double_slash s = false.
Proof.
  induction s as [|c s IH]; [done|].
  intros H. apply not_elem_of_cons in H as [Hc Hs].
  destruct s as [|d s]; [done|].
  change (((c =? 47)%N && (d =? 47)%N) || has_double_slash (d :: s) = false).
  rewrite IH by done. destruct (N.eqb_spec c 47); [done|]. reflexivity.
Qed.

Lemma doc_ref_identifier (c s : JsString.t) :
  identifier s → doc_ref [c] (Str s) = ret [c; s].
Proof.
  intros Hs. pose proof Hs as (Hne & Hno & _). unfold doc_ref.
  destruct s as [|x s]; [done|].
  rewrite has_double_slash_no_slash, segments_identifier by done.
  reflexivity.
Qed.

Lemma doc_ref_inv (c : path) (v : value) :
  (∃ m, doc_ref c v = throw None m)
  ∨ (∃ x r, v = Str x ∧ x ≠ [] ∧ doc_ref c v = ret r ∧ r = c ++ segments x).
Proof.
  destruct v as [| | | |x| |]; try (left; eexists; reflexivity).
  destruct x as [|a x]; [left; eexists; reflexivity|].
  unfold doc_ref. destruct (has_double_slash _); [left; eexists; reflexivity|].
  destruct (Nat.even _); [|left; eexists; reflexivity].
  right. by eexists _, _.
Qed.

Lemma ref_child_ne (r : path) (a b : JsString.t) : r ++ [a; b] ≠ r.
Proof.
  intros H. apply (f_equal length) in H.
  rewrite length_app in H. simpl in H. lia.
Qed.

Lemma prop_lookup (d : doc) (k : string) (v : value) :
  d !! k = Some v → prop d k = v.
Proof. unfold prop. by intros ->. Qed.

Lemma truthy_identifier (z : JsString.t) : identifier z → truthy (Str z) = true.
Proof. intros [Hne _]. by destruct z. Qed.

Lemma hex_digit_range (d : N) : (d < 16)%N → hex_char (Sha256.hex_digit d).
Proof.
  unfold hex_char, Sha256.hex_digit. destruct (N.ltb_spec d 10); lia.
Qed.

Lemma hex_word_chars (x : N) : Forall hex_char (Sha256.hex_word x).
Proof.
  unfold Sha256.hex_word. apply Forall_fmap, Forall_forall. intros i _.
  apply hex_digit_range. change 15%N with (N.ones 4).
  rewrite N.land_ones. by apply N.mod_lt.
Qed.

Lemma hex_chars (s : Sha256.state) : Forall hex_char (Sha256.hex s).
Proof.
  destruct s as [[[[[[[a b] c] d] e] f] g] h]. unfold Sha256.hex.
  repeat (apply Forall_app; split); apply hex_word_chars.
Qed.

Lemma utf8_ascii (s : JsString.t) :
  Forall (λ c, (c < 128)%N) s → JsString.utf8 s = s.
Proof.
  induction 1 as [|c s Hc _ IH]; [done|].
  cbn [JsString.utf8]. unfold JsString.is_high_surrogate, JsString.is_low_surrogate.
  destruct (N.leb_spec 0xD800 c); [lia|].
  destruct (N.leb_spec 0xDC00 c); [lia|]. cbn [andb].
  unfold JsString.utf8_of_code_point.
  destruct (N.ltb_spec c 0x80); [|lia]. by rewrite IH.
Qed.

Lemma generateChatRoomId_chars (A B L : JsString.t) :
  Forall hex_char (generateChatRoomId A B L).
Proof.
  unfold generateChatRoomId, JsString.substring0, Sha256.hex_digest.
  apply Forall_take, hex_chars.
Qed.

Lemma generateChatRoomId_identifier (A B L : JsString.t) :
  identifier (generateChatRoomId A B L).
Proof.
  pose proof (generateChatRoomId_length A B L) as Hlen.
  pose proof (generateChatRoomId_chars A B L) as Hchars.
  destruct (generateChatRoomId A B L) as [|c1 [|c2 id]] eqn:E;
    [discriminate|discriminate|].
  apply Forall_cons in Hchars as [Hc1 Hchars].
  repeat split.
  - discriminate.
  - intros Hin. apply elem_of_cons in Hin as [<-|Hin].
    + unfold hex_char in Hc1. lia.
    + rewrite Forall_forall in Hchars. apply Hchars in Hin.
      unfold hex_char in Hin. lia.
  - discriminate.
  - intros [= -> -> ->]. discriminate.
  - intros (_ & Hpre & _). injection Hpre as -> _.
    unfold hex_char in Hc1. lia.
  - rewrite utf8_ascii; [lia|].
    apply Forall_cons. split; [unfold hex_char in Hc1; lia|].
    eapply Forall_impl; [exact Hchars|]. unfold hex_char. intros; lia.
Qed.

End References.

Section Guards.

Lemma require_user_ok (req : request) (u : user) :
  req_user req = Some u → require_user req = ret u.
Proof. unfold require_user. by intros ->. Qed.

Lemma require_uid_ok (u : user) (z : JsString.t) :
  uid u = Some z → z ≠ [] → length z ≤ 100 → require_uid u = ret z.
Proof.
  unfold require_uid. intros -> Hne Hlen.
  destruct z as [|c z]; [done|].
  by rewrite (proj2 (Nat.ltb_ge _ _) Hlen).
Qed.

Lemma require_uid_inv (u : user) :
  (∃ m, require_uid u = throw (Some 401%N) m)
  ∨ (∃ z, uid u = Some z ∧ z ≠ [] ∧ length z ≤ 100 ∧ require_uid u = ret z).
Proof.
  unfold require_uid.
  destruct (uid u) as [[|c z]|]; try (left; eexists; reflexivity).
  destruct (100 <? _) eqn:E; [left; eexists; reflexivity|].
  right. eexists. repeat split; try done. by apply Nat.ltb_ge.
Qed.

Lemma require_user_inv (req : request) :
  (∃ m, require_user req = throw (Some 401%N) m)
  ∨ (∃ u, req_user req = Some u ∧ require_user req = ret u).
Proof.
  unfold require_user. destruct (req_user req); [right|left]; eauto.
Qed.

Lemma isParticipant_spec (ps : list JsString.t) (z : JsString.t) :
  isParticipant ps z = true ↔ z ∈ ps.
Proof.
  unfold isParticipant. rewrite existsb_exists. split.
  - intros (p & Hp & Hz). apply bool_decide_eq_true in Hz as ->.
    by apply list_elem_of_In.
  - intros H. exists z. split; [by apply list_elem_of_In|].
    by apply bool_decide_eq_true.
Qed.

End Guards.


(** Running a handler: rewrite a step that returns, then expose the
    next one. *)
Ltac step_with H := rewrite H, bind_ret; cbv beta zeta.

(** ** Room creation *)

Section CreateChatRoom.

Implicit Types (e : env) (req : request) (s : db) (z pid : JsString.t).

Lemma createChatRoom_existing e req s z pid product existingData :
  subject_of req z →
  body req !! "productId" = Some (Str pid) →
  identifier pid →
  s !! [JsString.lit "products"; pid] = Some product →
  let sellerId := to_string (or (prop product "userId") (Str [])) in
  let chatRoomId := generateChatRoomId z sellerId pid in
  sellerId ≠ z →
  s !! [JsString.lit "chatRooms"; chatRoomId] = Some existingData →
  createChatRoom e req s =
    (Returned {| status := 200;
                 data := One (room_view chatRoomId existingData z);
                 message := Some "Chat room already exists" |}, s).
Proof.
  intros (u & Hu & Huid & Hne & Hlen) Hbody Hpid Hproduct
         sellerId chatRoomId Hseller Hroom.
  subst sellerId chatRoomId. unfold createChatRoom.
  step_with (require_user_ok _ _ Hu).
  rewrite !(prop_lookup _ _ _ Hbody).
  rewrite (truthy_identifier _ Hpid). cbn [negb].
  step_with (require_uid_ok _ _ Huid Hne Hlen).
  step_with (doc_ref_identifier (JsString.lit "products") _ Hpid).
  rewrite bind_get, Hproduct.
  rewrite bool_decide_eq_false_2 by done.
  change (to_string (Str pid)) with pid.
  step_with (doc_ref_identifier (JsString.lit "chatRooms") _
               (generateChatRoomId_identifier z
                  (to_string (or (prop product "userId") (Str []))) pid)).
  rewrite bind_get, Hroom. reflexivity.
Qed.

Lemma createChatRoom_new e req s z pid product u :
  req_user req = Some u → uid u = Some z → identifier z → length z ≤ 100 →
  body req !! "productId" = Some (Str pid) →
  identifier pid →
  s !! [JsString.lit "products"; pid] = Some product →
  let sellerId := to_string (or (prop product "userId") (Str [])) in
  let chatRoomId := generateChatRoomId z sellerId pid in
  identifier sellerId →
  sellerId ≠ z →
  s !! [JsString.lit "chatRooms"; chatRoomId] = None →
  let room :=
    newChatRoom e u product (s !! [JsString.lit "users"; z])
      (s !! [JsString.lit "users"; sellerId]) z sellerId (Str pid) in
  createChatRoom e req s =
    (Returned {| status := 201;
                 data := One (<["otherParticipantId" := Str sellerId]>
                                (room ∪ {["id" := Str chatRoomId]}));
                 message := None |},
     <[[JsString.lit "chatRooms"; chatRoomId] := room]> s).
Proof.
  intros Hu Huid Hz Hlen Hbody Hpid Hproduct
         sellerId chatRoomId Hsid Hseller Hroom room.
  subst sellerId chatRoomId room. unfold createChatRoom.
  step_with (require_user_ok _ _ Hu).
  rewrite !(prop_lookup _ _ _ Hbody).
  rewrite (truthy_identifier _ Hpid). cbn [negb].
  step_with (require_uid_ok _ _ Huid (proj1 Hz) Hlen).
  step_with (doc_ref_identifier (JsString.lit "products") _ Hpid).
  rewrite bind_get, Hproduct.
  rewrite bool_decide_eq_false_2 by done.
  change (to_string (Str pid)) with pid.
  step_with (doc_ref_identifier (JsString.lit "chatRooms") _
               (generateChatRoomId_identifier z
                  (to_string (or (prop product "userId") (Str []))) pid)).
  rewrite bind_get, Hroom.
  step_with (doc_ref_identifier (JsString.lit "users") _ Hz). rewrite bind_get.
  step_with (doc_ref_identifier (JsString.lit "users") _ Hsid). rewrite bind_get.
  reflexivity.
Qed.


Lemma newChatRoom_participants e u product bd sd a b (pid : value) :
  newChatRoom e u product bd sd a b pid !! "participants"
  = Some (Arr [Str a; Str b]).
Proof. reflexivity. Qed.

(** Whatever the request, the handler writes nothing or one new room
    whose participants are well formed. *)
Lemma createChatRoom_effect e req s :
  (createChatRoom e req s).2 = s
  ∨ ∃ id room,
      (createChatRoom e req s).2 = <[[JsString.lit "chatRooms"; id] := room]> s
      ∧ s !! [JsString.lit "chatRooms"; id] = None
      ∧ well_formed_participants room.
Proof.
  unfold createChatRoom.
  destruct (require_user_inv req) as [[m ->]|(u & Hu & ->)]; [by left|].
  rewrite bind_ret; cbv beta zeta.
  destruct (truthy _); cbn [negb]; [|by left].
  destruct (require_uid_inv u) as [[m ->]|(z & Huid & Hz & Hlen & ->)]; [by left|].
  rewrite bind_ret; cbv beta.
  destruct (doc_ref_inv [JsString.lit "products"] (prop (body req) "productId"))
    as [[m ->]|(pid & r & Hpid & Hne & -> & Hr)]; [by left|].
  rewrite bind_ret; cbv beta. rewrite bind_get.
  destruct (s !! r) as [product|]; [|by left].
  case_bool_decide as Hself; [by left|].
  step_with (doc_ref_identifier (JsString.lit "chatRooms") _
               (generateChatRoomId_identifier z
                  (to_string (or (prop product "userId") (Str [])))
                  (to_string (prop (body req) "productId")))).
  rewrite bind_get.
  destruct (s !! _) as [existing|] eqn:Hroom; [by left|].
  destruct (doc_ref_inv [JsString.lit "users"] (Str z))
    as [[m ->]|(? & rb & _ & _ & -> & _)]; [by left|].
  rewrite bind_ret; cbv beta. rewrite bind_get.
  destruct (doc_ref_inv [JsString.lit "users"]
              (Str (to_string (or (prop product "userId") (Str [])))))
    as [[m ->]|(sid & rs & Hx & Hxne & -> & _)]; [by left|].
  rewrite bind_ret; cbv beta. rewrite bind_get.
  right. eexists _, _. split; [reflexivity|]. split; [done|].
  injection Hx as <-.
  eexists _, _. split; [apply newChatRoom_participants|]. done.
Qed.

End CreateChatRoom.

(** ** The membership gate *)

Section Gate.

Implicit Types (e : env) (req : request) (s : db) (z rid : JsString.t).

Lemma getChatRoomById_run req s z :
  subject_of req z → identifier (params_id req) →
  getChatRoomById req s =
    match s !! [JsString.lit "chatRooms"; params_id req] with
    | None => (Thrown (Some 404%N) "Chat room not found", s)
    | Some data =>
        if isParticipant (string_array (prop data "participants")) z
        then (Returned {| status := 200;
                          data := One (room_view (params_id req) data z);
                          message := None |}, s)
        else (Thrown (Some 403%N) "Not authorized to access this chat room", s)
    end.
Proof.
  intros (u & Hu & Huid & Hne & Hlen) Hrid.
  unfold getChatRoomById.
  step_with (require_user_ok _ _ Hu).
  step_with (require_uid_ok _ _ Huid Hne Hlen).
  step_with (doc_ref_identifier (JsString.lit "chatRooms") _ Hrid).
  rewrite bind_get.
  destruct (s !! _) as [data|]; [|done].
  destruct (isParticipant _ _); reflexivity.
Qed.

Lemma getMessages_run req s z :
  subject_of req z → identifier (params_id req) →
  getMessages req s =
    match s !! [JsString.lit "chatRooms"; params_id req] with
    | None => (Thrown (Some 404%N) "Chat room not found", s)
    | Some data =>
        if truthy (prop data "participants")
           && negb (is_array (prop data "participants"))
        then (Thrown None "chatRoomData.participants.map is not a function", s)
        else if isParticipant (string_array (prop data "participants")) z
        then (Returned
                {| status := 200;
                   data := Many (map message_view
                             (select_order_by
                                [JsString.lit "chatRooms"; params_id req;
                                 JsString.lit "messages"] "timestamp" s));
                   message := None |}, s)
        else (Thrown (Some 403%N) "Not authorized to access this chat room", s)
    end.
Proof.
  intros (u & Hu & Huid & Hne & Hlen) Hrid.
  unfold getMessages.
  step_with (require_user_ok _ _ Hu).
  step_with (require_uid_ok _ _ Huid Hne Hlen).
  step_with (doc_ref_identifier (JsString.lit "chatRooms") _ Hrid).
  rewrite bind_get.
  destruct (s !! _) as [data|]; [|done].
  destruct (_ && _); [done|].
  destruct (isParticipant _ _); reflexivity.
Qed.

Lemma postMessage_run e req s z t :
  subject_of req z → identifier (params_id req) →
  body req !! "text" = Some (Str t) → trim t ≠ [] →
  postMessage e req s =
    let room := [JsString.lit "chatRooms"; params_id req] in
    match s !! room with
    | None => (Thrown (Some 404%N) "Chat room not found", s)
    | Some data =>
        let participants := string_array (prop data "participants") in
        if isParticipant participants z
        then
          if truthy (find_other participants z)
          then
            let message :=
              newMessage e (params_id req) z (find_other participants z) t in
            let ref := room ++ [JsString.lit "messages"; auto_id e] in
            match s !! ref with
            | Some _ => (Thrown None "Document already exists", s)
            | None =>
                (Returned {| status := 201;
                             data := One (message ∪ {["id" := Str (auto_id e)]});
                             message := None |},
                 <[room := lastMessageUpdate e z t ∪ data]> (<[ref := message]> s))
            end
          else (Thrown (Some 400%N) "Cannot determine receiver", s)
        else (Thrown (Some 403%N) "Not authorized to post in this chat room", s)
    end.
Proof.
  intros (u & Hu & Huid & Hne & Hlen) Hrid Htext Htrim.
  unfold postMessage.
  step_with (require_user_ok _ _ Hu).
  step_with (require_uid_ok _ _ Huid Hne Hlen).
  rewrite !(prop_lookup _ _ _ Htext).
  assert (truthy (Str t) = true) as ->.
  { destruct t; [|done]. by destruct Htrim. }
  cbn [negb]. rewrite bool_decide_eq_false_2 by done.
  step_with (doc_ref_identifier (JsString.lit "chatRooms") _ Hrid).
  rewrite bind_get.
  destruct (s !! _) as [data|] eqn:Hroom; [|done].
  destruct (isParticipant _ _); cbn [negb]; [|done].
  destruct (truthy _); cbn [negb]; [|done].
  unfold bind, add, update, reply, ret. cbn [app].
  destruct (s !! [_; _; _; _]) eqn:Hmsg; [done|].
  rewrite lookup_insert_ne by done. rewrite Hroom.
  reflexivity.
Qed.

End Gate.


(** ** The orders of the store *)

Section Order.

Lemma bytes_compare_antisym (a b : list N) :
  bytes_compare b a = CompOpp (bytes_compare a b).
Proof.
  revert b. induction a as [|x a IH]; intros [|y b]; simpl; try done.
  rewrite (N.compare_antisym x y).
  destruct (N.compare x y); simpl; auto.
Qed.

Lemma value_compare_antisym (a b : value) :
  value_compare b a = CompOpp (value_compare a b).
Proof.
  revert b. induction a as [| |x|x|x|xs IH|xs IH] using value_induction;
    intros [| |y|y|y|ys|ys]; try reflexivity.
  - by destruct x, y.
  - simpl. apply Z.compare_antisym.
  - simpl. apply bytes_compare_antisym.
  - simpl. revert ys. induction IH as [|x xs Hx _ IHxs]; intros [|y ys]; try done.
    rewrite (Hx y). destruct (value_compare x y); simpl; auto.
  - simpl. revert ys.
    induction IH as [|[k x] xs Hx _ IHxs]; intros [|[l y] ys]; try done.
    unfold key_compare. rewrite (bytes_compare_antisym _ _).
    destruct (bytes_compare _ _); simpl; auto.
    simpl in Hx. rewrite (Hx y). destruct (value_compare x y); simpl; auto.
Qed.

Lemma path_compare_antisym (a b : path) :
  path_compare b a = CompOpp (path_compare a b).
Proof.
  revert b. induction a as [|x a IH]; intros [|y b]; simpl; try done.
  unfold string_compare. rewrite (bytes_compare_antisym _ _).
  destruct (bytes_compare _ _); simpl; auto.
Qed.

#[global] Instance by_name_total : Total by_name.
Proof.
  intros x y. unfold by_name. rewrite (path_compare_antisym x.1 y.1).
  destruct (path_compare x.1 y.1); simpl; auto.
Qed.

#[global] Instance by_field_total field : Total (by_field field).
Proof.
  intros x y. unfold by_field.
  rewrite (value_compare_antisym (prop x.2 field) (prop y.2 field)).
  destruct (value_compare _ _); simpl; auto.
  apply by_name_total.
Qed.

End Order.

Section Transitivity.

Lemma ordered_at_N (a : N) : ordered_at N.compare a.
Proof.
  intros b c. repeat split.
  - by intros ->%N.compare_eq.
  - rewrite !N.compare_lt_iff. lia.
  - by intros H ->%N.compare_eq.
Qed.

Lemma ordered_at_Z (a : Z) : ordered_at Z.compare a.
Proof.
  intros b c. repeat split.
  - by intros ->%Z.compare_eq.
  - rewrite !Z.compare_lt_iff. lia.
  - by intros H ->%Z.compare_eq.
Qed.

Lemma ordered_at_nat (a : nat) : ordered_at Nat.compare a.
Proof.
  intros b c. repeat split.
  - by intros ->%Nat.compare_eq.
  - rewrite !Nat.compare_lt_iff. lia.
  - by intros H ->%Nat.compare_eq.
Qed.

Lemma ordered_at_bytes (a : list N) : ordered_at bytes_compare a.
Proof.
  induction a as [|x a IH]; intros [|y b] [|z c]; simpl; try done.
  destruct (ordered_at_N x y z) as (H1 & H2 & H3).
  destruct (IH b c) as (I1 & I2 & I3).
  destruct (N.compare x y) eqn:Exy; destruct (N.compare y z) eqn:Eyz;
    try rewrite (H1 eq_refl); try rewrite (H2 eq_refl eq_refl);
    try rewrite (H3 eq_refl eq_refl); try rewrite Eyz; try done.
Qed.

Lemma ordered_at_key (a : string) : ordered_at key_compare a.
Proof. intros b c. unfold key_compare. apply ordered_at_bytes. Qed.

Lemma ordered_at_string (a : JsString.t) : ordered_at string_compare a.
Proof. intros b c. unfold string_compare. apply ordered_at_bytes. Qed.

Lemma ordered_at_bool (a : bool) :
  ordered_at (λ x y, Nat.compare (Nat.b2n x) (Nat.b2n y)) a.
Proof. intros b c. by destruct a, b, c. Qed.

Lemma ordered_at_value (a : value) : ordered_at value_compare a.
Proof.
  induction a as [| |x|x|x|xs IH|xs IH] using value_induction;
    intros b c.
  - destruct b, c; repeat split; try done.
  - destruct b, c; repeat split; try done.
  - destruct b as [| |y| | | |], c as [| |z| | | |]; try (repeat split; done).
    apply (ordered_at_bool x y z).
  - destruct b as [| | |y| | |], c as [| | |z| | |]; try (repeat split; done).
    apply (ordered_at_Z x y z).
  - destruct b as [| | | |y| |], c as [| | | |z| |]; try (repeat split; done).
    apply (ordered_at_string x y z).
  - destruct b as [| | | | |ys|], c as [| | | | |zs|]; try (repeat split; done).
    cbn [value_compare].
    revert ys zs. induction IH as [|x xs Hx _ IHxs]; intros [|y ys] [|z zs]; try done.
    destruct (Hx y z) as (H1 & H2 & H3).
    destruct (IHxs ys zs) as (I1 & I2 & I3).
    destruct (value_compare x y) eqn:Exy; destruct (value_compare y z) eqn:Eyz;
      try rewrite (H1 eq_refl); try rewrite (H2 eq_refl eq_refl);
      try rewrite (H3 eq_refl eq_refl); try rewrite Eyz; try done.
  - destruct b as [| | | | | |ys], c as [| | | | | |zs]; try (repeat split; done).
    cbn [value_compare].
    revert ys zs.
    induction IH as [|[k x] xs Hx _ IHxs]; intros [|[l y] ys] [|[m z] zs]; try done.
    destruct (ordered_at_key k l m) as (K1 & K2 & K3).
    destruct (Hx y z) as (H1 & H2 & H3). cbn [snd] in *.
    destruct (IHxs ys zs) as (I1 & I2 & I3).
    destruct (key_compare k l) eqn:Ekl; destruct (key_compare l m) eqn:Elm;
      try rewrite (K1 eq_refl); try rewrite (K2 eq_refl eq_refl);
      try rewrite (K3 eq_refl eq_refl); try rewrite Elm; try done.
    destruct (value_compare x y) eqn:Exy; destruct (value_compare y z) eqn:Eyz;
      try rewrite (H1 eq_refl); try rewrite (H2 eq_refl eq_refl);
      try rewrite (H3 eq_refl eq_refl); try rewrite Eyz; try done.
Qed.

Lemma ordered_at_path (a : path) : ordered_at path_compare a.
Proof.
  induction a as [|x a IH]; intros [|y b] [|z c]; simpl; try done.
  destruct (ordered_at_string x y z) as (H1 & H2 & H3).
  destruct (IH b c) as (I1 & I2 & I3).
  destruct (string_compare x y) eqn:Exy; destruct (string_compare y z) eqn:Eyz;
    try rewrite (H1 eq_refl); try rewrite (H2 eq_refl eq_refl);
    try rewrite (H3 eq_refl eq_refl); try rewrite Eyz; try done.
Qed.

(** Not-after is transitive for such a comparison. *)
Lemma not_after_trans {A} (cmp : A → A → comparison) (a b c : A) :
  ordered_at cmp a →
  not_after (cmp a b) → not_after (cmp b c) → not_after (cmp a c).
Proof.
  intros Ha. destruct (Ha b c) as (H1 & H2 & H3).
  destruct (cmp a b) eqn:Eab; destruct (cmp b c) eqn:Ebc;
    try rewrite (H1 eq_refl); try rewrite (H2 eq_refl eq_refl);
    try rewrite (H3 eq_refl eq_refl); try rewrite Ebc; try done.
Qed.

#[global] Instance by_name_trans : Transitive by_name.
Proof.
  intros x y z. unfold by_name. apply not_after_trans, ordered_at_path.
Qed.

#[global] Instance by_field_trans field : Transitive (by_field field).
Proof.
  intros x y z. unfold by_field.
  destruct (ordered_at_value (prop x.2 field) (prop y.2 field) (prop z.2 field))
    as (H1 & H2 & H3).
  destruct (value_compare (prop x.2 field) (prop y.2 field)) eqn:Exy;
    destruct (value_compare (prop y.2 field) (prop z.2 field)) eqn:Eyz;
    try rewrite (H1 eq_refl); try rewrite (H2 eq_refl eq_refl);
    try rewrite (H3 eq_refl eq_refl); try rewrite Eyz; try done.
  apply by_name_trans.
Qed.

#[global] Instance timestamp_le_trans : Transitive timestamp_le.
Proof.
  intros x y z. unfold timestamp_le. apply not_after_trans, ordered_at_value.
Qed.

End Transitivity.

(** ** Queries *)

Section Queries.

Implicit Types (c r : path) (s : db) (rd : path * doc).

Lemma is_child_spec c r : is_child c r = true ↔ ∃ x, r = c ++ [x].
Proof.
  unfold is_child. rewrite bool_decide_eq_true. split.
  - intros [Hlen Htake].
    rewrite <- (take_drop (length c) r), Htake.
    destruct (drop (length c) r) as [|x [|y l]] eqn:E.
    + apply (f_equal length) in E. rewrite length_drop in E. simpl in E. lia.
    + by exists x.
    + apply (f_equal length) in E. rewrite length_drop in E. simpl in E. lia.
  - intros [x ->]. rewrite length_app. simpl. split; [lia|].
    by rewrite take_app_length.
Qed.

Lemma elem_of_children c s rd :
  rd ∈ children c s ↔ s !! rd.1 = Some rd.2 ∧ ∃ x, rd.1 = c ++ [x].
Proof.
  unfold children. rewrite list_elem_of_filter, elem_of_map_to_list', is_child_spec.
  tauto.
Qed.

Lemma NoDup_children c s : NoDup (children c s).
Proof. apply NoDup_filter, NoDup_map_to_list. Qed.

Lemma elem_of_select_order_by c field s rd :
  rd ∈ select_order_by c field s
  ↔ s !! rd.1 = Some rd.2 ∧ (∃ x, rd.1 = c ++ [x]) ∧ is_Some (rd.2 !! field).
Proof.
  unfold select_order_by. rewrite merge_sort_Permutation.
  rewrite list_elem_of_filter, elem_of_children. tauto.
Qed.

Lemma NoDup_select_order_by c field s : NoDup (select_order_by c field s).
Proof.
  unfold select_order_by. rewrite merge_sort_Permutation.
  apply NoDup_filter, NoDup_children.
Qed.

Lemma Sorted_select_order_by c field s :
  Sorted (by_field field) (select_order_by c field s).
Proof. apply (Sorted_merge_sort _). Qed.

Lemma elem_of_select_array_contains c field v s rd :
  rd ∈ select_array_contains c field v s
  ↔ s !! rd.1 = Some rd.2 ∧ (∃ x, rd.1 = c ++ [x])
    ∧ array_contains v (prop rd.2 field) = true.
Proof.
  unfold select_array_contains. rewrite merge_sort_Permutation.
  rewrite list_elem_of_filter, elem_of_children. tauto.
Qed.

Lemma sorted_pair {A} (R : relation A) (a b : A) (l : list A) :
  l ≡ₚ [a; b] → Sorted R l → ¬ R b a → l = [a; b].
Proof.
  intros Hp Hs Hba. symmetry in Hp.
  apply Permutation_length_2_inv in Hp as [->| ->]; [done|].
  apply Sorted_inv in Hs as [_ Hhd]. apply HdRel_inv in Hhd. done.
Qed.

Lemma by_field_timestamp_le (x y : path * doc) :
  by_field "timestamp" x y → timestamp_le (message_view x) (message_view y).
Proof.
  unfold by_field, timestamp_le, message_view, prop.
  rewrite !lookup_union_l by done.
  by destruct (value_compare _ _).
Qed.

End Queries.

(** ** Messages *)

Section Messages.

Implicit Types (e : env) (req : request) (s : db) (z rid : JsString.t).

Lemma prop_is_str (d : doc) (k : string) (t : JsString.t) :
  prop d k = Str t → d !! k = Some (Str t).
Proof. unfold prop. destruct (d !! k); simpl; congruence. Qed.

(** What a post that returned has done. *)
Lemma postMessage_returned e req s r s' :
  identifier (params_id req) →
  postMessage e req s = (Returned r, s') →
  let room := [JsString.lit "chatRooms"; params_id req] in
  let ref := room ++ [JsString.lit "messages"; auto_id e] in
  ∃ z t rdoc,
    subject_of req z ∧ s !! room = Some rdoc ∧ s !! ref = None
    ∧ isParticipant (string_array (prop rdoc "participants")) z = true
    ∧ let message :=
        newMessage e (params_id req) z
          (find_other (string_array (prop rdoc "participants")) z) t in
      data r = One (message ∪ {["id" := Str (auto_id e)]})
      ∧ s' = <[room := lastMessageUpdate e z t ∪ rdoc]> (<[ref := message]> s).
Proof.
  intros Hrid Hrun room ref.
  assert (∃ z t, subject_of req z ∧ body req !! "text" = Some (Str t) ∧ trim t ≠ [])
    as (z & t & Hsub & Htext & Htrim).
  { revert Hrun. unfold postMessage.
    destruct (require_user_inv req) as [[m ->]|(u & Hu & ->)]; [done|].
    rewrite bind_ret; cbv beta.
    destruct (require_uid_inv u) as [[m ->]|(z & Huid & Hz & Hlen & ->)]; [done|].
    rewrite bind_ret; cbv beta zeta.
    destruct (truthy _); cbn [negb]; [|done].
    destruct (prop (body req) "text") as [| | | |t| |] eqn:Htext; try done.
    case_bool_decide as Htrim; [done|].
    intros _. exists z, t. split; [by exists u|]. split; [|done].
    by apply prop_is_str. }
  rewrite (postMessage_run e req s z t Hsub Hrid Htext Htrim) in Hrun.
  cbv zeta in Hrun. fold room ref in Hrun.
  destruct (s !! room) as [rdoc|]; [|done].
  destruct (isParticipant _ z) eqn:Hmem; [|done].
  destruct (truthy _); [|done].
  destruct (s !! ref) eqn:Hfresh; [done|].
  injection Hrun as <- <-.
  exists z, t, rdoc. by repeat split.
Qed.

(** What a listing of messages that returned has read. *)
Lemma getMessages_returned req s r s' :
  getMessages req s = (Returned r, s') →
  ∃ ref, s' = s ∧ status r = 200%N
    ∧ data r = Many (map message_view (select_order_by ref "timestamp" s)).
Proof.
  unfold getMessages.
  destruct (require_user_inv req) as [[m ->]|(u & Hu & ->)]; [done|].
  rewrite bind_ret; cbv beta.
  destruct (require_uid_inv u) as [[m ->]|(z & Huid & Hz & Hlen & ->)]; [done|].
  rewrite bind_ret; cbv beta zeta.
  destruct (doc_ref_inv [JsString.lit "chatRooms"] (Str (params_id req)))
    as [[m ->]|(x & ref & _ & _ & -> & _)]; [done|].
  rewrite bind_ret; cbv beta. rewrite bind_get.
  destruct (s !! ref); [|done].
  destruct (_ && _); [done|].
  destruct (isParticipant _ _); cbn [negb]; [|done].
  intros [= <- <-]. by eexists.
Qed.

Lemma string_compare_value (a b : JsString.t) :
  value_compare (Str a) (Str b) = string_compare a b.
Proof. reflexivity. Qed.

End Messages.

Lemma update_keeps_participants e z t (d : doc) :
  prop (lastMessageUpdate e z t ∪ d) "participants" = prop d "participants".
Proof. unfold prop. by rewrite lookup_union_r. Qed.

Lemma isParticipant_array (d : doc) z :
  isParticipant (string_array (prop d "participants")) z = true →
  truthy (prop d "participants") && negb (is_array (prop d "participants")) = false.
Proof. by destruct (prop d "participants"). Qed.

(** ** Closed goals on the scenario *)

Ltac by_computation := vm_compute; first [reflexivity | exact I | done].

Ltac closed_identifier := apply (bool_decide_unpack _); by_computation.

Ltac closed_subject :=
  eexists; split; [reflexivity|]; split; [reflexivity|];
  split; [discriminate | vm_compute; lia].

Section ScenarioFacts.

Lemma with_room_lookup :
  Scenario.with_room !! [JsString.lit "chatRooms"; JsString.lit Scenario.room_id]
  = Some Scenario.room_doc.
Proof. apply lookup_insert_eq. Qed.


Lemma room_id_derived :
  generateChatRoomId (JsString.lit "u1") (JsString.lit "u2") (JsString.lit "p1")
  = JsString.lit Scenario.room_id.
Proof. by_computation. Qed.

(** The scenario's room is the one [createChatRoom] writes for [u1]. *)
Lemma with_room_created :
  ∃ view,
    createChatRoom Scenario.morning (Scenario.open_chat "u1") Scenario.market
    = (Returned {| status := 201; data := One view; message := None |},
       Scenario.with_room).
Proof.
  eexists.
  rewrite (createChatRoom_new Scenario.morning (Scenario.open_chat "u1")
             Scenario.market (JsString.lit "u1") (JsString.lit "p1")
             Scenario.listing (Scenario.member "u1"));
    [|reflexivity|reflexivity|closed_identifier|vm_compute; lia|reflexivity
     |closed_identifier|reflexivity|closed_identifier|discriminate
     |by_computation].
  cbv zeta.
  change (to_string (or (prop Scenario.listing "userId") (Str [])))
    with (JsString.lit "u2").
  rewrite room_id_derived. reflexivity.
Qed.

End ScenarioFacts.

(** C4. Opening a chat on one's own listing is refused with status 400
    and nothing is written: the subject [z] equals the owner identifier
    the handler derives from the listing. *)
Theorem self_chat_rejected (e : env) (req : request) (s : db)
    (z pid : JsString.t) (product : doc) :
  subject_of req z →
  body req !! "productId" = Some (Str pid) →
  identifier pid →
  s !! [JsString.lit "products"; pid] = Some product →
  to_string (or (prop product "userId") (Str [])) = z →
  createChatRoom e req s =
    (Thrown (Some 400%N) "You cannot start a chat for your own product", s).
Proof.
  intros (u & Hu & Huid & Hne & Hlen) Hbody Hpid Hproduct Hseller.
  unfold createChatRoom.
  step_with (require_user_ok _ _ Hu).
  rewrite !(prop_lookup _ _ _ Hbody).
  rewrite (truthy_identifier _ Hpid). cbn [negb].
  step_with (require_uid_ok _ _ Huid Hne Hlen).
  step_with (doc_ref_identifier (JsString.lit "products") _ Hpid).
  rewrite bind_get, Hproduct.
  rewrite bool_decide_eq_true_2 by done. reflexivity.
Qed.

Lemma self_chat_rejected_witness :
  createChatRoom Scenario.morning (Scenario.open_chat "u2") Scenario.market =
    (Thrown (Some 400%N) "You cannot start a chat for your own product",
     Scenario.market).
Proof.
  apply (self_chat_rejected _ _ _ (JsString.lit "u2") (JsString.lit "p1")
           Scenario.listing).
  - closed_subject.
  - reflexivity.
  - closed_identifier.
  - reflexivity.
  - reflexivity.
Defined.






(** ** Receiver resolution *)

Section Receiver.

Implicit Types (ps : list JsString.t) (z : JsString.t).

Lemma find_other_none ps z :
  (∀ p, p ∈ ps → p = z) → find_other ps z = Undefined.
Proof.
  intros H. unfold find_other.
  destruct (list_find _ ps) as [[i p]|] eqn:E; [|done].
  apply list_find_Some in E as (Hi & Hp & _).
  apply list_elem_of_lookup_2 in Hi. by apply H in Hi.
Qed.

Lemma find_other_first ps z p :
  p ≠ z → find_other (p :: ps) z = Str p.
Proof.
  intros H. unfold find_other. cbn. by rewrite decide_True.
Qed.

Lemma find_other_second ps z p :
  p ≠ z → find_other (z :: p :: ps) z = Str p.
Proof.
  intros H. unfold find_other. cbn.
  rewrite decide_False by (intros ?; done).
  cbn. by rewrite decide_True.
Qed.

Lemma find_other_some ps z p :
  find_other ps z = Str p → p ∈ ps ∧ p ≠ z.
Proof.
  unfold find_other.
  destruct (list_find _ ps) as [[i q]|] eqn:E; [|done].
  intros [= ->]. apply list_find_Some in E as (Hi & Hp & _).
  split; [|done]. by apply list_elem_of_lookup_2 in Hi.
Qed.

(** A post that goes through, with what it returns and writes. *)
Lemma postMessage_posts (e : env) (req : request) (s : db)
    (z t other : JsString.t) (rdoc : doc) :
  subject_of req z → identifier (params_id req) →
  body req !! "text" = Some (Str t) → trim t ≠ [] →
  let room := [JsString.lit "chatRooms"; params_id req] in
  let ref := room ++ [JsString.lit "messages"; auto_id e] in
  s !! room = Some rdoc →
  isParticipant (string_array (prop rdoc "participants")) z = true →
  find_other (string_array (prop rdoc "participants")) z = Str other →
  other ≠ [] →
  s !! ref = None →
  postMessage e req s
  = (Returned {| status := 201;
                 data := One (newMessage e (params_id req) z (Str other) t
                              ∪ {["id" := Str (auto_id e)]});
                 message := None |},
     <[room := lastMessageUpdate e z t ∪ rdoc]>
       (<[ref := newMessage e (params_id req) z (Str other) t]> s)).
Proof.
  intros Hsub Hrid Htext Htrim room ref Hroom Hmem Hother Hne Hfresh.
  rewrite (postMessage_run e req s z t Hsub Hrid Htext Htrim).
  cbv zeta. fold room ref. rewrite Hroom, Hmem, Hother, Hfresh.
  by destruct other.
Qed.

End Receiver.



(** ** Message history *)

Section History.

Implicit Types (e : env) (req : request) (s : db).

Lemma strongly_sorted_before {A} (R : relation A) (a b : A) (l : list A) :
  StronglySorted R l → a ∈ l → b ∈ l → a ≠ b → ¬ R b a →
  ∃ l1 l2 l3, l = l1 ++ a :: l2 ++ b :: l3.
Proof.
  intros Hs Ha Hb Hne Hba.
  apply list_elem_of_split in Ha as (l1 & l' & ->).
  apply elem_of_app in Hb as [Hb|Hb].
  - exfalso. apply Hba.
    apply (StronglySorted_app_1_elem_of R l1 (a :: l')); [done|done|].
    apply list_elem_of_here.
  - apply elem_of_cons in Hb as [->|Hb]; [done|].
    apply list_elem_of_split in Hb as (l2 & l3 & ->). by exists l1, l2, l3.
Qed.

(** The store after two posts to the same room that both returned. *)
Lemma two_posts e1 e2 req1 req2 s0 r1 s1 r2 s2 m1 m2 :
  identifier (params_id req1) → params_id req2 = params_id req1 →
  postMessage e1 req1 s0 = (Returned r1, s1) → data r1 = One m1 →
  postMessage e2 req2 s1 = (Returned r2, s2) → data r2 = One m2 →
  let room := [JsString.lit "chatRooms"; params_id req1] in
  let messages := room ++ [JsString.lit "messages"] in
  ∃ z1 msg1 msg2,
    subject_of req1 z1
    ∧ m1 = message_view (messages ++ [auto_id e1], msg1)
    ∧ m2 = message_view (messages ++ [auto_id e2], msg2)
    ∧ prop msg1 "timestamp" = Str (now_first e1)
    ∧ prop msg2 "timestamp" = Str (now_first e2)
    ∧ auto_id e2 ≠ auto_id e1
    ∧ (∀ id, s2 !! (messages ++ [id])
             = if decide (id = auto_id e2) then Some msg2
               else if decide (id = auto_id e1) then Some msg1
               else s0 !! (messages ++ [id]))
    ∧ getMessages req1 s2
      = (Returned {| status := 200;
                     data := Many (map message_view
                                     (select_order_by messages "timestamp" s2));
                     message := None |}, s2).
Proof.
  intros Hrid Hsame Hpost1 Hm1 Hpost2 Hm2 room messages.
  assert (identifier (params_id req2)) as Hrid2 by (by rewrite Hsame).
  apply postMessage_returned in Hpost1
    as (z1 & t1 & d0 & Hsub1 & Hroom0 & Hfresh1 & Hmem1 & Hdata1 & Hs1);
    [|done].
  apply postMessage_returned in Hpost2
    as (z2 & t2 & d1 & Hsub2 & Hroom1 & Hfresh2 & Hmem2 & Hdata2 & Hs2);
    [|done].
  rewrite Hsame in *. cbn [app] in *. fold room in Hroom0, Hroom1, Hs1, Hs2.
  set (msg1 := newMessage e1 _ z1 _ t1) in *.
  set (msg2 := newMessage e2 _ z2 _ t2) in *.
  set (ref1 := [_; _; _; auto_id e1]) in *.
  set (ref2 := [_; _; _; auto_id e2]) in *.
  rewrite Hm1 in Hdata1. injection Hdata1 as ->.
  rewrite Hm2 in Hdata2. injection Hdata2 as ->.
  assert (d1 = lastMessageUpdate e1 z1 t1 ∪ d0) as Hd1.
  { rewrite Hs1, lookup_insert_eq in Hroom1. congruence. }
  assert (auto_id e2 ≠ auto_id e1) as Hids.
  { intros Heq. rewrite Hs1 in Hfresh2.
    rewrite lookup_insert_ne in Hfresh2 by done.
    unfold ref2 in Hfresh2. rewrite Heq in Hfresh2.
    fold ref1 in Hfresh2. by rewrite lookup_insert_eq in Hfresh2. }
  exists z1, msg1, msg2. repeat split; try done.
  - intros id. unfold messages, room. cbn [app].
    rewrite Hs2. rewrite lookup_insert_ne by done.
    destruct (decide (id = auto_id e2)) as [->|Hx2].
    { apply lookup_insert_eq. }
    rewrite lookup_insert_ne by (intros [=]; done).
    rewrite Hs1. rewrite lookup_insert_ne by done.
    destruct (decide (id = auto_id e1)) as [->|Hx1].
    { apply lookup_insert_eq. }
    by rewrite lookup_insert_ne by (intros [=]; done).
  - rewrite (getMessages_run req1 s2 z1 Hsub1 Hrid). fold room.
    assert (s2 !! room = Some (lastMessageUpdate e2 z2 t2 ∪ d1)) as ->.
    { by rewrite Hs2, lookup_insert_eq. }
    rewrite !update_keeps_participants, Hd1, !update_keeps_participants.
    by rewrite (isParticipant_array _ _ Hmem1), Hmem1.
Qed.

End History.

Lemma only_two {A} (a b : A) (l1 l2 l3 : list A) :
  NoDup (l1 ++ a :: l2 ++ b :: l3) →
  (∀ x, x ∈ l1 ++ a :: l2 ++ b :: l3 → x = a ∨ x = b) →
  l1 = [] ∧ l2 = [] ∧ l3 = [].
Proof.
  intros Hnd Hin.
  assert (length (l1 ++ a :: l2 ++ b :: l3) ≤ length [a; b]) as Hlen.
  { apply submseteq_length, NoDup_submseteq; [done|].
    intros x Hx. apply Hin in Hx as [->| ->]; set_solver. }
  rewrite length_app in Hlen. cbn [length] in Hlen.
  rewrite length_app in Hlen. cbn [length] in Hlen.
  destruct l1, l2, l3; simpl in Hlen; try lia. done.
Qed.

(** C7, as amended.  [getMessages] returns the messages stored under
    the room that carry a [timestamp], once each, in ascending order
    of that field, those with equal timestamps in the order of their
    names.  After a post of M1 and then a post of M2 to the
    same room, M1 comes before M2 in the list whenever the timestamp
    of M2 is strictly greater than that of M1, and the list is
    [[M1; M2]] when the room held no message before. *)
Theorem messages_in_timestamp_order :
  (∀ req s r s',
     getMessages req s = (Returned r, s') →
     ∃ room q,
       doc_ref [JsString.lit "chatRooms"] (Str (params_id req)) = ret room
       ∧ data r = Many (map message_view q)
       ∧ StronglySorted timestamp_le (map message_view q)
       ∧ StronglySorted (by_field "timestamp") q
       ∧ NoDup q
       ∧ (∀ p d, (p, d) ∈ q
                 ↔ s !! p = Some d
                   ∧ (∃ id, p = room ++ [JsString.lit "messages"; id])
                   ∧ is_Some (d !! "timestamp")))
  ∧ (∀ e1 e2 req1 req2 s0 r1 s1 r2 s2 m1 m2,
       identifier (params_id req1) → params_id req2 = params_id req1 →
       postMessage e1 req1 s0 = (Returned r1, s1) → data r1 = One m1 →
       postMessage e2 req2 s1 = (Returned r2, s2) → data r2 = One m2 →
       string_compare (now_first e1) (now_first e2) = Lt →
       ∃ l1 l2 l3,
         getMessages req1 s2
           = (Returned {| status := 200;
                          data := Many (l1 ++ m1 :: l2 ++ m2 :: l3);
                          message := None |}, s2)
         ∧ ((∀ id, s0 !! [JsString.lit "chatRooms"; params_id req1;
                          JsString.lit "messages"; id] = None) →
            l1 = [] ∧ l2 = [] ∧ l3 = [])).
Proof.
  split.
  - intros req s r s'. unfold getMessages.
    destruct (require_user_inv req) as [[m ->]|(u & Hu & ->)]; [done|].
    rewrite bind_ret; cbv beta.
    destruct (require_uid_inv u) as [[m ->]|(z & Huid & Hz & Hlen & ->)]; [done|].
    rewrite bind_ret; cbv beta zeta.
    destruct (doc_ref_inv [JsString.lit "chatRooms"] (Str (params_id req)))
      as [[m ->]|(x & room & _ & _ & Href & _)]; [done|].
    rewrite Href, bind_ret; cbv beta. rewrite bind_get.
    destruct (s !! room); [|done].
    destruct (_ && _); [done|].
    destruct (isParticipant _ _); cbn [negb]; [|done].
    intros [= <- <-].
    exists room, (select_order_by (room ++ [JsString.lit "messages"]) "timestamp" s).
    split; [done|]. split; [done|]. split; [|split; [|split]].
    + apply Sorted_StronglySorted; [apply timestamp_le_trans|].
      apply Sorted_fmap with (R1 := by_field "timestamp").
      * apply by_field_timestamp_le.
      * apply Sorted_select_order_by.
    + apply Sorted_StronglySorted; [apply by_field_trans|].
      apply Sorted_select_order_by.
    + apply NoDup_select_order_by.
    + intros p d. rewrite elem_of_select_order_by. cbn [fst snd].
      setoid_rewrite <- (assoc_L (++)). reflexivity.
  - intros e1 e2 req1 req2 s0 r1 s1 r2 s2 m1 m2 Hrid Hsame
           Hpost1 Hm1 Hpost2 Hm2 Hlater.
    destruct (two_posts e1 e2 req1 req2 s0 r1 s1 r2 s2 m1 m2
                Hrid Hsame Hpost1 Hm1 Hpost2 Hm2)
      as (z1 & msg1 & msg2 & Hsub1 & -> & -> & Hts1 & Hts2 & Hids & Hlook & Hget).
    set (messages := [JsString.lit "chatRooms"; params_id req1] ++ [JsString.lit "messages"])
      in *.
    set (q := select_order_by messages "timestamp" s2) in *.
    set (a := (messages ++ [auto_id e1], msg1)).
    set (b := (messages ++ [auto_id e2], msg2)).
    assert (∀ rd, rd ∈ q ↔ (rd = a ∨ rd = b
              ∨ (∃ id, id ≠ auto_id e1 ∧ id ≠ auto_id e2
                       ∧ rd.1 = messages ++ [id]
                       ∧ s0 !! rd.1 = Some rd.2
                       ∧ is_Some (rd.2 !! "timestamp")))) as Hq.
    { intros [p d]. unfold q. rewrite elem_of_select_order_by. cbn [fst snd].
      split.
      - intros (Hp & [id ->] & Hts). rewrite Hlook in Hp.
        destruct (decide (id = auto_id e2)) as [->|H2].
        { right. left. by injection Hp as <-. }
        destruct (decide (id = auto_id e1)) as [->|H1].
        { left. by injection Hp as <-. }
        right. right. by exists id.
      - intros [[-> ->]%pair_equal_spec|[[-> ->]%pair_equal_spec
                                         |(id & H1 & H2 & -> & Hp & Hts)]].
        + rewrite Hlook, decide_False, decide_True by done.
          split; [done|]. split; [by eexists|].
          unfold prop in Hts1. by destruct (msg1 !! "timestamp").
        + rewrite Hlook, decide_True by done.
          split; [done|]. split; [by eexists|].
          unfold prop in Hts2. by destruct (msg2 !! "timestamp").
        + rewrite Hlook, !decide_False by done.
          split; [done|]. split; [by eexists|done]. }
    assert (a ≠ b) as Hab.
    { intros [= Heq _]. by symmetry in Heq. }
    destruct (strongly_sorted_before (by_field "timestamp") a b q)
      as (q1 & q2 & q3 & Hsplit).
    { apply Sorted_StronglySorted; [apply by_field_trans|].
      apply Sorted_select_order_by. }
    { apply Hq. by left. }
    { apply Hq. right. by left. }
    { done. }
    { unfold by_field, a, b. cbn [fst snd]. rewrite Hts1, Hts2.
      rewrite (value_compare_antisym (Str (now_first e1)) (Str (now_first e2))).
      rewrite string_compare_value, Hlater. simpl. tauto. }
    exists (map message_view q1), (map message_view q2), (map message_view q3).
    split.
    + rewrite Hget, Hsplit. by rewrite !map_app, !map_cons, !map_app, !map_cons.
    + intros Hempty.
      destruct (only_two a b q1 q2 q3) as (-> & -> & ->); [| |done].
      * rewrite <- Hsplit. apply NoDup_select_order_by.
      * intros x Hx. rewrite <- Hsplit in Hx.
        apply Hq in Hx as [->|[->|(id & _ & _ & Hp & Hs0 & _)]]; [by left|by right|].
        rewrite Hp in Hs0. unfold messages in Hs0. cbn [app] in Hs0.
        by rewrite Hempty in Hs0.
Qed.


(** The morning and afternoon posts of the scenario. *)
Section ScenarioPosts.

Import Scenario.

Lemma first_post (e : env) (text : string) :
  trim (JsString.lit text) ≠ [] →
  postMessage e (say "u1" text) with_room
  = (Returned {| status := 201;
                 data := One (message_view (message_ref e, message_doc e "u1" "u2" text));
                 message := None |},
     after_post e "u1" "u2" text room_doc with_room).
Proof.
  intros Htrim.
  rewrite (postMessage_posts e (say "u1" text) with_room
             (JsString.lit "u1") (JsString.lit text) (JsString.lit "u2") room_doc);
    [|closed_subject|closed_identifier|reflexivity|done
     |apply with_room_lookup|by_computation|by_computation|discriminate|].
  - reflexivity.
  - unfold with_room, with_stored_room. cbn [app].
    rewrite lookup_insert_ne by done. by apply lookup_singleton_ne.
Qed.

Lemma second_post (e0 e : env) (text0 text : string) :
  trim (JsString.lit text) ≠ [] →
  auto_id e ≠ auto_id e0 →
  postMessage e (say "u2" text) (after_post e0 "u1" "u2" text0 room_doc with_room)
  = (Returned {| status := 201;
                 data := One (message_view (message_ref e, message_doc e "u2" "u1" text));
                 message := None |},
     after_post e "u2" "u1" text
       (lastMessageUpdate e0 (JsString.lit "u1") (JsString.lit text0) ∪ room_doc)
       (after_post e0 "u1" "u2" text0 room_doc with_room)).
Proof.
  intros Htrim Hids.
  rewrite (postMessage_posts e (say "u2" text) _
             (JsString.lit "u2") (JsString.lit text) (JsString.lit "u1")
             (lastMessageUpdate e0 (JsString.lit "u1") (JsString.lit text0)
              ∪ room_doc));
    [|closed_subject|closed_identifier|reflexivity|done
     |apply lookup_insert_eq
     |rewrite update_keeps_participants; by_computation
     |rewrite update_keeps_participants; by_computation|discriminate|].
  - reflexivity.
  - unfold after_post, with_room, with_stored_room, message_ref. cbn [app].
    rewrite lookup_insert_ne by done.
    rewrite lookup_insert_ne by (intros [=]; done).
    rewrite lookup_insert_ne by done. by apply lookup_singleton_ne.
Qed.

End ScenarioPosts.

Lemma messages_in_timestamp_order_witness :
  let s1 := Scenario.after_post Scenario.morning "u1" "u2" "first"
              Scenario.room_doc Scenario.with_room in
  let s2 := Scenario.after_post Scenario.afternoon "u2" "u1" "second"
              (lastMessageUpdate Scenario.morning (JsString.lit "u1")
                 (JsString.lit "first") ∪ Scenario.room_doc) s1 in
  getMessages (Scenario.say "u1" "first") s2
  = (Returned
       {| status := 200;
          data := Many
            [message_view (Scenario.message_ref Scenario.morning,
                           Scenario.message_doc Scenario.morning "u1" "u2" "first");
             message_view (Scenario.message_ref Scenario.afternoon,
                           Scenario.message_doc Scenario.afternoon "u2" "u1" "second")];
          message := None |}, s2).
Proof.
  intros s1 s2.
  destruct messages_in_timestamp_order as [_ Horder].
  destruct (Horder Scenario.morning Scenario.afternoon
              (Scenario.say "u1" "first") (Scenario.say "u2" "second")
              Scenario.with_room _ s1 _ s2 _ _
              ltac:(closed_identifier) eq_refl
              (first_post Scenario.morning "first" ltac:(by_computation))
              eq_refl
              (second_post Scenario.morning Scenario.afternoon "first" "second"
                 ltac:(by_computation) ltac:(discriminate))
              eq_refl ltac:(by_computation))
    as (l1 & l2 & l3 & Hget & Hfresh).
  destruct Hfresh as (-> & -> & ->); [|exact Hget].
  intros id. unfold Scenario.with_room, Scenario.with_stored_room.
  rewrite lookup_insert_ne by done. by apply lookup_singleton_ne.
Defined.

(** C7 as stated fails: two posts within the same millisecond carry
    the same timestamp, and the listing then follows the generated
    identifiers; here M2 is listed before M1. *)
Lemma messages_tie_out_of_order :
  let m1 := message_view (Scenario.message_ref Scenario.tie_first,
                          Scenario.message_doc Scenario.tie_first "u1" "u2" "first") in
  let m2 := message_view (Scenario.message_ref Scenario.tie_second,
                          Scenario.message_doc Scenario.tie_second "u2" "u1" "second") in
  let s1 := Scenario.after_post Scenario.tie_first "u1" "u2" "first"
              Scenario.room_doc Scenario.with_room in
  let s2 := Scenario.after_post Scenario.tie_second "u2" "u1" "second"
              (lastMessageUpdate Scenario.tie_first (JsString.lit "u1")
                 (JsString.lit "first") ∪ Scenario.room_doc) s1 in
  postMessage Scenario.tie_first (Scenario.say "u1" "first") Scenario.with_room
  = (Returned {| status := 201; data := One m1; message := None |}, s1)
  ∧ postMessage Scenario.tie_second (Scenario.say "u2" "second") s1
    = (Returned {| status := 201; data := One m2; message := None |}, s2)
  ∧ getMessages (Scenario.say "u1" "first") s2
    = (Returned {| status := 200; data := Many [m2; m1]; message := None |}, s2)
  ∧ m1 ≠ m2.
Proof.
  cbv zeta. split; [|split; [|split]].
  - apply (first_post Scenario.tie_first "first"). by_computation.
  - apply (second_post Scenario.tie_first Scenario.tie_second "first" "second").
    + by_computation.
    + discriminate.
  - rewrite (getMessages_run _ _ (JsString.lit "u1"));
      [|closed_subject|closed_identifier].
    unfold Scenario.after_post at 1. rewrite lookup_insert_eq.
    rewrite !update_keeps_participants.
    change (prop Scenario.room_doc "participants")
      with (Arr [Scenario.str "u1"; Scenario.str "u2"]).
    assert (isParticipant
              (string_array (Arr [Scenario.str "u1"; Scenario.str "u2"]))
              (JsString.lit "u1") = true) as -> by by_computation.
    cbn [truthy is_array negb andb].
    reflexivity.
  - intros H. apply (f_equal (λ m : doc, prop m "text")) in H.
    vm_compute in H. discriminate.
Qed.

(** ** What the handlers write *)

Section Writes.

Implicit Types (e : env) (req : request) (s : db).

Lemma getChatRooms_reads e req s : (getChatRooms e req s).2 = s.
Proof.
  unfold getChatRooms.
  destruct (require_user_inv req) as [[m ->]|(u & Hu & ->)]; [done|].
  rewrite bind_ret; cbv beta.
  by destruct (require_uid_inv u) as [[m ->]|(z & Huid & Hz & Hlen & ->)].
Qed.

Lemma getChatRoomById_reads req s : (getChatRoomById req s).2 = s.
Proof.
  unfold getChatRoomById.
  destruct (require_user_inv req) as [[m ->]|(u & Hu & ->)]; [done|].
  rewrite bind_ret; cbv beta.
  destruct (require_uid_inv u) as [[m ->]|(z & Huid & Hz & Hlen & ->)]; [done|].
  rewrite bind_ret; cbv beta zeta.
  destruct (doc_ref_inv [JsString.lit "chatRooms"] (Str (params_id req)))
    as [[m ->]|(x & ref & _ & _ & -> & _)]; [done|].
  rewrite bind_ret; cbv beta. rewrite bind_get.
  destruct (s !! ref); [|done].
  by destruct (isParticipant _ _).
Qed.

Lemma getMessages_reads req s : (getMessages req s).2 = s.
Proof.
  unfold getMessages.
  destruct (require_user_inv req) as [[m ->]|(u & Hu & ->)]; [done|].
  rewrite bind_ret; cbv beta.
  destruct (require_uid_inv u) as [[m ->]|(z & Huid & Hz & Hlen & ->)]; [done|].
  rewrite bind_ret; cbv beta zeta.
  destruct (doc_ref_inv [JsString.lit "chatRooms"] (Str (params_id req)))
    as [[m ->]|(x & ref & _ & _ & -> & _)]; [done|].
  rewrite bind_ret; cbv beta. rewrite bind_get.
  destruct (s !! ref); [|done].
  destruct (_ && _); [done|].
  by destruct (isParticipant _ _).
Qed.

Lemma deleteChatRoom_effect req s :
  (deleteChatRoom req s).2 = s ∨ ∃ r, (deleteChatRoom req s).2 = base.delete r s.
Proof.
  unfold deleteChatRoom.
  destruct (doc_ref_inv [JsString.lit "chatRooms"] (Str (params_id req)))
    as [[m ->]|(x & ref & _ & _ & -> & _)]; [by left|].
  right. by exists ref.
Qed.

(** A post writes nothing, or one new message document below the room
    and the three summary fields of the room. *)
Lemma postMessage_effect e req s :
  (postMessage e req s).2 = s
  ∨ ∃ room rdoc z t message,
      room ≠ []
      ∧ s !! room = Some rdoc
      ∧ s !! (room ++ [JsString.lit "messages"; auto_id e]) = None
      ∧ (postMessage e req s).2
        = <[room := lastMessageUpdate e z t ∪ rdoc]>
            (<[room ++ [JsString.lit "messages"; auto_id e] := message]> s).
Proof.
  unfold postMessage.
  destruct (require_user_inv req) as [[m ->]|(u & Hu & ->)]; [by left|].
  rewrite bind_ret; cbv beta.
  destruct (require_uid_inv u) as [[m ->]|(z & Huid & Hz & Hlen & ->)]; [by left|].
  rewrite bind_ret; cbv beta zeta.
  destruct (truthy _); cbn [negb]; [|by left].
  destruct (prop (body req) "text") as [| | | |t| |]; try by left.
  case_bool_decide; [by left|].
  destruct (doc_ref_inv [JsString.lit "chatRooms"] (Str (params_id req)))
    as [[m ->]|(x & room & _ & _ & -> & Hsegs)]; [by left|].
  rewrite bind_ret; cbv beta. rewrite bind_get.
  destruct (s !! room) as [rdoc|] eqn:Hroom; [|by left].
  destruct (isParticipant _ _); cbn [negb]; [|by left].
  destruct (truthy _); cbn [negb]; [|by left].
  unfold bind, add, update, reply, ret.
  rewrite <- (assoc_L (++)). cbn [app].
  destruct (s !! (room ++ _)) eqn:Hfresh; [by left|].
  rewrite lookup_insert_ne by apply ref_child_ne. rewrite Hroom.
  right. eexists room, rdoc, z, t, _. split; [by rewrite Hsegs|done].
Qed.

Lemma lastMessageUpdate_other e z t (d : doc) (k : string) :
  k ≠ "lastMessage" → k ≠ "lastMessageSenderId" → k ≠ "updatedAt" →
  (lastMessageUpdate e z t ∪ d) !! k = d !! k.
Proof.
  intros H1 H2 H3. apply lookup_union_r.
  unfold lastMessageUpdate. cbn [list_to_map foldr uncurry fst snd].
  by rewrite !lookup_insert_ne, lookup_empty.
Qed.

End Writes.

(** C8. The participants of a room.  Whatever the request, a document
    that [createChatRoom] writes is a new room whose [participants] are
    two distinct non-empty strings: the buyer is a [uid] that passed
    the guards, the seller differs from the buyer, and for a listing
    without an owner, where the seller is the empty string,
    [collection('users').doc('')] throws before the room is written.
    [postMessage] leaves every stored document in place with all its
    fields but the three summary fields, [participants] included; and
    each handler keeps the rooms of the store well formed. *)
Theorem participants_invariant (e : env) (req : request) (s : db) :
  (∀ r d, (createChatRoom e req s).2 !! r = Some d →
          s !! r = Some d
          ∨ ((∃ id, r = [JsString.lit "chatRooms"; id])
             ∧ s !! r = None ∧ well_formed_participants d))
  ∧ (∀ r d, s !! r = Some d →
            ∃ d', (postMessage e req s).2 !! r = Some d'
                  ∧ d' !! "participants" = d !! "participants"
                  ∧ ∀ k, k ≠ "lastMessage" → k ≠ "lastMessageSenderId" →
                         k ≠ "updatedAt" → d' !! k = d !! k)
  ∧ (rooms_well_formed s →
       rooms_well_formed (createChatRoom e req s).2
       ∧ rooms_well_formed (postMessage e req s).2
       ∧ rooms_well_formed (getChatRooms e req s).2
       ∧ rooms_well_formed (getChatRoomById req s).2
       ∧ rooms_well_formed (getMessages req s).2
       ∧ rooms_well_formed (deleteChatRoom req s).2).
Proof.
  assert (∀ r d, (createChatRoom e req s).2 !! r = Some d →
            s !! r = Some d
            ∨ ((∃ id, r = [JsString.lit "chatRooms"; id])
               ∧ s !! r = None ∧ well_formed_participants d)) as Hcreate.
  { intros r d.
    destruct (createChatRoom_effect e req s)
      as [->|(id & room & -> & Hnew & Hwf)]; [by left|].
    destruct (decide (r = [JsString.lit "chatRooms"; id])) as [->|Hr].
    - rewrite lookup_insert_eq. intros [= <-]. right. eauto.
    - rewrite lookup_insert_ne by done. by left. }
  assert (∀ r d, s !! r = Some d →
            ∃ d', (postMessage e req s).2 !! r = Some d'
                  ∧ d' !! "participants" = d !! "participants"
                  ∧ ∀ k, k ≠ "lastMessage" → k ≠ "lastMessageSenderId" →
                         k ≠ "updatedAt" → d' !! k = d !! k) as Hpost.
  { intros r d Hr.
    destruct (postMessage_effect e req s)
      as [->|(room & rdoc & z & t & message & Hne & Hroom & Hfresh & ->)].
    { exists d. by repeat split. }
    destruct (decide (r = room)) as [->|Hrroom].
    - rewrite lookup_insert_eq. eexists. split; [done|].
      assert (d = rdoc) as -> by congruence.
      split; [by apply lastMessageUpdate_other|].
      intros k. apply lastMessageUpdate_other.
    - rewrite lookup_insert_ne by done.
      rewrite lookup_insert_ne by congruence.
      exists d. by repeat split. }
  split; [exact Hcreate|]. split; [exact Hpost|].
  intros Hwf. split; [|split; [|split; [|split; [|split]]]].
  - intros id d Hd. apply Hcreate in Hd as [Hd|(_ & _ & Hd)]; [|done].
    by apply (Hwf id).
  - intros id d.
    destruct (postMessage_effect e req s)
      as [->|(room & rdoc & z & t & message & Hne & Hroom & Hfresh & ->)].
    { apply Hwf. }
    destruct (decide ([JsString.lit "chatRooms"; id] = room)) as [<-|Hrroom].
    + rewrite lookup_insert_eq. intros [= <-].
      destruct (Hwf id rdoc Hroom) as (a & b & Hab & Hrest).
      exists a, b. split; [|done].
      by rewrite lastMessageUpdate_other.
    + rewrite lookup_insert_ne by done.
      rewrite lookup_insert_ne; [apply Hwf|].
      intros Heq. apply (f_equal length) in Heq.
      rewrite length_app in Heq. cbn [length] in Heq.
      destruct room; [done|]. cbn [length] in Heq. lia.
  - rewrite getChatRooms_reads. exact Hwf.
  - rewrite getChatRoomById_reads. exact Hwf.
  - rewrite getMessages_reads. exact Hwf.
  - destruct (deleteChatRoom_effect req s) as [->|[r ->]]; [exact Hwf|].
    intros id d Hd. apply lookup_delete_Some in Hd as [_ Hd]. by apply (Hwf id).
Qed.

Lemma participants_invariant_witness :
  rooms_well_formed Scenario.with_room
  ∧ rooms_well_formed
      (postMessage Scenario.morning (Scenario.say "u1" "hello") Scenario.with_room).2
  ∧ rooms_well_formed
      (createChatRoom Scenario.morning (Scenario.open_chat "u3") Scenario.with_room).2.
Proof.
  assert (rooms_well_formed Scenario.with_room) as Hwf.
  { intros id d. unfold Scenario.with_room, Scenario.with_stored_room.
    destruct (decide (Scenario.room_ref = [JsString.lit "chatRooms"; id]))
      as [<-|Hne].
    - rewrite lookup_insert_eq. intros [= <-].
      exists (JsString.lit "u1"), (JsString.lit "u2").
      split; [reflexivity|]. repeat split; discriminate.
    - rewrite lookup_insert_ne by done.
      unfold Scenario.market. rewrite lookup_singleton_ne; [done|].
      intros [=]. }
  split; [exact Hwf|].
  split.
  - destruct (participants_invariant Scenario.morning (Scenario.say "u1" "hello")
                Scenario.with_room) as (_ & _ & H).
    destruct (H Hwf) as (_ & Hpost & _). exact Hpost.
  - destruct (participants_invariant Scenario.morning (Scenario.open_chat "u3")
                Scenario.with_room) as (_ & _ & H).
    destruct (H Hwf) as (Hcreate & _). exact Hcreate.
Defined.

(** ** The list of rooms *)

Section Rooms.

Implicit Types (e : env) (req : request) (s : db) (z : JsString.t).

Lemma sort_insert_Permutation {A} (after : A → A → bool) (x : A) (l : list A) :
  JsString.sort_insert after x l ≡ₚ x :: l.
Proof.
  induction l as [|y l IH]; [done|].
  simpl. destruct (after x y); [|done].
  rewrite IH. apply Permutation_swap.
Qed.

Lemma sort_by_Permutation {A} (after : A → A → bool) (l : list A) :
  JsString.sort_by after l ≡ₚ l.
Proof.
  induction l as [|x l IH]; [done|].
  simpl. rewrite sort_insert_Permutation. by rewrite IH.
Qed.

Lemma getChatRooms_run e req s z :
  subject_of req z →
  getChatRooms e req s
  = (Returned
       {| status := 200;
          data := Many (JsString.sort_by (older e)
                          (map (list_view z)
                             (select_array_contains [JsString.lit "chatRooms"]
                                "participants" z s)));
          message := None |}, s).
Proof.
  intros (u & Hu & Huid & Hne & Hlen). unfold getChatRooms.
  step_with (require_user_ok _ _ Hu).
  step_with (require_uid_ok _ _ Huid Hne Hlen).
  reflexivity.
Qed.

Lemma room_view_other (id : JsString.t) (d : doc) z :
  room_view id d z !! "otherParticipantId"
  = Some (or (find_other (string_array (prop d "participants")) z) Null).
Proof. unfold room_view. by rewrite lookup_insert_eq. Qed.

Lemma room_view_no_other (id : JsString.t) (d : doc) z :
  no_other d z → room_view id d z !! "otherParticipantId" = Some Null.
Proof.
  intros H. rewrite room_view_other. by rewrite (find_other_none _ _ H).
Qed.

Lemma list_view_other (rd : path * doc) z :
  list_view z rd !! "otherParticipantId"
  = room_view (doc_id rd.1) rd.2 z !! "otherParticipantId".
Proof. unfold list_view. by rewrite lookup_insert_ne. Qed.

(** What [otherParticipantName] is, case by case. *)
Lemma list_view_name (rd : path * doc) z :
  list_view z rd !! "otherParticipantName"
  = Some
      match find_other_index (string_array (prop rd.2 "participants")) z,
            prop rd.2 "participantNames" with
      | Some i, Arr names => default Undefined (names !! i)
      | _, _ => Str (JsString.lit "Unknown")
      end.
Proof.
  unfold list_view. rewrite lookup_insert_eq. f_equal.
  destruct (find_other_index _ z) as [i|];
    destruct (prop rd.2 "participantNames");
    cbn [is_array]; by rewrite ?andb_false_r.
Qed.

End Rooms.

(** C9, at its failing input.  The room has participants [u1] and [u2]
    and a single name; for [u1] the other participant is [u2], at index
    1, where [participantNames] has no entry: the view carries
    [undefined] as [otherParticipantName], not "Unknown". *)
Theorem otherParticipantName_short_names :
  let stored := Scenario.room_of (Arr [Scenario.str "u1"; Scenario.str "u2"])
                  (Arr [Scenario.str "Alice"]) in
  let s := Scenario.with_stored_room stored in
  let view := list_view (JsString.lit "u1") (Scenario.room_ref, stored) in
  getChatRooms Scenario.morning (Scenario.open_chat "u1") s
  = (Returned {| status := 200; data := Many [view]; message := None |}, s)
  ∧ view !! "otherParticipantId" = Some (Scenario.str "u2")
  ∧ view !! "otherParticipantName" = Some Undefined
  ∧ view !! "otherParticipantName" ≠ Some (Scenario.str "Unknown").
Proof.
  cbv zeta. split; [|split; [|split]].
  - rewrite (getChatRooms_run _ _ _ (JsString.lit "u1")) by closed_subject.
    reflexivity.
  - by_computation.
  - by_computation.
  - rewrite list_view_name. discriminate.
Qed.

(** C10 as stated fails for [getChatRoomById]: a room whose
    [participants] array is empty has no entry different from the
    caller, and the call is refused with 403. *)
Lemma getChatRoomById_no_participants_forbidden :
  let stored := Scenario.room_of (Arr []) Null in
  let s := Scenario.with_stored_room stored in
  no_other stored (JsString.lit "u1")
  ∧ s !! [JsString.lit "chatRooms"; params_id (Scenario.say "u1" "hi")] = Some stored
  ∧ getChatRoomById (Scenario.say "u1" "hi") s
    = (Thrown (Some 403%N) "Not authorized to access this chat room", s).
Proof.
  cbv zeta. split; [|split].
  - intros p Hp. by apply elem_of_nil in Hp.
  - apply lookup_insert_eq.
  - rewrite (getChatRoomById_run _ _ (JsString.lit "u1"));
      [|closed_subject|closed_identifier].
    unfold Scenario.with_stored_room, Scenario.room_ref.
    change (params_id (Scenario.say "u1" "hi")) with (JsString.lit Scenario.room_id).
    by rewrite lookup_insert_eq.
Qed.

(** C10, as amended.  Let no participant of a stored room differ, after
    normalisation, from the caller [z].  [getChatRooms] and the
    existing-room branch of [createChatRoom] return that room with
    [otherParticipantId = null].  When [z] is among the participants,
    [getChatRoomById] returns it with [otherParticipantId = null],
    [getMessages] returns its messages, and [postMessage] is the one
    to fail, with 'Cannot determine receiver'.  When [z] is not among
    them (an empty array, or no array), [getChatRoomById] and
    [postMessage] fail with 403. *)
Theorem no_other_participant (e : env) (req : request) (s : db) (z : JsString.t) :
  subject_of req z →
  (∃ views,
     getChatRooms e req s
     = (Returned {| status := 200; data := Many views; message := None |}, s)
     ∧ ∀ v, v ∈ views →
            ∃ r d, s !! r = Some d ∧ v = list_view z (r, d)
                   ∧ (no_other d z → v !! "otherParticipantId" = Some Null))
  ∧ (∀ pid product existing,
       body req !! "productId" = Some (Str pid) → identifier pid →
       s !! [JsString.lit "products"; pid] = Some product →
       let sellerId := to_string (or (prop product "userId") (Str [])) in
       sellerId ≠ z →
       s !! [JsString.lit "chatRooms"; generateChatRoomId z sellerId pid]
       = Some existing →
       no_other existing z →
       ∃ v, createChatRoom e req s
            = (Returned {| status := 200; data := One v;
                           message := Some "Chat room already exists" |}, s)
            ∧ v !! "otherParticipantId" = Some Null)
  ∧ (∀ rdoc,
       identifier (params_id req) →
       s !! [JsString.lit "chatRooms"; params_id req] = Some rdoc →
       no_other rdoc z →
       (z ∈ string_array (prop rdoc "participants") →
          (∃ v, getChatRoomById req s
                = (Returned {| status := 200; data := One v; message := None |}, s)
                ∧ v !! "otherParticipantId" = Some Null)
          ∧ (∃ messages,
               getMessages req s
               = (Returned {| status := 200; data := Many messages;
                              message := None |}, s))
          ∧ (∀ t, body req !! "text" = Some (Str t) → trim t ≠ [] →
               postMessage e req s
               = (Thrown (Some 400%N) "Cannot determine receiver", s)))
       ∧ (z ∉ string_array (prop rdoc "participants") →
          getChatRoomById req s
          = (Thrown (Some 403%N) "Not authorized to access this chat room", s)
          ∧ (∀ t, body req !! "text" = Some (Str t) → trim t ≠ [] →
               postMessage e req s
               = (Thrown (Some 403%N) "Not authorized to post in this chat room", s)))).
Proof.
  intros Hsub. split; [|split].
  - eexists. split; [apply (getChatRooms_run e req s z Hsub)|].
    intros v Hv. rewrite sort_by_Permutation in Hv.
    apply list_elem_of_fmap in Hv as ([r d] & -> & Hrd).
    apply elem_of_select_array_contains in Hrd as (Hlook & _ & _).
    exists r, d. split; [done|]. split; [done|].
    intros Hnone. rewrite list_view_other. by apply room_view_no_other.
  - intros pid product existing Hbody Hpid Hproduct sellerId Hseller Hroom Hnone.
    eexists. split.
    + apply (createChatRoom_existing e req s z pid product existing
               Hsub Hbody Hpid Hproduct Hseller Hroom).
    + by apply room_view_no_other.
  - intros rdoc Hrid Hroom Hnone. split.
    + intros Hmem. pose proof (proj2 (isParticipant_spec _ _) Hmem) as Hyes.
      split; [|split].
      * eexists. split.
        -- rewrite (getChatRoomById_run req s z Hsub Hrid), Hroom, Hyes.
           reflexivity.
        -- by apply room_view_no_other.
      * eexists.
        rewrite (getMessages_run req s z Hsub Hrid), Hroom, Hyes.
        by rewrite (isParticipant_array _ _ Hyes).
      * intros t Htext Htrim.
        rewrite (postMessage_run e req s z t Hsub Hrid Htext Htrim).
        cbv zeta. rewrite Hroom, Hyes. by rewrite (find_other_none _ _ Hnone).
    + intros Hmem.
      assert (isParticipant (string_array (prop rdoc "participants")) z = false)
        as Hno.
      { destruct (isParticipant _ z) eqn:E; [|done].
        by apply isParticipant_spec in E. }
      split.
      * by rewrite (getChatRoomById_run req s z Hsub Hrid), Hroom, Hno.
      * intros t Htext Htrim.
        rewrite (postMessage_run e req s z t Hsub Hrid Htext Htrim).
        cbv zeta. by rewrite Hroom, Hno.
Qed.

Lemma no_other_participant_witness :
  let alone := Scenario.room_of (Arr [Scenario.str "u1"; Scenario.str "u1"]) Null in
  let s := Scenario.with_stored_room alone in
  (∃ v, getChatRoomById (Scenario.say "u1" "hi") s
        = (Returned {| status := 200; data := One v; message := None |}, s)
        ∧ v !! "otherParticipantId" = Some Null)
  ∧ postMessage Scenario.morning (Scenario.say "u1" "hi") s
    = (Thrown (Some 400%N) "Cannot determine receiver", s).
Proof.
  cbv zeta.
  destruct (no_other_participant Scenario.morning (Scenario.say "u1" "hi")
              (Scenario.with_stored_room
                 (Scenario.room_of (Arr [Scenario.str "u1"; Scenario.str "u1"]) Null))
              (JsString.lit "u1")) as (_ & _ & H); [closed_subject|].
  destruct (H (Scenario.room_of (Arr [Scenario.str "u1"; Scenario.str "u1"]) Null))
    as [Hin _].
  - closed_identifier.
  - apply lookup_insert_eq.
  - intros p Hp. apply (bool_decide_unpack _).
    revert p Hp. apply Forall_forall. apply (bool_decide_unpack _).
    by_computation.
  - destruct Hin as (Hget & _ & Hpost).
    + apply (bool_decide_unpack _). by_computation.
    + split; [exact Hget|].
      apply (Hpost (JsString.lit "hi")); [reflexivity|by_computation].
Defined.

(** * Further properties of the handlers

    Errors and edge cases of the six handlers, and how they compose. *)

Section Trim.

Implicit Types (s t : JsString.t).

Lemma trim_start_spec s :
  ∃ p, s = p ++ trim_start s ∧ Forall (λ c, is_space c = true) p
       ∧ match trim_start s with c :: _ => is_space c = false | [] => True end.
Proof.
  induction s as [|c s (p & Hs & Hp & Hh)]; [by exists []|].
  cbn [trim_start]. destruct (is_space c) eqn:E.
  - exists (c :: p). split; [by rewrite Hs at 1|]. split; [by constructor|done].
  - by exists [].
Qed.

Lemma trim_start_all_space s :
  Forall (λ c, is_space c = true) s → trim_start s = [].
Proof.
  induction 1 as [|c s Hc _ IH]; [done|]. cbn [trim_start]. by rewrite Hc.
Qed.

Lemma trim_shape t :
  (trim t = [] ∧ Forall (λ c, is_space c = true) t)
  ∨ ∃ c u d w, trim t = c :: u ∧ rev (trim t) = d :: w
               ∧ is_space c = false ∧ is_space d = false.
Proof.
  unfold trim.
  destruct (trim_start_spec t) as (p & Ht & Hp & Hv).
  destruct (trim_start_spec (rev (trim_start t))) as (q & Hrv & Hq & Hw).
  destruct (trim_start (rev (trim_start t))) as [|d w] eqn:Ew.
  - left. split; [done|]. rewrite app_nil_r in Hrv.
    rewrite Ht. apply Forall_app. split; [done|].
    rewrite <- (rev_involutive (trim_start t)), Hrv.
    apply Forall_forall. intros c Hc. apply list_elem_of_In, in_rev, list_elem_of_In in Hc.
    rewrite Forall_forall in Hq. by apply Hq.
  - right. apply (f_equal (@rev N)) in Hrv.
    rewrite rev_involutive, rev_app_distr in Hrv.
    destruct (rev (d :: w)) as [|c u] eqn:Eu.
    { apply (f_equal length) in Eu. rewrite length_rev in Eu. done. }
    exists c, u, d, w. split; [done|]. split.
    { by rewrite <- Eu, rev_involutive. }
    split; [|done]. rewrite Hrv in Hv. done.
Qed.

Lemma trim_blank t : Forall (λ c, is_space c = true) t → trim t = [].
Proof. intros H. unfold trim. by rewrite (trim_start_all_space _ H). Qed.

Lemma trim_idemp t : trim (trim t) = trim t.
Proof.
  destruct (trim_shape t) as [[-> _]|(c & u & d & w & Hu & Hr & Hc & Hd)]; [done|].
  unfold trim at 1. rewrite Hu. cbn [trim_start]. rewrite Hc.
  rewrite <- Hu, Hr. cbn [trim_start]. rewrite Hd.
  by rewrite <- Hr, rev_involutive.
Qed.

End Trim.

Section Guard.

Implicit Types (e : env) (req : request) (s : db).

Lemma require_uid_refused (u : user) :
  (uid u = None ∨ uid u = Some [] ∨ ∃ z, uid u = Some z ∧ 100 < length z) →
  ∃ m, require_uid u = throw (Some 401%N) m.
Proof.
  unfold require_uid. intros [->|[->|(z & -> & Hlen)]]; [by eexists|by eexists|].
  destruct z as [|c z]; [by eexists|].
  rewrite (proj2 (Nat.ltb_lt _ _) Hlen). by eexists.
Qed.

End Guard.

(** X1. The authentication guard.  A request without a user is refused
    with 401 by [getChatRooms], [createChatRoom], [getChatRoomById],
    [postMessage] and [getMessages], and nothing is written.  So is a
    request whose user has no [uid], an empty one or one of more than
    100 code units, except that [createChatRoom] looks at the product
    identifier first and answers 400 when it is missing. *)
Theorem authentication_guard (e : env) (req : request) (s : db) :
  (req_user req = None →
   getChatRooms e req s = (Thrown (Some 401%N) "User not authenticated", s)
   ∧ createChatRoom e req s = (Thrown (Some 401%N) "User not authenticated", s)
   ∧ getChatRoomById req s = (Thrown (Some 401%N) "User not authenticated", s)
   ∧ postMessage e req s = (Thrown (Some 401%N) "User not authenticated", s)
   ∧ getMessages req s = (Thrown (Some 401%N) "User not authenticated", s))
  ∧ (∀ u, req_user req = Some u →
       uid u = None ∨ uid u = Some [] ∨ (∃ z, uid u = Some z ∧ 100 < length z) →
       ∃ m, getChatRooms e req s = (Thrown (Some 401%N) m, s)
            ∧ getChatRoomById req s = (Thrown (Some 401%N) m, s)
            ∧ postMessage e req s = (Thrown (Some 401%N) m, s)
            ∧ getMessages req s = (Thrown (Some 401%N) m, s)
            ∧ createChatRoom e req s
              = if truthy (prop (body req) "productId")
                then (Thrown (Some 401%N) m, s)
                else (Thrown (Some 400%N) "Product ID is required", s)).
Proof.
  split.
  - intros Hu.
    unfold getChatRooms, createChatRoom, getChatRoomById, postMessage, getMessages,
      require_user.
    rewrite Hu. by repeat split.
  - intros u Hu Huid.
    destruct (require_uid_refused u Huid) as [m Hm]. exists m.
    unfold getChatRooms, createChatRoom, getChatRoomById, postMessage, getMessages.
    rewrite (require_user_ok _ _ Hu), !bind_ret. cbv beta zeta.
    rewrite Hm, !bind_throw.
    repeat split. by destruct (truthy _).
Qed.

(** X2. The text of a message is validated before the room is read.
    For a request of a subject, a text that is missing, falsy or made
    of white space only is refused with 400 'Message text is required'
    and nothing is written, whatever the room; a text with a character
    that is not white space is never refused with that error; a truthy
    text that is not a string makes [text.trim] throw, with no status
    set and nothing written. *)
Theorem postMessage_requires_text (e : env) (req : request) (s : db) (z : JsString.t) :
  subject_of req z →
  (truthy (prop (body req) "text") = false
   ∨ (∃ t, prop (body req) "text" = Str t ∧ Forall (λ c, is_space c = true) t) →
   postMessage e req s = (Thrown (Some 400%N) "Message text is required", s))
  ∧ (∀ t c, prop (body req) "text" = Str t → c ∈ t → is_space c = false →
       postMessage e req s ≠ (Thrown (Some 400%N) "Message text is required", s))
  ∧ (truthy (prop (body req) "text") = true →
     (∀ t, prop (body req) "text" ≠ Str t) →
     ∃ m, postMessage e req s = (Thrown None m, s)).
Proof.
  intros (u & Hu & Huid & Hne & Hlen).
  unfold postMessage.
  step_with (require_user_ok _ _ Hu).
  step_with (require_uid_ok _ _ Huid Hne Hlen).
  split; [|split].
  - intros [Hfalsy|(t & Htext & Hblank)].
    + by rewrite Hfalsy.
    + rewrite Htext. destruct (truthy (Str t)); [|done]. cbn [negb].
      by rewrite (trim_blank _ Hblank).
  - intros t c Htext Hc Hspace. rewrite Htext.
    assert (trim t ≠ []) as Htrim.
    { destruct (trim_shape t) as [[_ Hall]|(? & ? & ? & ? & -> & _)]; [|done].
      rewrite Forall_forall in Hall. apply Hall in Hc. congruence. }
    assert (truthy (Str t) = true) as ->.
    { destruct t; [|done]. by apply elem_of_nil in Hc. }
    cbn [negb]. rewrite bool_decide_eq_false_2 by done.
    destruct (doc_ref_inv [JsString.lit "chatRooms"] (Str (params_id req)))
      as [[m ->]|(x & room & _ & _ & -> & _)]; [done|].
    rewrite bind_ret; cbv beta. rewrite bind_get.
    destruct (s !! room) as [rdoc|]; [|done].
    destruct (isParticipant _ _); cbn [negb]; [|done].
    destruct (truthy _); cbn [negb]; [|done].
    unfold bind, add, update, reply, ret.
    destruct (s !! _); [done|].
    destruct (_ !! room); done.
  - intros Htruthy Hstr. rewrite Htruthy. cbn [negb].
    destruct (prop (body req) "text") as [| | | |t| |]; try (by eexists).
    by destruct (Hstr t).
Qed.

Section Views.

Lemma room_view_field (id : JsString.t) (d : doc) (z : JsString.t) (k : string) :
  k ≠ "otherParticipantId" → k ≠ "participants" → k ≠ "id" →
  room_view id d z !! k = d !! k.
Proof.
  intros H1 H2 H3. unfold room_view. rewrite !lookup_insert_ne by done.
  destruct (d !! k) as [x|] eqn:E.
  - by apply lookup_union_Some_l.
  - rewrite lookup_union_r by done. by apply lookup_singleton_ne.
Qed.

Lemma room_view_id (id : JsString.t) (d : doc) (z : JsString.t) :
  room_view id d z !! "id" = Some (default (Str id) (d !! "id")).
Proof.
  unfold room_view. rewrite !lookup_insert_ne by done.
  destruct (d !! "id") as [x|] eqn:E.
  - by apply lookup_union_Some_l.
  - rewrite lookup_union_r by done. by rewrite lookup_singleton_eq.
Qed.

Lemma room_view_participants (id : JsString.t) (d : doc) (z : JsString.t) :
  room_view id d z !! "participants"
  = Some (Arr (Str <$> string_array (prop d "participants"))).
Proof.
  unfold room_view. rewrite lookup_insert_ne by done. by rewrite lookup_insert_eq.
Qed.

Lemma last_rev_cons {A} (l w : list A) (d : A) : rev l = d :: w → last l = Some d.
Proof.
  intros H. apply (f_equal (@rev A)) in H. rewrite rev_involutive in H.
  rewrite H. cbn [rev]. apply last_snoc.
Qed.

End Views.

Section PostInversion.

Lemma postMessage_inv (e : env) (req : request) (s s' : db) (r : response) :
  postMessage e req s = (Returned r, s') →
  ∃ z t, subject_of req z ∧ body req !! "text" = Some (Str t) ∧ trim t ≠ [].
Proof.
  unfold postMessage.
  destruct (require_user_inv req) as [[m ->]|(u & Hu & ->)]; [done|].
  rewrite bind_ret; cbv beta.
  destruct (require_uid_inv u) as [[m ->]|(z & Huid & Hz & Hlen & ->)]; [done|].
  rewrite bind_ret; cbv beta zeta.
  destruct (truthy _); cbn [negb]; [|done].
  destruct (prop (body req) "text") as [| | | |t| |] eqn:Htext; try done.
  case_bool_decide as Htrim; [done|].
  intros _. exists z, t. split; [by exists u|]. split; [|done].
  by apply prop_is_str.
Qed.

Lemma lastMessageUpdate_summary (e : env) (z t : JsString.t) (d : doc) :
  (lastMessageUpdate e z t ∪ d) !! "lastMessage" = Some (Str (trim t))
  ∧ (lastMessageUpdate e z t ∪ d) !! "lastMessageSenderId" = Some (Str z)
  ∧ (lastMessageUpdate e z t ∪ d) !! "updatedAt" = Some (Str (now_second e)).
Proof. repeat split; by apply lookup_union_Some_l. Qed.

End PostInversion.

(** X3. A message is stored trimmed.  When [postMessage] returns, the
    text of the message it returns, of the message document it wrote
    and of the room's [lastMessage] are one string, which is not empty,
    neither starts nor ends with white space, and is left as it is by
    [trim]. *)
Theorem posted_text_is_trimmed (e : env) (req : request) (s s' : db) (r : response) :
  identifier (params_id req) →
  postMessage e req s = (Returned r, s') →
  ∃ m t stored room,
    data r = One m ∧ m !! "text" = Some (Str t)
    ∧ s' !! [JsString.lit "chatRooms"; params_id req;
             JsString.lit "messages"; auto_id e] = Some stored
    ∧ stored !! "text" = Some (Str t)
    ∧ s' !! [JsString.lit "chatRooms"; params_id req] = Some room
    ∧ room !! "lastMessage" = Some (Str t)
    ∧ trim t = t
    ∧ (∃ c d, head t = Some c ∧ last t = Some d
              ∧ is_space c = false ∧ is_space d = false).
Proof.
  intros Hrid Hrun.
  destruct (postMessage_inv _ _ _ _ _ Hrun) as (z & t & Hsub & Htext & Htrim).
  rewrite (postMessage_run e req s z t Hsub Hrid Htext Htrim) in Hrun.
  cbv zeta in Hrun. cbn [app] in Hrun.
  destruct (s !! [_; _]) as [rdoc|]; [|done].
  destruct (isParticipant _ z); [|done].
  destruct (truthy _); [|done].
  destruct (s !! [_; _; _; _]); [done|].
  injection Hrun as <- <-.
  eexists _, (trim t), _, _. split; [reflexivity|].
  split; [reflexivity|].
  split. { rewrite lookup_insert_ne by done. apply lookup_insert_eq. }
  split; [reflexivity|].
  split; [apply lookup_insert_eq|].
  split; [apply lastMessageUpdate_summary|].
  split; [apply trim_idemp|].
  destruct (trim_shape t) as [[Hnil _]|(c & u & d & w & Hu & Hr & Hc & Hd)]; [done|].
  exists c, d. split; [by rewrite Hu|]. split; [|done].
  by apply (last_rev_cons _ w).
Qed.

(** X4. A post shows in the room.  After [postMessage] has returned,
    [getChatRoomById] by any participant of the room returns it with
    [lastMessage] the trimmed text, [lastMessageSenderId] the sender
    and [updatedAt] the second clock reading of the post, with the
    participants it had, and with every other stored field as it was. *)
Theorem post_updates_room_summary (e : env) (req : request) (s s' : db) (r : response) :
  identifier (params_id req) →
  postMessage e req s = (Returned r, s') →
  ∃ z t rdoc,
    subject_of req z ∧ body req !! "text" = Some (Str t)
    ∧ s !! [JsString.lit "chatRooms"; params_id req] = Some rdoc
    ∧ ∀ req' z',
        subject_of req' z' → params_id req' = params_id req →
        z' ∈ string_array (prop rdoc "participants") →
        ∃ v, getChatRoomById req' s'
             = (Returned {| status := 200; data := One v; message := None |}, s')
             ∧ v !! "lastMessage" = Some (Str (trim t))
             ∧ v !! "lastMessageSenderId" = Some (Str z)
             ∧ v !! "updatedAt" = Some (Str (now_second e))
             ∧ v !! "participants"
               = Some (Arr (Str <$> string_array (prop rdoc "participants")))
             ∧ ∀ k, k ∉ ["lastMessage"; "lastMessageSenderId"; "updatedAt";
                         "id"; "participants"; "otherParticipantId"] →
                    v !! k = rdoc !! k.
Proof.
  intros Hrid Hrun.
  destruct (postMessage_inv _ _ _ _ _ Hrun) as (z & t & Hsub & Htext & Htrim).
  rewrite (postMessage_run e req s z t Hsub Hrid Htext Htrim) in Hrun.
  cbv zeta in Hrun. cbn [app] in Hrun.
  destruct (s !! [_; _]) as [rdoc|] eqn:Hroom; [|done].
  destruct (isParticipant _ z); [|done].
  destruct (truthy _); [|done].
  destruct (s !! [_; _; _; _]); [done|].
  injection Hrun as <- <-.
  exists z, t, rdoc. split; [done|]. split; [done|]. split; [done|].
  intros req' z' Hsub' Hsame Hmem.
  assert (identifier (params_id req')) as Hrid' by (by rewrite Hsame).
  rewrite (getChatRoomById_run req' _ z' Hsub' Hrid'), Hsame.
  rewrite lookup_insert_eq, update_keeps_participants.
  rewrite (proj2 (isParticipant_spec _ _) Hmem).
  destruct (lastMessageUpdate_summary e z t rdoc) as (H1 & H2 & H3).
  eexists. split; [reflexivity|].
  rewrite !room_view_field by done.
  rewrite room_view_participants, update_keeps_participants.
  split; [done|]. split; [done|]. split; [done|]. split; [done|].
  intros k Hk. rewrite !not_elem_of_cons in Hk.
  destruct Hk as (K1 & K2 & K3 & K4 & K5 & K6 & _).
  rewrite room_view_field by done. by apply lastMessageUpdate_other.
Qed.

Section Created.

Implicit Types (e : env) (req : request) (s : db) (z pid : JsString.t).

Lemma truthy_or_r (a b : value) : truthy b = true → truthy (or a b) = true.
Proof. unfold or. by destruct (truthy a) eqn:E. Qed.

Lemma find_other_index_first (ps : list JsString.t) z p :
  p ≠ z → find_other_index (p :: ps) z = Some 0.
Proof. intros H. unfold find_other_index. cbn. by rewrite decide_True. Qed.

Lemma find_other_index_second (ps : list JsString.t) z p :
  p ≠ z → find_other_index (z :: p :: ps) z = Some 1.
Proof.
  intros H. unfold find_other_index. cbn.
  rewrite decide_False by (intros ?; done). cbn. by rewrite decide_True.
Qed.

Lemma array_contains_spec z (a : value) :
  array_contains z a = true ↔ ∃ elems, a = Arr elems ∧ Str z ∈ elems.
Proof.
  destruct a as [| | | | |elems|]; cbn [array_contains];
    try (split; [done|by intros (? & ? & _)]).
  rewrite existsb_exists. split.
  - intros (x & Hx & Hz). exists elems. split; [done|].
    destruct x as [| | | |t| |]; try done.
    apply bool_decide_eq_true in Hz as ->. by apply list_elem_of_In.
  - intros (? & [= <-] & Hz). exists (Str z).
    split; [by apply list_elem_of_In|]. by apply bool_decide_eq_true.
Qed.

Lemma prop_Arr (d : doc) (k : string) (elems : list value) :
  prop d k = Arr elems ↔ d !! k = Some (Arr elems).
Proof.
  unfold prop. destruct (d !! k) as [x|]; simpl; [|done].
  split; congruence.
Qed.

End Created.

(** X5. A room that [createChatRoom] has just created is open to its
    two parties and to nobody else.  The reply has status 201, the
    derived room identifier as [id] and the seller as
    [otherParticipantId]; then [getChatRoomById] on that identifier
    returns the room to the buyer (the other participant being the
    seller) and to the seller (the other participant being the buyer),
    and refuses every other subject with 403. *)
Theorem created_room_is_open_to_both (e : env) (req : request) (s : db)
    (z pid : JsString.t) (product : doc) :
  subject_of req z → identifier z →
  body req !! "productId" = Some (Str pid) → identifier pid →
  s !! [JsString.lit "products"; pid] = Some product →
  let sellerId := to_string (or (prop product "userId") (Str [])) in
  let chatRoomId := generateChatRoomId z sellerId pid in
  identifier sellerId → sellerId ≠ z →
  s !! [JsString.lit "chatRooms"; chatRoomId] = None →
  ∃ r v s',
    createChatRoom e req s = (Returned r, s')
    ∧ status r = 201%N ∧ data r = One v
    ∧ v !! "id" = Some (Str chatRoomId)
    ∧ v !! "otherParticipantId" = Some (Str sellerId)
    ∧ ∀ req' z',
        subject_of req' z' → params_id req' = chatRoomId →
        (z' = z →
           ∃ v', getChatRoomById req' s'
                 = (Returned {| status := 200; data := One v'; message := None |}, s')
                 ∧ v' !! "id" = Some (Str chatRoomId)
                 ∧ v' !! "otherParticipantId" = Some (Str sellerId))
        ∧ (z' = sellerId →
           ∃ v', getChatRoomById req' s'
                 = (Returned {| status := 200; data := One v'; message := None |}, s')
                 ∧ v' !! "id" = Some (Str chatRoomId)
                 ∧ v' !! "otherParticipantId" = Some (Str z))
        ∧ (z' ≠ z → z' ≠ sellerId →
           getChatRoomById req' s'
           = (Thrown (Some 403%N) "Not authorized to access this chat room", s')).
Proof.
  intros Hsub Hz Hbody Hpid Hproduct sellerId chatRoomId Hsid Hseller Hroom.
  destruct Hsub as (u & Hu & Huid & Hne & Hlen).
  pose proof (createChatRoom_new e req s z pid product u
                Hu Huid Hz Hlen Hbody Hpid Hproduct Hsid Hseller Hroom) as Hnew.
  cbv zeta in Hnew. fold sellerId chatRoomId in Hnew.
  set (room := newChatRoom e u product _ _ z sellerId (Str pid)) in Hnew.
  eexists _, _, _. split; [exact Hnew|].
  split; [reflexivity|]. split; [reflexivity|].
  split. { rewrite lookup_insert_ne by done. by rewrite lookup_union_r. }
  split; [apply lookup_insert_eq|].
  intros req' z' Hsub' Hsame.
  assert (identifier (params_id req')) as Hrid'.
  { rewrite Hsame. apply generateChatRoomId_identifier. }
  rewrite (getChatRoomById_run req' _ z' Hsub' Hrid'), Hsame, lookup_insert_eq.
  change (prop room "participants") with (Arr [Str z; Str sellerId]).
  cbn [string_array map to_string].
  assert (Str sellerId ≠ Str [] ∧ truthy (Str sellerId) = true) as [_ Hts].
  { destruct Hsid as [Hs _]. by destruct sellerId. }
  assert (truthy (Str z) = true) as Htz by (by destruct z).
  split; [|split].
  - intros ->.
    rewrite (proj2 (isParticipant_spec _ _)) by (rewrite !elem_of_cons; tauto).
    eexists. split; [reflexivity|]. split.
    + by rewrite room_view_id.
    + rewrite room_view_other.
      change (prop room "participants") with (Arr [Str z; Str sellerId]).
      cbn [string_array map to_string].
      rewrite find_other_second by done. unfold or. by rewrite Hts.
  - intros ->.
    rewrite (proj2 (isParticipant_spec _ _)) by (rewrite !elem_of_cons; tauto).
    eexists. split; [reflexivity|]. split.
    + by rewrite room_view_id.
    + rewrite room_view_other.
      change (prop room "participants") with (Arr [Str z; Str sellerId]).
      cbn [string_array map to_string].
      rewrite find_other_first by done. unfold or. by rewrite Htz.
  - intros H1 H2.
    destruct (isParticipant _ z') eqn:E; [|done].
    apply isParticipant_spec in E.
    rewrite !elem_of_cons, elem_of_nil in E. tauto.
Qed.

(** X6. A room that [createChatRoom] has just created is in the list
    of both parties.  The two names it stores are never falsy (they
    fall back to 'Buyer' and 'Seller'); [getChatRooms] of the buyer
    then has a view of the room with the seller as other participant
    and the seller's name as [otherParticipantName], and [getChatRooms]
    of the seller one with the buyer and the buyer's name. *)
Theorem created_room_is_listed (e e' : env) (req : request) (s : db)
    (u : user) (z pid : JsString.t) (product : doc) :
  req_user req = Some u → uid u = Some z → identifier z → length z ≤ 100 →
  body req !! "productId" = Some (Str pid) → identifier pid →
  s !! [JsString.lit "products"; pid] = Some product →
  let sellerId := to_string (or (prop product "userId") (Str [])) in
  let chatRoomId := generateChatRoomId z sellerId pid in
  identifier sellerId → sellerId ≠ z →
  s !! [JsString.lit "chatRooms"; chatRoomId] = None →
  let buyerName :=
    or (or (or (stored_name (s !! [JsString.lit "users"; z])) (displayName u)) (name u))
       (Str (JsString.lit "Buyer")) in
  let sellerName :=
    or (or (stored_name (s !! [JsString.lit "users"; sellerId])) (prop product "farmName"))
       (Str (JsString.lit "Seller")) in
  ∃ r s',
    createChatRoom e req s = (Returned r, s') ∧ status r = 201%N
    ∧ truthy buyerName = true ∧ truthy sellerName = true
    ∧ (∀ req', subject_of req' z →
         ∃ views v,
           getChatRooms e' req' s'
           = (Returned {| status := 200; data := Many views; message := None |}, s')
           ∧ v ∈ views
           ∧ v !! "id" = Some (Str chatRoomId)
           ∧ v !! "otherParticipantId" = Some (Str sellerId)
           ∧ v !! "otherParticipantName" = Some sellerName)
    ∧ (∀ req', subject_of req' sellerId →
         ∃ views v,
           getChatRooms e' req' s'
           = (Returned {| status := 200; data := Many views; message := None |}, s')
           ∧ v ∈ views
           ∧ v !! "id" = Some (Str chatRoomId)
           ∧ v !! "otherParticipantId" = Some (Str z)
           ∧ v !! "otherParticipantName" = Some buyerName).
Proof.
  intros Hu Huid Hz Hlen Hbody Hpid Hproduct sellerId chatRoomId Hsid Hseller Hroom
         buyerName sellerName.
  pose proof (createChatRoom_new e req s z pid product u
                Hu Huid Hz Hlen Hbody Hpid Hproduct Hsid Hseller Hroom) as Hnew.
  cbv zeta in Hnew. fold sellerId chatRoomId in Hnew.
  set (room := newChatRoom e u product _ _ z sellerId (Str pid)) in Hnew.
  set (s' := <[[JsString.lit "chatRooms"; chatRoomId] := room]> s) in Hnew.
  assert (truthy (Str sellerId) = true) as Hts.
  { destruct Hsid as [Hs _]. by destruct sellerId. }
  assert (truthy (Str z) = true) as Htz.
  { destruct Hz as [Hs _]. by destruct z. }
  assert (∀ z', Str z' ∈ [Str z; Str sellerId] →
            ([JsString.lit "chatRooms"; chatRoomId], room)
            ∈ select_array_contains [JsString.lit "chatRooms"] "participants" z' s')
    as Hlisted.
  { intros z' Hz'. apply elem_of_select_array_contains. cbn [fst snd].
    split; [apply lookup_insert_eq|]. split; [by exists chatRoomId|].
    apply array_contains_spec. by eexists. }
  assert (∀ z', list_view z' ([JsString.lit "chatRooms"; chatRoomId], room) !! "id"
                = Some (Str chatRoomId)) as Hid.
  { intros z'. unfold list_view. rewrite lookup_insert_ne by done.
    by rewrite room_view_id. }
  eexists _, s'. split; [exact Hnew|]. split; [reflexivity|].
  split; [by apply truthy_or_r|]. split; [by apply truthy_or_r|].
  split.
  - intros req' Hsub'.
    eexists _, (list_view z ([JsString.lit "chatRooms"; chatRoomId], room)).
    split; [apply (getChatRooms_run e' req' s' z Hsub')|].
    split.
    { rewrite sort_by_Permutation. apply list_elem_of_fmap_2, Hlisted.
      rewrite !elem_of_cons. tauto. }
    split; [apply Hid|]. split.
    + rewrite list_view_other, room_view_other. cbn [fst snd].
      change (prop room "participants") with (Arr [Str z; Str sellerId]).
      cbn [string_array map to_string].
      rewrite find_other_second by done. unfold or. by rewrite Hts.
    + rewrite list_view_name. cbn [fst snd].
      change (prop room "participants") with (Arr [Str z; Str sellerId]).
      cbn [string_array map to_string].
      by rewrite find_other_index_second by done.
  - intros req' Hsub'.
    eexists _, (list_view sellerId ([JsString.lit "chatRooms"; chatRoomId], room)).
    split; [apply (getChatRooms_run e' req' s' sellerId Hsub')|].
    split.
    { rewrite sort_by_Permutation. apply list_elem_of_fmap_2, Hlisted.
      rewrite !elem_of_cons. tauto. }
    split; [apply Hid|]. split.
    + rewrite list_view_other, room_view_other. cbn [fst snd].
      change (prop room "participants") with (Arr [Str z; Str sellerId]).
      cbn [string_array map to_string].
      rewrite find_other_first by done. unfold or. by rewrite Htz.
    + rewrite list_view_name. cbn [fst snd].
      change (prop room "participants") with (Arr [Str z; Str sellerId]).
      cbn [string_array map to_string].
      by rewrite find_other_index_first by done.
Qed.

Section Listing.

Implicit Types (e : env) (req : request) (s : db) (z : JsString.t).

Lemma sort_insert_newest_first e (x : doc) (l : list doc) :
  is_Some (room_time e x) → Forall (λ v, is_Some (room_time e v)) l →
  StronglySorted (newest_first e) l →
  StronglySorted (newest_first e) (JsString.sort_insert (older e) x l).
Proof.
  intros [tx Hx] Hall Hs.
  induction Hs as [|y l Hs IH Hy]; [repeat constructor|].
  apply Forall_cons in Hall as [[ty Hty] Hall].
  cbn [JsString.sort_insert]. unfold older at 1. rewrite Hx, Hty.
  destruct (Z.ltb_spec 0 (ty - tx)) as [Hlt|Hge].
  - constructor; [by apply IH|].
    rewrite sort_insert_Permutation. constructor; [|done].
    unfold newest_first. rewrite Hx, Hty. lia.
  - constructor; [by constructor|].
    constructor.
    + unfold newest_first. rewrite Hx, Hty. lia.
    + eapply Forall_impl; [exact Hy|]. intros v. unfold newest_first.
      rewrite Hx, Hty. destruct (room_time e v); [lia|done].
Qed.

Lemma sort_by_newest_first e (l : list doc) :
  Forall (λ v, is_Some (room_time e v)) l →
  StronglySorted (newest_first e) (JsString.sort_by (older e) l).
Proof.
  induction 1 as [|x l Hx Hall IH]; [constructor|].
  cbn [JsString.sort_by foldr]. apply sort_insert_newest_first; [done| |done].
  change (foldr _ _ l) with (JsString.sort_by (older e) l).
  by rewrite sort_by_Permutation.
Qed.

(** The sort is stable: rooms of the same age keep their order. *)
Lemma sort_insert_stable e (t : Z) (x : doc) (l : list doc) :
  filter (λ v, room_time e v = Some t) (JsString.sort_insert (older e) x l)
  = filter (λ v, room_time e v = Some t) (x :: l).
Proof.
  induction l as [|y l IH]; [done|].
  cbn [JsString.sort_insert]. destruct (older e x y) eqn:Hafter; [|done].
  rewrite filter_cons, IH, !filter_cons.
  unfold older in Hafter.
  destruct (room_time e x) as [tx|]; [|done].
  destruct (room_time e y) as [ty|]; [|done].
  apply Z.ltb_lt in Hafter.
  repeat case_decide; simplify_eq; try done; lia.
Qed.

Lemma sort_by_stable e (t : Z) (l : list doc) :
  filter (λ v, room_time e v = Some t) (JsString.sort_by (older e) l)
  = filter (λ v, room_time e v = Some t) l.
Proof.
  induction l as [|x l IH]; [done|].
  cbn [JsString.sort_by foldr]. rewrite sort_insert_stable, !filter_cons.
  change (foldr _ _ l) with (JsString.sort_by (older e) l).
  by rewrite IH.
Qed.

(** The stable sorted order is unique. *)
Lemma newest_first_unique e (l1 l2 : list doc) :
  Forall (λ v, is_Some (room_time e v)) l1 →
  l1 ≡ₚ l2 →
  StronglySorted (newest_first e) l1 → StronglySorted (newest_first e) l2 →
  (∀ t, filter (λ v, room_time e v = Some t) l1
        = filter (λ v, room_time e v = Some t) l2) →
  l1 = l2.
Proof.
  revert l2. induction l1 as [|x l1 IH]; intros l2 Hall Hperm Hs1 Hs2 Hstable.
  { by apply Permutation_nil_l in Hperm. }
  destruct l2 as [|y l2]; [by apply Permutation_nil_r in Hperm|].
  apply Forall_cons in Hall as [[tx Hx] Hall].
  apply StronglySorted_inv in Hs1 as [Hs1 Hx1].
  apply StronglySorted_inv in Hs2 as [Hs2 Hy2].
  rewrite Forall_forall in Hx1, Hy2.
  assert (room_time e y = Some tx) as Hy.
  { assert (x ∈ y :: l2) as Hxin by (rewrite <- Hperm; apply list_elem_of_here).
    assert (y ∈ x :: l1) as Hyin by (rewrite Hperm; apply list_elem_of_here).
    apply elem_of_cons in Hxin as [<-|Hxin]; [done|].
    apply elem_of_cons in Hyin as [->|Hyin]; [done|].
    apply Hx1 in Hyin. apply Hy2 in Hxin. unfold newest_first in Hyin, Hxin.
    rewrite Hx in Hyin, Hxin. destruct (room_time e y) as [ty|]; [|done].
    f_equal. lia. }
  assert (x = y) as <-.
  { specialize (Hstable tx). rewrite !filter_cons in Hstable.
    rewrite !decide_True in Hstable by done. by injection Hstable. }
  f_equal. apply IH; [done|by apply (Permutation_cons_inv Hperm)|done|done|].
  intros t. specialize (Hstable t). rewrite !filter_cons in Hstable.
  destruct (decide (room_time e x = Some t)); [by injection Hstable|done].
Qed.

Lemma NoDup_select_array_contains (c : path) field z s :
  NoDup (select_array_contains c field z s).
Proof.
  unfold select_array_contains. rewrite merge_sort_Permutation.
  apply NoDup_filter, NoDup_children.
Qed.

Lemma list_view_participants z (rd : path * doc) :
  list_view z rd !! "participants"
  = Some (Arr (Str <$> string_array (prop rd.2 "participants"))).
Proof.
  unfold list_view. rewrite lookup_insert_ne by done. apply room_view_participants.
Qed.

End Listing.

(** X7. [getChatRooms] lists the rooms of the caller, and only those.
    The views it returns are, up to their order, the views of the
    documents directly under [chatRooms] whose [participants] field is
    an array that holds the caller's identifier as a string, each
    document once; the normalised [participants] of every view
    contain the caller. *)
Theorem getChatRooms_lists_own_rooms (e : env) (req : request) (s : db) (z : JsString.t) :
  subject_of req z →
  ∃ q,
    getChatRooms e req s
    = (Returned {| status := 200;
                   data := Many (JsString.sort_by (older e) (map (list_view z) q));
                   message := None |}, s)
    ∧ JsString.sort_by (older e) (map (list_view z) q) ≡ₚ map (list_view z) q
    ∧ NoDup q
    ∧ (∀ r d, (r, d) ∈ q
              ↔ s !! r = Some d
                ∧ (∃ id, r = [JsString.lit "chatRooms"; id])
                ∧ ∃ elems, d !! "participants" = Some (Arr elems) ∧ Str z ∈ elems)
    ∧ (∀ rd, rd ∈ q →
         ∃ ps, list_view z rd !! "participants" = Some (Arr (Str <$> ps)) ∧ z ∈ ps).
Proof.
  intros Hsub.
  exists (select_array_contains [JsString.lit "chatRooms"] "participants" z s).
  split; [apply (getChatRooms_run e req s z Hsub)|].
  split; [apply sort_by_Permutation|].
  split; [apply NoDup_select_array_contains|].
  split.
  - intros r d. rewrite elem_of_select_array_contains. cbn [fst snd app].
    rewrite array_contains_spec. setoid_rewrite prop_Arr. reflexivity.
  - intros [r d] Hrd.
    apply elem_of_select_array_contains in Hrd as (_ & _ & Hc). cbn [fst snd] in *.
    apply array_contains_spec in Hc as (elems & Hps & Hz).
    eexists. split; [apply list_view_participants|]. cbn [snd].
    rewrite Hps. cbn [string_array].
    apply (list_elem_of_fmap_2 to_string) in Hz. exact Hz.
Qed.

(** X9. The order of the list of rooms.  [getChatRooms] returns a
    permutation of the views of the query's documents, which come in
    the order of their names.  When the time ([updatedAt], else
    [createdAt], else 0) of every listed room is a number, the list is
    in descending order of time, rooms of the same time keep the
    order of the query, and no other arrangement of the rooms is such:
    it is the order of every stable sort. *)
Theorem getChatRooms_newest_first (e : env) (req : request) (s : db) (z : JsString.t) :
  subject_of req z →
  ∃ views q,
    getChatRooms e req s
    = (Returned {| status := 200; data := Many views; message := None |}, s)
    ∧ views ≡ₚ map (list_view z) q
    ∧ StronglySorted by_name q
    ∧ ((∀ v, v ∈ views → is_Some (room_time e v)) →
       StronglySorted (newest_first e) views
       ∧ (∀ t, filter (λ v, room_time e v = Some t) views
               = filter (λ v, room_time e v = Some t) (map (list_view z) q))
       ∧ ∀ l, l ≡ₚ map (list_view z) q →
              StronglySorted (newest_first e) l →
              (∀ t, filter (λ v, room_time e v = Some t) l
                    = filter (λ v, room_time e v = Some t) (map (list_view z) q)) →
              l = views).
Proof.
  intros Hsub.
  eexists _, (select_array_contains [JsString.lit "chatRooms"] "participants" z s).
  split; [apply (getChatRooms_run e req s z Hsub)|].
  split; [apply sort_by_Permutation|].
  split.
  { apply Sorted_StronglySorted; [apply by_name_trans|].
    apply (Sorted_merge_sort _). }
  intros Hall.
  assert (StronglySorted (newest_first e)
            (JsString.sort_by (older e)
               (map (list_view z)
                  (select_array_contains [JsString.lit "chatRooms"] "participants" z s))))
    as Hsorted.
  { apply sort_by_newest_first, Forall_forall.
    intros v Hv. apply Hall. by rewrite sort_by_Permutation. }
  split; [exact Hsorted|].
  split; [intros t; apply sort_by_stable|].
  intros l Hperm Hl Hstable. apply (newest_first_unique e).
  - apply Forall_forall. intros v Hv. apply Hall. by rewrite sort_by_Permutation, <- Hperm.
  - by rewrite sort_by_Permutation.
  - done.
  - done.
  - intros t. by rewrite Hstable, sort_by_stable.
Qed.

(** X8. The list is stricter than the gate.  A room whose
    [participants] hold the caller's identifier only in another type
    (the number 5 for the subject "5") is returned by
    [getChatRoomById], which compares after [String()], and is not
    among the rooms [getChatRooms] lists, whose query compares the
    stored values themselves. *)
Theorem legacy_participant_not_listed (e : env) (req : request) (s : db)
    (z : JsString.t) (d : doc) (elems : list value) :
  subject_of req z → identifier (params_id req) →
  s !! [JsString.lit "chatRooms"; params_id req] = Some d →
  d !! "participants" = Some (Arr elems) →
  z ∈ map to_string elems → Str z ∉ elems →
  getChatRoomById req s
  = (Returned {| status := 200;
                 data := One (room_view (params_id req) d z);
                 message := None |}, s)
  ∧ ∃ q,
      getChatRooms e req s
      = (Returned {| status := 200;
                     data := Many (JsString.sort_by (older e) (map (list_view z) q));
                     message := None |}, s)
      ∧ ([JsString.lit "chatRooms"; params_id req], d) ∉ q.
Proof.
  intros Hsub Hrid Hroom Hps Hin Hnot. split.
  - rewrite (getChatRoomById_run req s z Hsub Hrid), Hroom.
    rewrite (prop_lookup _ _ _ Hps). cbn [string_array].
    by rewrite (proj2 (isParticipant_spec _ _) Hin).
  - eexists. split; [apply (getChatRooms_run e req s z Hsub)|].
    rewrite elem_of_select_array_contains. cbn [fst snd].
    intros (_ & _ & Hc). apply array_contains_spec in Hc as (elems' & Hps' & Hz).
    rewrite (prop_lookup _ _ _ Hps) in Hps'. by injection Hps' as <-.
Qed.

Section Delete.

Implicit Types (e : env) (req : request) (s : db) (z : JsString.t).

Lemma deleteChatRoom_run req s :
  identifier (params_id req) →
  deleteChatRoom req s
  = (Returned {| status := 200; data := Nothing; message := Some "Chat room deleted" |},
     base.delete [JsString.lit "chatRooms"; params_id req] s).
Proof.
  intros Hrid. unfold deleteChatRoom.
  step_with (doc_ref_identifier (JsString.lit "chatRooms") _ Hrid).
  reflexivity.
Qed.

(** A query below [c] sees the same documents in two stores that agree
    below [c]. *)
Lemma select_order_by_agree (c : path) (field : string) s1 s2 :
  (∀ x, s1 !! (c ++ [x]) = s2 !! (c ++ [x])) →
  select_order_by c field s1 ≡ₚ select_order_by c field s2.
Proof.
  intros Hagree. apply NoDup_Permutation; try apply NoDup_select_order_by.
  intros [r d]. rewrite !elem_of_select_order_by. cbn [fst snd].
  split; intros (Hr & [x ->] & Hf); (split; [|split; [by exists x|done]]);
    by rewrite ?Hagree in *.
Qed.

End Delete.


(** X11. The messages of a deleted room come back with the room.
    After [deleteChatRoom], a [createChatRoom] by the same buyer for
    the same listing creates the room anew under the same identifier,
    and [getMessages] then lists the messages that were stored below
    the room before it was deleted. *)
Theorem recreated_room_shows_old_messages (e : env) (reqd reqc reqm : request) (s : db)
    (z pid : JsString.t) (product : doc) :
  subject_of reqc z → identifier z →
  body reqc !! "productId" = Some (Str pid) → identifier pid →
  s !! [JsString.lit "products"; pid] = Some product →
  let sellerId := to_string (or (prop product "userId") (Str [])) in
  let chatRoomId := generateChatRoomId z sellerId pid in
  identifier sellerId → sellerId ≠ z →
  params_id reqd = chatRoomId →
  subject_of reqm z → params_id reqm = chatRoomId →
  ∃ r1 s1 r2 s2 q,
    deleteChatRoom reqd s = (Returned r1, s1)
    ∧ createChatRoom e reqc s1 = (Returned r2, s2) ∧ status r2 = 201%N
    ∧ getMessages reqm s2
      = (Returned {| status := 200; data := Many (map message_view q);
                     message := None |}, s2)
    ∧ q ≡ₚ select_order_by
             [JsString.lit "chatRooms"; chatRoomId; JsString.lit "messages"]
             "timestamp" s.
Proof.
  intros Hsubc Hz Hbody Hpid Hproduct sellerId chatRoomId Hsid Hseller
         Hidd Hsubm Hidm.
  pose proof (generateChatRoomId_identifier z sellerId pid) as Hrid.
  fold chatRoomId in Hrid.
  set (room := [JsString.lit "chatRooms"; chatRoomId]).
  set (s1 := base.delete room s).
  assert (s1 !! [JsString.lit "products"; pid] = Some product) as Hproduct1.
  { unfold s1. by rewrite lookup_delete_ne. }
  assert (s1 !! room = None) as Hroom1 by apply lookup_delete_eq.
  destruct Hsubc as (u & Hu & Huid & Hne & Hlen).
  pose proof (createChatRoom_new e reqc s1 z pid product u
                Hu Huid Hz Hlen Hbody Hpid Hproduct1 Hsid Hseller Hroom1) as Hnew.
  cbv zeta in Hnew. fold sellerId chatRoomId room in Hnew.
  set (rdoc := newChatRoom e u product _ _ z sellerId (Str pid)) in Hnew.
  set (s2 := <[room := rdoc]> s1) in Hnew.
  eexists _, s1, _, s2, _.
  split. { rewrite deleteChatRoom_run by (by rewrite Hidd). by rewrite Hidd. }
  split; [exact Hnew|]. split; [reflexivity|].
  split.
  - rewrite (getMessages_run reqm s2 z Hsubm) by (by rewrite Hidm).
    rewrite Hidm. fold room. unfold s2 at 1. rewrite lookup_insert_eq.
    change (prop rdoc "participants") with (Arr [Str z; Str sellerId]).
    cbn [truthy is_array negb andb string_array map to_string].
    rewrite (proj2 (isParticipant_spec _ _)) by (rewrite !elem_of_cons; tauto).
    reflexivity.
  - apply (select_order_by_agree (room ++ [JsString.lit "messages"])).
    intros x. rewrite <- (assoc_L (++)). cbn [app]. unfold s2, s1.
    rewrite lookup_insert_ne by done. by rewrite lookup_delete_ne.
Qed.


(** X13. The string that is hashed does not determine its parts.
    When the two orders agree, the participants [A] and [B_C] have the
    room identifier of the participants [A_B] and [C] for the same
    listing, and of the participants [A] and [B] for the listing
    [C_L]: different pairs, or different listings, with one room. *)
Theorem generateChatRoomId_underscore_ambiguity (A B C L : JsString.t) :
  JsString.ltb (B ++ JsString.lit "_" ++ C) A = false →
  JsString.ltb C (A ++ JsString.lit "_" ++ B) = false →
  JsString.ltb B A = false →
  generateChatRoomId A (B ++ JsString.lit "_" ++ C) L
  = generateChatRoomId (A ++ JsString.lit "_" ++ B) C L
  ∧ generateChatRoomId A (B ++ JsString.lit "_" ++ C) L
    = generateChatRoomId A B (C ++ JsString.lit "_" ++ L)
  ∧ A ≠ A ++ JsString.lit "_" ++ B
  ∧ B ≠ B ++ JsString.lit "_" ++ C
  ∧ L ≠ C ++ JsString.lit "_" ++ L.
Proof.
  intros H1 H2 H3. unfold generateChatRoomId.
  rewrite !sort_pair, H1, H2, H3. cbn [JsString.template_index lookup list_lookup].
  split; [|split; [|split; [|split]]].
  - by rewrite <- !(assoc_L (++)).
  - by rewrite <- !(assoc_L (++)).
  - intros H. apply (f_equal length) in H. rewrite !length_app in H.
    cbn [length JsString.lit list_ascii_of_string map] in H. lia.
  - intros H. apply (f_equal length) in H. rewrite !length_app in H.
    cbn [length JsString.lit list_ascii_of_string map] in H. lia.
  - intros H. apply (f_equal length) in H. rewrite !length_app in H.
    cbn [length JsString.lit list_ascii_of_string map] in H. lia.
Qed.

Lemma generateChatRoomId_underscore_ambiguity_witness :
  generateChatRoomId (JsString.lit "a") (JsString.lit "b_c") (JsString.lit "d")
  = generateChatRoomId (JsString.lit "a_b") (JsString.lit "c") (JsString.lit "d")
  ∧ generateChatRoomId (JsString.lit "a") (JsString.lit "b_c") (JsString.lit "d")
    = generateChatRoomId (JsString.lit "a") (JsString.lit "b") (JsString.lit "c_d").
Proof.
  destruct (generateChatRoomId_underscore_ambiguity
              (JsString.lit "a") (JsString.lit "b") (JsString.lit "c")
              (JsString.lit "d")) as (H1 & H2 & _); [reflexivity..|].
  split; [exact H1|exact H2].
Defined.

(** X14. [createChatRoom] returns an existing room without the
    membership check.  When a document is stored under the derived
    identifier and the caller is not among its participants, the reply
    is 200 with every stored field, while [getChatRoomById] refuses
    the same caller for the same room with 403. *)
Theorem createChatRoom_skips_membership (e : env) (req : request) (s : db)
    (z pid : JsString.t) (product existing : doc) :
  subject_of req z →
  body req !! "productId" = Some (Str pid) → identifier pid →
  s !! [JsString.lit "products"; pid] = Some product →
  let sellerId := to_string (or (prop product "userId") (Str [])) in
  let chatRoomId := generateChatRoomId z sellerId pid in
  sellerId ≠ z →
  s !! [JsString.lit "chatRooms"; chatRoomId] = Some existing →
  z ∉ string_array (prop existing "participants") →
  (∃ v, createChatRoom e req s
        = (Returned {| status := 200; data := One v;
                       message := Some "Chat room already exists" |}, s)
        ∧ ∀ k, k ≠ "participants" → k ≠ "otherParticipantId" → k ≠ "id" →
               v !! k = existing !! k)
  ∧ ∀ req', subject_of req' z → params_id req' = chatRoomId →
      getChatRoomById req' s
      = (Thrown (Some 403%N) "Not authorized to access this chat room", s).
Proof.
  intros Hsub Hbody Hpid Hproduct sellerId chatRoomId Hseller Hroom Hnot.
  split.
  - eexists. split.
    + apply (createChatRoom_existing e req s z pid product existing
               Hsub Hbody Hpid Hproduct Hseller Hroom).
    + intros k H1 H2 H3. by apply room_view_field.
  - intros req' Hsub' Hsame.
    rewrite (getChatRoomById_run req' s z Hsub');
      [|rewrite Hsame; apply generateChatRoomId_identifier].
    rewrite Hsame. fold sellerId chatRoomId. rewrite Hroom.
    destruct (isParticipant _ z) eqn:E; [|done].
    by apply isParticipant_spec in E.
Qed.

(** X15. A room whose [participants] field is truthy but not an array
    (a string, a number, a map).  [getChatRoomById] and [postMessage]
    treat it as a room without participants and answer 403;
    [getMessages] throws before its check, with no status set, because
    its log calls [map] on the field. *)
Theorem getMessages_participants_not_array (req : request) (s : db)
    (z : JsString.t) (d : doc) :
  subject_of req z → identifier (params_id req) →
  s !! [JsString.lit "chatRooms"; params_id req] = Some d →
  truthy (prop d "participants") = true →
  is_array (prop d "participants") = false →
  (∃ m, getMessages req s = (Thrown None m, s))
  ∧ getChatRoomById req s
    = (Thrown (Some 403%N) "Not authorized to access this chat room", s)
  ∧ ∀ e t, body req !! "text" = Some (Str t) → trim t ≠ [] →
      postMessage e req s
      = (Thrown (Some 403%N) "Not authorized to post in this chat room", s).
Proof.
  intros Hsub Hrid Hroom Htruthy Harr.
  assert (string_array (prop d "participants") = []) as Hps.
  { by destruct (prop d "participants"). }
  split; [|split].
  - rewrite (getMessages_run req s z Hsub Hrid), Hroom.
    rewrite Htruthy, Harr. by eexists.
  - rewrite (getChatRoomById_run req s z Hsub Hrid), Hroom.
    by rewrite Hps.
  - intros e t Htext Htrim.
    rewrite (postMessage_run e req s z t Hsub Hrid Htext Htrim).
    cbv zeta. by rewrite Hroom, Hps.
Qed.

(** X17. The room identifier is always a document identifier: 32
    characters out of [0-9a-f], 32 bytes in UTF-8, accepted by the
    store, so that [collection('chatRooms').doc(id)] returns the
    reference [chatRooms/id] for all participants and listings,
    however long. *)
Theorem generateChatRoomId_document_id (A B L : JsString.t) :
  Forall hex_char (generateChatRoomId A B L)
  ∧ length (JsString.utf8 (generateChatRoomId A B L)) = 32
  ∧ identifier (generateChatRoomId A B L)
  ∧ ∀ s, doc_ref [JsString.lit "chatRooms"] (Str (generateChatRoomId A B L)) s
         = (Returned [JsString.lit "chatRooms"; generateChatRoomId A B L], s).
Proof.
  pose proof (generateChatRoomId_chars A B L) as Hchars.
  split; [done|]. split.
  { rewrite utf8_ascii; [apply generateChatRoomId_length|].
    eapply Forall_impl; [exact Hchars|]. unfold hex_char. intros; lia. }
  split; [apply generateChatRoomId_identifier|].
  intros s.
  by rewrite (doc_ref_identifier _ _ (generateChatRoomId_identifier A B L)).
Qed.

(** X16. The outcomes of [createChatRoom], whatever the request.
    Either it returns 200 with the message 'Chat room already exists',
    the room was stored and the store is unchanged; or it returns 201,
    no room was stored under the identifier and the store has gained
    exactly that room, well formed, the reply carrying the identifier
    and the participants; or it throws with status 400, 401, 404 or
    none, and the store is unchanged. *)
Theorem createChatRoom_outcomes (e : env) (req : request) (s : db) :
  match createChatRoom e req s with
  | (Returned r, s') =>
      ∃ id v,
        data r = One v
        ∧ ((status r = 200%N ∧ message r = Some "Chat room already exists"
            ∧ s' = s ∧ is_Some (s !! [JsString.lit "chatRooms"; id]))
           ∨ (status r = 201%N ∧ message r = None
              ∧ s !! [JsString.lit "chatRooms"; id] = None
              ∧ ∃ room, s' = <[[JsString.lit "chatRooms"; id] := room]> s
                        ∧ v !! "id" = Some (Str id)
                        ∧ v !! "participants" = room !! "participants"
                        ∧ well_formed_participants room))
  | (Thrown c _, s') =>
      s' = s ∧ (c = Some 400%N ∨ c = Some 401%N ∨ c = Some 404%N ∨ c = None)
  end.
Proof.
  unfold createChatRoom.
  destruct (require_user_inv req) as [[m ->]|(u & Hu & ->)]; [cbn; tauto|].
  rewrite bind_ret; cbv beta zeta.
  destruct (truthy _); cbn [negb]; [|cbn; tauto].
  destruct (require_uid_inv u) as [[m ->]|(z & Huid & Hz & Hlen & ->)]; [cbn; tauto|].
  rewrite bind_ret; cbv beta.
  destruct (doc_ref_inv [JsString.lit "products"] (prop (body req) "productId"))
    as [[m ->]|(pid & r & Hpid & Hne & -> & Hr)]; [cbn; tauto|].
  rewrite bind_ret; cbv beta. rewrite bind_get.
  destruct (s !! r) as [product|]; [|cbn; tauto].
  case_bool_decide as Hself; [cbn; tauto|].
  step_with (doc_ref_identifier (JsString.lit "chatRooms") _
               (generateChatRoomId_identifier z
                  (to_string (or (prop product "userId") (Str [])))
                  (to_string (prop (body req) "productId")))).
  rewrite bind_get.
  destruct (s !! _) as [existing|] eqn:Hroom.
  { unfold ret. cbv beta iota. eexists _, _. split; [reflexivity|]. left.
    repeat split. by rewrite Hroom. }
  destruct (doc_ref_inv [JsString.lit "users"] (Str z))
    as [[m ->]|(? & rb & _ & _ & -> & _)]; [cbn; tauto|].
  rewrite bind_ret; cbv beta. rewrite bind_get.
  destruct (doc_ref_inv [JsString.lit "users"]
              (Str (to_string (or (prop product "userId") (Str [])))))
    as [[m ->]|(sid & rs & Hx & Hxne & -> & _)]; [cbn; tauto|].
  rewrite bind_ret; cbv beta. rewrite bind_get.
  unfold bind, set, reply, ret. cbv beta iota.
  eexists _, _. split; [reflexivity|]. right.
  split; [done|]. split; [done|]. split; [exact Hroom|].
  eexists. split; [reflexivity|].
  split. { rewrite lookup_insert_ne by done. by rewrite lookup_union_r. }
  split. { rewrite lookup_insert_ne by done. by rewrite lookup_union_l. }
  injection Hx as <-.
  eexists _, _. split; [apply newChatRoom_participants|]. done.
Qed.

Section Others.

Implicit Types (ps : list JsString.t) (z p : JsString.t).

(** What [find] returns: the first participant that differs. *)
Lemma find_other_spec ps z :
  (find_other ps z = Undefined ∧ ∀ p, p ∈ ps → p = z)
  ∨ ∃ i p, find_other ps z = Str p ∧ ps !! i = Some p ∧ p ≠ z
           ∧ ∀ j q, j < i → ps !! j = Some q → q = z.
Proof.
  unfold find_other.
  destruct (list_find _ ps) as [[i p]|] eqn:E.
  - right. apply list_find_Some in E as (Hi & Hp & Hfirst).
    exists i, p. split; [done|]. split; [done|]. split; [done|].
    intros j q Hj Hq. destruct (decide (q = z)) as [->|Hne]; [done|].
    by destruct (Hfirst j q Hq Hj).
  - left. split; [done|]. intros p Hp.
    apply list_find_None in E. rewrite Forall_forall in E.
    destruct (decide (p = z)) as [->|Hne]; [done|]. by destruct (E p Hp).
Qed.

End Others.

(** X27. The receiver of a message is the first other participant.
    Whatever the number of participants of the room, a message that
    [postMessage] returns has the caller as [senderId] and, as
    [receiverId], the first participant in stored order that differs
    from the caller, which is not empty; later participants never
    receive.  When that first other participant is the empty string,
    the post is refused with 400 'Cannot determine receiver' and
    nothing is written, even if a later participant differs from the
    caller. *)
Theorem receiver_is_first_other (e : env) (req : request) (s : db) (z t : JsString.t)
    (rdoc : doc) :
  subject_of req z → identifier (params_id req) →
  body req !! "text" = Some (Str t) → trim t ≠ [] →
  s !! [JsString.lit "chatRooms"; params_id req] = Some rdoc →
  let ps := string_array (prop rdoc "participants") in
  (∀ r s', postMessage e req s = (Returned r, s') →
     ∃ m i p,
       data r = One m
       ∧ m !! "senderId" = Some (Str z) ∧ m !! "receiverId" = Some (Str p)
       ∧ z ∈ ps ∧ ps !! i = Some p ∧ p ≠ z ∧ p ≠ []
       ∧ ∀ j q, j < i → ps !! j = Some q → q = z)
  ∧ (∀ i, z ∈ ps → ps !! i = Some [] →
          (∀ j q, j < i → ps !! j = Some q → q = z) →
          postMessage e req s = (Thrown (Some 400%N) "Cannot determine receiver", s)).
Proof.
  intros Hsub Hrid Htext Htrim Hroom ps.
  assert (z ≠ []) as Hz by (by destruct Hsub as (u & _ & _ & Hne & _)).
  rewrite (postMessage_run e req s z t Hsub Hrid Htext Htrim).
  cbv zeta. rewrite Hroom. fold ps. split.
  - intros r s'.
    destruct (isParticipant ps z) eqn:Hmem; [|by intros [=]].
    apply isParticipant_spec in Hmem.
    destruct (find_other_spec ps z) as [[-> _]|(i & p & -> & Hi & Hp & Hfirst)];
      [by intros [=]|].
    destruct p as [|c p]; [by intros [=]|]. cbn [truthy].
    destruct (s !! (_ ++ _)); [by intros [=]|].
    intros [= <- <-]. eexists _, i, (c :: p).
    split; [reflexivity|]. by repeat split.
  - intros i Hmem Hi Hfirst.
    rewrite (proj2 (isParticipant_spec _ _) Hmem).
    destruct (find_other_spec ps z) as [[-> _]|(k & p & -> & Hk & Hp & Hkfirst)];
      [done|].
    destruct (Nat.lt_trichotomy k i) as [Hlt|[->|Hgt]].
    + by destruct (Hp (Hfirst k p Hlt Hk)).
    + rewrite Hi in Hk. by injection Hk as <-.
    + by destruct (Hz (eq_sym (Hkfirst i [] Hgt Hi))).
Qed.

(** X28. The other participant of a view.  In the view that
    [getChatRoomById] returns, and in every view that [getChatRooms]
    lists, [otherParticipantId] is the first participant of the stored
    room that differs from the caller, never the caller and never the
    empty string; it is [null] exactly when no participant differs
    from the caller or the first one that does is the empty string. *)
Theorem other_participant_of_view (e : env) (req : request) (s : db)
    (z : JsString.t) :
  subject_of req z →
  let other (d v : doc) :=
    let ps := string_array (prop d "participants") in
    (v !! "otherParticipantId" = Some Null
     ∧ ((∀ p, p ∈ ps → p = z)
        ∨ ∃ i, ps !! i = Some [] ∧ ∀ j q, j < i → ps !! j = Some q → q = z))
    ∨ ∃ i p, v !! "otherParticipantId" = Some (Str p)
             ∧ ps !! i = Some p ∧ p ≠ z ∧ p ≠ []
             ∧ ∀ j q, j < i → ps !! j = Some q → q = z in
  (∀ r s', identifier (params_id req) →
           getChatRoomById req s = (Returned r, s') →
           ∃ d v, s !! [JsString.lit "chatRooms"; params_id req] = Some d
                  ∧ data r = One v ∧ other d v)
  ∧ (∃ views,
       getChatRooms e req s
       = (Returned {| status := 200; data := Many views; message := None |}, s)
       ∧ ∀ v, v ∈ views → ∃ id d, s !! [JsString.lit "chatRooms"; id] = Some d
                                   ∧ other d v).
Proof.
  intros Hsub other.
  assert (∀ id d, other d (room_view id d z)) as Hview.
  { intros id d. unfold other. cbv zeta. rewrite room_view_other.
    destruct (find_other_spec (string_array (prop d "participants")) z)
      as [[-> Hall]|(i & p & -> & Hi & Hp & Hfirst)];
      [left; split; [done|by left]|].
    destruct p as [|c p].
    - left. split; [done|]. right. by exists i.
    - right. by exists i, (c :: p). }
  split.
  - intros r s' Hrid. rewrite (getChatRoomById_run req s z Hsub Hrid).
    destruct (s !! _) as [d|]; [|done].
    destruct (isParticipant _ _); [|done].
    intros [= <- <-]. by eexists _, _.
  - eexists. split; [apply (getChatRooms_run e req s z Hsub)|].
    intros v Hv. rewrite sort_by_Permutation in Hv.
    apply list_elem_of_fmap in Hv as ([r d] & -> & Hrd).
    apply elem_of_select_array_contains in Hrd as (Hr & [id Hid] & _).
    cbn [fst snd app] in *. subst r. exists id, d. split; [done|].
    unfold other. rewrite list_view_other. apply Hview.
Qed.

(** The properties above, on the marketplace. *)
Section HandlerCases.

Import Scenario.

Lemma postMessage_requires_text_witness :
  postMessage morning (say "u1" "   ") market
  = (Thrown (Some 400%N) "Message text is required", market).
Proof.
  destruct (postMessage_requires_text morning (say "u1" "   ") market
              (JsString.lit "u1")) as [H _]; [closed_subject|].
  apply H. right. exists (JsString.lit "   ").
  split; [reflexivity|]. repeat constructor.
Defined.

Lemma posted_text_is_trimmed_witness :
  ∃ t stored,
    after_hello !! message_ref morning = Some stored
    ∧ stored !! "text" = Some (Str t) ∧ trim t = t.
Proof.
  destruct (posted_text_is_trimmed morning (say "u1" " hello ") with_room
              after_hello _ ltac:(closed_identifier)
              (first_post morning " hello " ltac:(by_computation)))
    as (m & t & stored & room & _ & _ & Hs & Ht & _ & _ & Htrim & _).
  exists t, stored. split; [exact Hs|]. split; [exact Ht|exact Htrim].
Defined.

Lemma post_updates_room_summary_witness :
  ∃ v, getChatRoomById (say "u2" "") after_hello
       = (Returned {| status := 200; data := One v; message := None |}, after_hello)
       ∧ v !! "lastMessage" = Some (str "hello")
       ∧ v !! "lastMessageSenderId" = Some (str "u1").
Proof.
  destruct (post_updates_room_summary morning (say "u1" " hello ") with_room
              after_hello _ ltac:(closed_identifier)
              (first_post morning " hello " ltac:(by_computation)))
    as (z & t & rdoc & Hsub & Htext & Hroom & Hview).
  destruct Hsub as (u & [= <-] & [= <-] & _).
  injection Htext as <-.
  assert (rdoc = room_doc) as ->.
  { apply (inj Some). rewrite <- Hroom. apply with_room_lookup. }
  destruct (Hview (say "u2" "") (JsString.lit "u2"))
    as (v & Hget & Hlast & Hsender & _).
  - closed_subject.
  - reflexivity.
  - apply (bool_decide_unpack _). by_computation.
  - exists v. split; [exact Hget|]. split; [exact Hlast|exact Hsender].
Defined.

Lemma created_room_is_open_to_both_witness :
  ∃ r v s',
    createChatRoom morning (open_chat "u1") market = (Returned r, s')
    ∧ status r = 201%N ∧ data r = One v
    ∧ v !! "otherParticipantId" = Some (str "u2")
    ∧ getChatRoomById (say "u3" "") s'
      = (Thrown (Some 403%N) "Not authorized to access this chat room", s').
Proof.
  destruct (created_room_is_open_to_both morning (open_chat "u1") market
              (JsString.lit "u1") (JsString.lit "p1") listing)
    as (r & v & s' & Hc & Hs & Hd & _ & Ho & Hget).
  - closed_subject.
  - closed_identifier.
  - reflexivity.
  - closed_identifier.
  - reflexivity.
  - closed_identifier.
  - discriminate.
  - by_computation.
  - exists r, v, s'. split; [exact Hc|]. split; [exact Hs|]. split; [exact Hd|].
    split; [exact Ho|].
    destruct (Hget (say "u3" "") (JsString.lit "u3")) as (_ & _ & H403).
    + closed_subject.
    + symmetry. exact room_id_derived.
    + apply H403; discriminate.
Defined.

Lemma created_room_is_listed_witness :
  ∃ r s',
    createChatRoom morning (open_chat "u1") market = (Returned r, s')
    ∧ status r = 201%N
    ∧ (∃ views v,
         getChatRooms afternoon (open_chat "u1") s'
         = (Returned {| status := 200; data := Many views; message := None |}, s')
         ∧ v ∈ views
         ∧ v !! "otherParticipantId" = Some (str "u2")
         ∧ v !! "otherParticipantName" = Some (str "Seller"))
    ∧ (∃ views v,
         getChatRooms afternoon (open_chat "u2") s'
         = (Returned {| status := 200; data := Many views; message := None |}, s')
         ∧ v ∈ views
         ∧ v !! "otherParticipantId" = Some (str "u1")
         ∧ v !! "otherParticipantName" = Some (str "Buyer")).
Proof.
  destruct (created_room_is_listed morning afternoon (open_chat "u1") market
              (member "u1") (JsString.lit "u1") (JsString.lit "p1") listing)
    as (r & s' & Hc & Hs & _ & _ & Hbuyer & Hseller).
  - reflexivity.
  - reflexivity.
  - closed_identifier.
  - vm_compute; lia.
  - reflexivity.
  - closed_identifier.
  - reflexivity.
  - closed_identifier.
  - discriminate.
  - by_computation.
  - exists r, s'. split; [exact Hc|]. split; [exact Hs|]. split.
    + destruct (Hbuyer (open_chat "u1")) as (views & v & Hl & Hv & _ & Ho & Hn);
        [closed_subject|].
      exists views, v. split; [exact Hl|]. split; [exact Hv|].
      split; [exact Ho|exact Hn].
    + destruct (Hseller (open_chat "u2")) as (views & v & Hl & Hv & _ & Ho & Hn);
        [closed_subject|].
      exists views, v. split; [exact Hl|]. split; [exact Hv|].
      split; [exact Ho|exact Hn].
Defined.

Lemma getChatRooms_lists_own_rooms_witness :
  ∃ q,
    getChatRooms morning (open_chat "u1") with_room
    = (Returned {| status := 200;
                   data := Many (JsString.sort_by (older morning)
                                   (map (list_view (JsString.lit "u1")) q));
                   message := None |}, with_room)
    ∧ NoDup q
    ∧ (room_ref, room_doc) ∈ q.
Proof.
  destruct (getChatRooms_lists_own_rooms morning (open_chat "u1") with_room
              (JsString.lit "u1")) as (q & Hl & _ & Hnd & Hq & _);
    [closed_subject|].
  exists q. split; [exact Hl|]. split; [exact Hnd|].
  apply Hq. split; [apply with_room_lookup|]. split; [by eexists|].
  eexists. split; [reflexivity|]. apply list_elem_of_here.
Defined.

Lemma legacy_participant_not_listed_witness :
  getChatRoomById (say "5" "") (with_stored_room legacy_room)
  = (Returned {| status := 200;
                 data := One (room_view (JsString.lit room_id) legacy_room
                                (JsString.lit "5"));
                 message := None |}, with_stored_room legacy_room)
  ∧ ∃ q,
      getChatRooms morning (say "5" "") (with_stored_room legacy_room)
      = (Returned {| status := 200;
                     data := Many (JsString.sort_by (older morning)
                                     (map (list_view (JsString.lit "5")) q));
                     message := None |}, with_stored_room legacy_room)
      ∧ (room_ref, legacy_room) ∉ q.
Proof.
  apply (legacy_participant_not_listed morning (say "5" "")
           (with_stored_room legacy_room) (JsString.lit "5") legacy_room
           [Num 5; str "u2"]).
  - closed_subject.
  - closed_identifier.
  - apply lookup_insert_eq.
  - reflexivity.
  - apply (bool_decide_unpack _). by_computation.
  - intros H. apply elem_of_cons in H as [H|H]; [discriminate H|].
    apply elem_of_cons in H as [H|H]; [|by apply elem_of_nil in H].
    vm_compute in H. discriminate H.
Defined.

Lemma getChatRooms_newest_first_witness :
  let a := list_view (JsString.lit "u2") (room_ref, posted_room_doc) in
  let b := list_view (JsString.lit "u2")
             ([JsString.lit "chatRooms"; other_room_id], other_room_doc) in
  getChatRooms evening (say "u2" "") two_rooms
  = (Returned {| status := 200; data := Many [a; b]; message := None |}, two_rooms)
  ∧ room_time evening a = Some 1704121200001%Z
  ∧ room_time evening b = Some 1704099600000%Z
  ∧ by_name ([JsString.lit "chatRooms"; other_room_id], other_room_doc)
      (room_ref, posted_room_doc)
  ∧ StronglySorted (newest_first evening) [a; b].
Proof.
  intros a b.
  destruct (getChatRooms_newest_first evening (say "u2" "") two_rooms
              (JsString.lit "u2")) as (views & q & Hget & _ & _ & Hsorted);
    [closed_subject|].
  assert (getChatRooms evening (say "u2" "") two_rooms
          = (Returned {| status := 200; data := Many [a; b]; message := None |},
             two_rooms)) as Hrun.
  { rewrite (getChatRooms_run _ _ _ (JsString.lit "u2")); [|closed_subject].
    reflexivity. }
  rewrite Hrun in Hget. apply (f_equal (λ o, listed o.1)) in Hget.
  change ([a; b] = views) in Hget. subst views.
  assert (room_time evening a = Some 1704121200001%Z) as Ha by reflexivity.
  assert (room_time evening b = Some 1704099600000%Z) as Hb by reflexivity.
  destruct Hsorted as (Hs & _).
  { intros v Hv. apply elem_of_cons in Hv as [->|Hv]; [by rewrite Ha|].
    apply list_elem_of_singleton in Hv as ->. by rewrite Hb. }
  split; [exact Hrun|]. split; [exact Ha|]. split; [exact Hb|].
  split; [|exact Hs]. unfold by_name. cbn [fst]. by_computation.
Defined.


Lemma recreated_room_shows_old_messages_witness :
  ∃ r1 s1 r2 s2 q,
    deleteChatRoom (anonymous room_id) after_hello = (Returned r1, s1)
    ∧ createChatRoom afternoon (open_chat "u1") s1 = (Returned r2, s2)
    ∧ status r2 = 201%N
    ∧ getMessages (say "u1" "") s2
      = (Returned {| status := 200; data := Many (map message_view q);
                     message := None |}, s2)
    ∧ q ≡ₚ select_order_by (room_ref ++ [JsString.lit "messages"]) "timestamp"
             after_hello.
Proof.
  apply (recreated_room_shows_old_messages afternoon (anonymous room_id)
           (open_chat "u1") (say "u1" "") after_hello
           (JsString.lit "u1") (JsString.lit "p1") listing).
  - closed_subject.
  - closed_identifier.
  - reflexivity.
  - closed_identifier.
  - unfold after_hello, after_post, with_room, with_stored_room.
    rewrite !lookup_insert_ne by done. apply lookup_singleton_eq.
  - closed_identifier.
  - discriminate.
  - symmetry. exact room_id_derived.
  - closed_subject.
  - symmetry. exact room_id_derived.
Defined.


Lemma createChatRoom_skips_membership_witness :
  let id := generateChatRoomId (JsString.lit "u3") (JsString.lit "u2")
              (JsString.lit "p1") in
  let s := <[[JsString.lit "chatRooms"; id] := room_doc]> market in
  (∃ v, createChatRoom morning (open_chat "u3") s
        = (Returned {| status := 200; data := One v;
                       message := Some "Chat room already exists" |}, s)
        ∧ v !! "buyerId" = Some (str "u1"))
  ∧ getChatRoomById {| req_user := Some (member "u3"); body := ∅; params_id := id |} s
    = (Thrown (Some 403%N) "Not authorized to access this chat room", s).
Proof.
  intros id s.
  destruct (createChatRoom_skips_membership morning (open_chat "u3") s
              (JsString.lit "u3") (JsString.lit "p1") listing room_doc)
    as [(v & Hc & Hv) Hget].
  - closed_subject.
  - reflexivity.
  - closed_identifier.
  - unfold s. rewrite lookup_insert_ne by done. apply lookup_singleton_eq.
  - discriminate.
  - apply lookup_insert_eq.
  - apply (bool_decide_unpack _). by_computation.
  - split.
    + exists v. split; [exact Hc|]. by rewrite Hv.
    + apply Hget; [closed_subject|reflexivity].
Defined.

Lemma getMessages_participants_not_array_witness :
  let s := with_stored_room (room_of (str "u1") Null) in
  (∃ m, getMessages (say "u1" "") s = (Thrown None m, s))
  ∧ getChatRoomById (say "u1" "") s
    = (Thrown (Some 403%N) "Not authorized to access this chat room", s).
Proof.
  intros s.
  destruct (getMessages_participants_not_array (say "u1" "") s (JsString.lit "u1")
              (room_of (str "u1") Null)) as (Hm & Hg & _).
  - closed_subject.
  - closed_identifier.
  - apply lookup_insert_eq.
  - reflexivity.
  - reflexivity.
  - split; [exact Hm|exact Hg].
Defined.

Lemma receiver_is_first_other_witness :
  ∃ m p,
    postMessage morning (say "u1" " hello ") with_room
    = (Returned {| status := 201; data := One m; message := None |}, after_hello)
    ∧ m !! "senderId" = Some (str "u1") ∧ m !! "receiverId" = Some (Str p)
    ∧ p ≠ JsString.lit "u1" ∧ p ≠ [].
Proof.
  destruct (receiver_is_first_other morning (say "u1" " hello ") with_room
              (JsString.lit "u1") (JsString.lit " hello ") room_doc)
    as [H _].
  - closed_subject.
  - closed_identifier.
  - reflexivity.
  - by_computation.
  - apply with_room_lookup.
  - destruct (H _ _ (first_post morning " hello " ltac:(by_computation)))
      as (m & i & p & Hd & Hs & Hr & _ & _ & Hp & Hne & _).
    injection Hd as <-. eexists _, p.
    split; [apply (first_post morning " hello "); by_computation|].
    split; [exact Hs|]. split; [exact Hr|]. split; [exact Hp|exact Hne].
Defined.

Lemma other_participant_of_view_witness :
  ∃ views,
    getChatRooms afternoon (say "u2" "") after_hello
    = (Returned {| status := 200; data := Many views; message := None |}, after_hello)
    ∧ ∀ v, v ∈ views →
        v !! "otherParticipantId" = Some Null
        ∨ ∃ p, v !! "otherParticipantId" = Some (Str p)
               ∧ p ≠ JsString.lit "u2" ∧ p ≠ [].
Proof.
  destruct (other_participant_of_view afternoon (say "u2" "") after_hello
              (JsString.lit "u2")) as [_ (views & Hlist & Hviews)];
    [closed_subject|].
  exists views. split; [exact Hlist|].
  intros v Hv.
  destruct (Hviews v Hv) as (id & d & _ & [[Hnull _]|(i & p & Hp & _ & Hz & Hne & _)]).
  - left. exact Hnull.
  - right. exists p. split; [exact Hp|]. split; [exact Hz|exact Hne].
Defined.

End HandlerCases.

(** * Properties of the client *)

(** Two different literals are never the page at once. *)
Ltac page_cases :=
  repeat match goal with
    | |- context [bool_decide (App.currentPage ?st = ?p)] =>
        destruct (decide (App.currentPage st = p)) as [->|?];
        [rewrite bool_decide_eq_true_2 by reflexivity
        |rewrite bool_decide_eq_false_2 by assumption]
    | |- context [bool_decide (?a = ?b)] =>
        rewrite (bool_decide_eq_false_2 (a = b)) by (by vm_compute)
    end.

(** Running the setters on a state given by its fields. *)
Ltac run_setters :=
  cbv [App.setCurrentPage App.setUser App.setAllPosts App.setMyPosts App.setChatRooms
       App.setChatMessages App.setConfirmedChatRooms App.setSelectedPostId
       App.setIsEditingPost App.setChatPostId App.setSelectedRoomId App.setIsLoading
       App.setError App.currentPage App.user App.allPosts App.myPosts App.chatRooms
       App.chatMessages App.confirmedChatRooms App.selectedPostId App.isEditingPost
       App.chatPostId App.selectedRoomId App.isLoading App.error
       App.view App.authToken App.isInitialMount].

Section Render.

Import App.

Lemma render_private (st : state) (banner : option value) (main : list component) :
  render st = Private banner main →
  ∃ u, user st = Some u ∧ isLoading st = false.
Proof.
  unfold render. destruct (user st) as [u|]; destruct (isLoading st);
    try done; [by exists u|].
  by repeat case_bool_decide.
Qed.

Lemma strict_eq_Str (v : value) (s : JsString.t) :
  strict_eq v (Str s) = true ↔ v = Str s.
Proof.
  destruct v; cbn [strict_eq]; try (split; [done|discriminate]).
  rewrite bool_decide_eq_true. split; congruence.
Qed.

Lemma elem_of_when (b : bool) (c x : component) : x ∈ when b c ↔ b = true ∧ x = c.
Proof.
  destruct b; cbn [when].
  - rewrite list_elem_of_singleton. split; [by intros ->|by intros [_ ->]].
  - rewrite elem_of_nil. split; [done|by intros [? _]].
Qed.

Lemma length_when (b : bool) (c : component) : length (when b c) = if b then 1 else 0.
Proof. by destruct b. Qed.

End Render.

(** X18. Who sees what.  Without a user the client renders the
    spinner or one of the landing, login and register pages, and
    nothing else.  The private screen is rendered only for a user and
    when loading is over; its main area holds the admin panel exactly
    when the page is 'admin' and the user's role is 'admin'; for an
    administrator it holds nothing but the dashboard, the admin panel,
    a post detail or the chat dialog; and it never holds more than one
    page and the dialog. *)
Theorem render_access_control (st : App.state) :
  (App.user st = None →
   App.render st ∈ [App.Spinner; App.Public App.LandingPage;
                    App.Public App.LoginPage; App.Public App.RegisterPage])
  ∧ (∀ banner main,
       App.render st = App.Private banner main →
       ∃ u, App.user st = Some u ∧ App.isLoading st = false
            ∧ (App.AdminPanel ∈ main
               ↔ App.currentPage st = JsString.lit "admin"
                 ∧ prop u "role" = Str (JsString.lit "admin"))
            ∧ (prop u "role" = Str (JsString.lit "admin") →
               ∀ c, c ∈ main →
                    c = App.Dashboard ∨ c = App.AdminPanel
                    ∨ (∃ post mine, c = App.PostDetail post mine)
                    ∨ (∃ post, c = App.ChatDialog post))
            ∧ length main ≤ 2).
Proof.
  split.
  - intros Hu. unfold App.render. rewrite Hu.
    destruct (App.isLoading st); [apply list_elem_of_here|].
    repeat case_bool_decide;
      rewrite !elem_of_cons; tauto.
  - intros banner main Hrender.
    destruct (render_private st banner main Hrender) as (u & Hu & Hload).
    exists u. split; [done|]. split; [done|].
    revert Hrender. unfold App.render. rewrite Hu, Hload.
    intros [= _ <-].
    rewrite <- (strict_eq_Str (prop u "role")).
    set (admin := App.strict_eq (prop u "role") _).
    assert (∀ c : App.component,
              c ∈ match App.find_post (App.chatPostId st) st with
                  | Some post => [App.ChatDialog post]
                  | None => []
                  end → ∃ post, c = App.ChatDialog post) as Hdialog.
    { intros c. destruct (App.find_post _ st) as [post|].
      - rewrite list_elem_of_singleton. by exists post.
      - by rewrite elem_of_nil. }
    split; [|split].
    + split.
      * intros H.
        repeat (apply elem_of_app in H as [H|H]);
          try (apply elem_of_when in H as [Hb H]; try discriminate H).
        -- destruct (App.find_post (App.selectedPostId st) st); [|by apply elem_of_nil in H].
           apply elem_of_when in H as [_ H]. discriminate H.
        -- apply andb_true_iff in Hb as [Hpage Hadmin].
           by apply bool_decide_eq_true in Hpage.
        -- apply Hdialog in H as [post H]. discriminate H.
      * intros [Hpage Hadmin].
        assert (App.AdminPanel
                  ∈ App.when (bool_decide (App.currentPage st = JsString.lit "admin")
                              && admin) App.AdminPanel) as H.
        { apply elem_of_when. split; [|done].
          rewrite Hadmin, bool_decide_eq_true_2 by done. done. }
        rewrite !elem_of_app. tauto.
    + intros Hadmin c H. rewrite Hadmin in H. cbn [negb] in H.
      rewrite !andb_false_r, andb_true_r in H.
      repeat (apply elem_of_app in H as [H|H]);
        try (apply elem_of_when in H as [Hb H]; try discriminate Hb);
        try (apply Hdialog in H); eauto 10.
      destruct (App.find_post (App.selectedPostId st) st); [|by apply elem_of_nil in H].
      apply elem_of_when in H as [_ H]. eauto 10.
    + rewrite !length_app, !length_when.
      assert (∀ post mine,
                length (App.when (bool_decide (App.currentPage st
                                               = JsString.lit "post-detail"))
                          (App.PostDetail post mine))
                = if bool_decide (App.currentPage st = JsString.lit "post-detail")
                  then 1 else 0) as Hdetail by (intros; apply length_when).
      destruct (App.find_post (App.selectedPostId st) st);
        destruct (App.find_post (App.chatPostId st) st);
        rewrite ?Hdetail; cbn [length];
        page_cases; destruct admin; cbn [andb negb]; lia.
Qed.

(** X20. What the listener of the identity service leaves behind.
    Loading is over and the first-run flag is cleared.  There is a
    user exactly when there is a token.  A user comes from the stored
    profile, or from the profile created after a 'not found' answer,
    and the page is then 'landing' on the first run and 'profile'
    afterwards.  The selected post and the edit mode are never
    touched; after a sign-out the lists of posts, rooms and messages
    are empty and the page is 'landing'. *)
Theorem onAuthChange_settles (getIdToken : option JsString.t)
    (getMyProfile : App.answer doc) (createProfile : doc → App.answer doc)
    (fu : option App.firebaseUser) (c : App.session) :
  let c' := App.onAuthChange getIdToken getMyProfile createProfile fu c in
  App.isLoading (App.view c') = false
  ∧ App.isInitialMount c' = false
  ∧ (App.user (App.view c') = None ↔ App.authToken c' = None)
  ∧ (∀ u, App.user (App.view c') = Some u →
       is_Some fu ∧ App.authToken c' = getIdToken
       ∧ (getMyProfile = App.Resolved u
          ∨ ∃ fu' err, fu = Some fu' ∧ getMyProfile = App.Rejected err
                       ∧ App.isNotFoundError err = Some true
                       ∧ createProfile (App.defaultProfile fu') = App.Resolved u)
       ∧ App.currentPage (App.view c')
         = if App.isInitialMount c then JsString.lit "landing"
           else JsString.lit "profile")
  ∧ App.selectedPostId (App.view c') = App.selectedPostId (App.view c)
  ∧ App.isEditingPost (App.view c') = App.isEditingPost (App.view c)
  ∧ (fu = None →
       App.user (App.view c') = None
       ∧ App.allPosts (App.view c') = [] ∧ App.myPosts (App.view c') = []
       ∧ App.chatRooms (App.view c') = [] ∧ App.chatMessages (App.view c') = []
       ∧ App.currentPage (App.view c') = JsString.lit "landing").
Proof.
  unfold App.onAuthChange.
  destruct fu as [fu|]; [|by repeat split].
  destruct getIdToken as [token|]; [|by repeat split].
  destruct getMyProfile as [u|err].
  { cbv zeta. cbn [App.view App.authToken App.isInitialMount App.signed_in].
    split; [done|]. split; [done|]. split; [done|].
    split; [|by repeat split].
    intros ? [= <-]. split; [by eexists|]. split; [done|]. split; [by left|done]. }
  destruct (App.isNotFoundError err) as [[|]|] eqn:E; [|by repeat split..].
  destruct (createProfile _) as [u|err'] eqn:Ec; [|by repeat split].
  cbv zeta. cbn [App.view App.authToken App.isInitialMount App.signed_in].
  split; [done|]. split; [done|]. split; [done|].
  split; [|by repeat split].
  intros ? [= <-]. split; [by eexists|]. split; [done|].
  split; [|done]. right. by eexists _, _.
Qed.

(** X19. The first sign-in leaves the main area empty.  When the
    listener of the identity service runs for the first time with a
    signed-in user whose profile exists, the user and the token are
    set and the page stays 'landing'; no component of the private
    screen belongs to that page, so that nothing is rendered under the
    header (no chat dialog being open). *)
Theorem first_sign_in_shows_no_page (token : JsString.t) (u : doc)
    (createProfile : doc → App.answer doc) (fu : App.firebaseUser) (c : App.session) :
  App.isInitialMount c = true →
  App.chatPostId (App.view c) = None →
  let c' := App.onAuthChange (Some token) (App.Resolved u) createProfile (Some fu) c in
  App.user (App.view c') = Some u
  ∧ App.authToken c' = Some token
  ∧ App.currentPage (App.view c') = JsString.lit "landing"
  ∧ App.render (App.view c')
    = App.Private (if truthy (App.error (App.view c))
                   then Some (App.error (App.view c)) else None) [].
Proof.
  intros Hfirst Hdialog c'. subst c'.
  unfold App.onAuthChange, App.signed_in. rewrite Hfirst.
  cbn [App.view App.authToken].
  split; [done|]. split; [done|]. split; [done|].
  unfold App.render.
  cbn [App.user App.isLoading App.setIsLoading App.setCurrentPage App.setUser
       App.currentPage App.error App.chatPostId App.selectedPostId
       App.isEditingPost App.allPosts App.chatRooms].
  rewrite Hdialog. cbn [App.find_post].
  page_cases. cbn [App.when andb app].
  by destruct (App.find_post _ _).
Qed.

Lemma first_sign_in_shows_no_page_witness :
  let c := App.onAuthChange (Some (JsString.lit "token"))
             (App.Resolved {["id" := Str (JsString.lit "u1")]})
             (λ _, App.Rejected
                     {| App.response_status := Undefined;
                        App.response_data := Undefined;
                        App.failure_message := Undefined |})
             (Some {| App.fb_displayName := None; App.fb_email := None |})
             {| App.view := App.initial; App.authToken := None;
                App.isInitialMount := true |} in
  App.user (App.view c) = Some {["id" := Str (JsString.lit "u1")]}
  ∧ App.render (App.view c) = App.Private None [].
Proof.
  intros c.
  destruct (first_sign_in_shows_no_page (JsString.lit "token")
              {["id" := Str (JsString.lit "u1")]}
              (λ _, App.Rejected
                      {| App.response_status := Undefined;
                         App.response_data := Undefined;
                         App.failure_message := Undefined |})
              {| App.fb_displayName := None; App.fb_email := None |}
              {| App.view := App.initial; App.authToken := None;
                 App.isInitialMount := true |} eq_refl eq_refl)
    as (Huser & _ & _ & Hrender).
  split; [exact Huser|exact Hrender].
Defined.

Section Sales.

Import App.

Lemma prop_insert_ne (p : doc) (k k' : string) (v : value) :
  k ≠ k' → prop (<[k := v]> p) k' = prop p k'.
Proof. intros H. unfold prop. by rewrite lookup_insert_ne. Qed.

Lemma mark_sold_id (postId : JsString.t) (p : doc) :
  prop (mark_sold postId p) "id" = prop p "id".
Proof.
  unfold mark_sold. destruct (strict_eq _ _); [|done]. by apply prop_insert_ne.
Qed.

Lemma mark_sold_idemp (postId : JsString.t) (p : doc) :
  mark_sold postId (mark_sold postId p) = mark_sold postId p.
Proof.
  unfold mark_sold at 1. rewrite mark_sold_id.
  unfold mark_sold. destruct (strict_eq _ _); [|done]. apply insert_insert_eq.
Qed.

Lemma set_add_elem (x : JsString.t) (l : list JsString.t) : x ∈ set_add x l.
Proof.
  unfold set_add. case_bool_decide; [done|].
  apply elem_of_app. right. apply list_elem_of_here.
Qed.

Lemma set_add_idemp (x : JsString.t) (l : list JsString.t) :
  set_add x (set_add x l) = set_add x l.
Proof.
  unfold set_add at 1. by rewrite bool_decide_eq_true_2 by apply set_add_elem.
Qed.

Lemma set_add_NoDup (x : JsString.t) (l : list JsString.t) :
  NoDup l → NoDup (set_add x l).
Proof.
  intros H. unfold set_add. case_bool_decide as Hx; [done|].
  apply NoDup_app. split; [done|]. split; [|apply NoDup_singleton].
  intros y Hy ->%list_elem_of_singleton. done.
Qed.

Lemma elem_of_set_delete (x y : JsString.t) (l : list JsString.t) :
  y ∈ set_delete x l ↔ y ∈ l ∧ y ≠ x.
Proof.
  unfold set_delete. rewrite !list_elem_of_In, filter_In, negb_true_iff.
  by rewrite bool_decide_eq_false.
Qed.

Lemma set_delete_NoDup (x : JsString.t) (l : list JsString.t) :
  NoDup l → NoDup (set_delete x l).
Proof.
  unfold set_delete. induction 1 as [|y l Hy Hl IH]; [constructor|].
  cbn [List.filter]. destruct (negb _); [|done].
  apply NoDup_cons. split; [|done].
  intros Hin. apply list_elem_of_In, filter_In in Hin as [Hin _].
  by apply list_elem_of_In in Hin.
Qed.

End Sales.

(** X21. Confirming a sale and cancelling the chat.  After
    [handleConfirmSale] the room is among the confirmed ones, the
    posts are the same posts in the same order, and those with the
    given identifier are sold; confirming again changes nothing.
    [handleCancelChat] takes the room out of the confirmed ones and
    clears the selected room, and leaves the posts as they are: a sale
    that was confirmed stays sold.  The set of confirmed rooms never
    holds a room twice. *)
Theorem confirmed_sale_stays_sold (postId roomId : JsString.t) (st : App.state) :
  let st1 := App.handleConfirmSale postId roomId st in
  let st2 := App.handleCancelChat roomId st1 in
  (roomId ∈ App.confirmedChatRooms st1
   ∧ ∀ r, r ∈ App.confirmedChatRooms st → r ∈ App.confirmedChatRooms st1)
  ∧ (∀ r, r ∈ App.confirmedChatRooms st2
          ↔ r ∈ App.confirmedChatRooms st ∧ r ≠ roomId)
  ∧ App.selectedRoomId st2 = Null
  ∧ App.allPosts st2 = App.allPosts st1 ∧ App.myPosts st2 = App.myPosts st1
  ∧ map (λ p, prop p "id") (App.allPosts st1) = map (λ p, prop p "id") (App.allPosts st)
  ∧ (∀ p, p ∈ App.allPosts st1 → prop p "id" = Str postId → prop p "sold" = Bool true)
  ∧ (∀ p, p ∈ App.allPosts st → prop p "id" ≠ Str postId → p ∈ App.allPosts st1)
  ∧ App.handleConfirmSale postId roomId st1 = st1
  ∧ (NoDup (App.confirmedChatRooms st) →
     NoDup (App.confirmedChatRooms st1) ∧ NoDup (App.confirmedChatRooms st2)).
Proof.
  destruct st as [page usr all mine rooms msgs confirmed sel editing dialog
                  room loading err].
  unfold App.handleCancelChat, App.handleConfirmSale. run_setters.
  split; [split|].
  { apply set_add_elem. }
  { intros r Hr. unfold App.set_add. case_bool_decide; [done|].
    apply elem_of_app. by left. }
  split.
  { intros r. rewrite elem_of_set_delete. unfold App.set_add.
    case_bool_decide as Hin; [|rewrite elem_of_app, list_elem_of_singleton];
      split; tauto. }
  split; [done|]. split; [done|]. split; [done|].
  split.
  { rewrite <- list_fmap_compose. apply list_fmap_ext.
    intros i p _. apply mark_sold_id. }
  split.
  { intros p Hp Hid. apply list_elem_of_fmap in Hp as (q & -> & Hq).
    rewrite mark_sold_id in Hid. unfold App.mark_sold.
    rewrite (proj2 (strict_eq_Str _ _) Hid).
    unfold prop. by rewrite lookup_insert_eq. }
  split.
  { intros p Hp Hid. apply list_elem_of_fmap. exists p. split; [|done].
    unfold App.mark_sold. destruct (App.strict_eq _ _) eqn:E; [|done].
    by apply strict_eq_Str in E. }
  split.
  { rewrite set_add_idemp.
    rewrite <- !list_fmap_compose.
    rewrite !(list_fmap_ext (App.mark_sold postId ∘ App.mark_sold postId)
                (App.mark_sold postId))
      by (intros; apply mark_sold_idemp).
    done. }
  intros Hnd. split; [by apply set_add_NoDup|].
  by apply set_delete_NoDup, set_add_NoDup.
Qed.

Section OpenChat.

Import App.

Lemma existsb_strict_eq_Str (rooms : list doc) (rid : JsString.t) :
  existsb (λ r, strict_eq (prop r "id") (Str rid)) rooms = true
  ↔ ∃ r, r ∈ rooms ∧ prop r "id" = Str rid.
Proof.
  rewrite existsb_exists. setoid_rewrite strict_eq_Str.
  by setoid_rewrite list_elem_of_In.
Qed.

Lemma navigateTo_other (page : JsString.t) (st : state) :
  page ≠ JsString.lit "create-post" →
  navigateTo page st
  = setIsEditingPost false (setSelectedPostId None (setCurrentPage page st)).
Proof. intros H. unfold navigateTo. by rewrite !bool_decide_eq_true_2 by done. Qed.

Lemma handleOpenChat_resolved (postId : JsString.t) (room u : doc) (st : state) :
  user st = Some u → truthy (prop u "id") = true →
  (∀ p, p ∈ allPosts st → prop p "id" = Str postId →
        startsWith (JsString.lit "mock-post-") postId = false) →
  handleOpenChat postId (Resolved room) st
  = (navigateTo (JsString.lit "chat")
       (setSelectedRoomId (prop room "id")
          (if existsb (λ r, strict_eq (prop r "id") (prop room "id")) (chatRooms st)
           then st else setChatRooms (chatRooms st ++ [room]) st)), None).
Proof.
  intros Hu Hid Hpost. unfold handleOpenChat. rewrite Hu, Hid. cbn [negb].
  destruct (List.find _ (allPosts st)) as [p|] eqn:E; [|done].
  apply find_some in E as [Hp E]. apply strict_eq_Str in E.
  apply list_elem_of_In in Hp. by rewrite (Hpost p Hp E).
Qed.

End OpenChat.

(** X22. Opening a chat adds the room once.  For a signed-in user and
    a post that is not loaded as a mock post (it is not loaded, or its
    identifier does not start with 'mock-post-'), when the API answers
    with a room whose [id] is a string: the page becomes 'chat', the
    room is selected, no post is selected any more; the room is in the
    list afterwards, appended at the end if no room of that [id] was
    there and the list unchanged otherwise, so that identifiers that
    were distinct stay distinct; and opening the chat again adds
    nothing. *)
Theorem handleOpenChat_adds_room_once (postId rid : JsString.t) (room u : doc)
    (st : App.state) :
  App.user st = Some u → truthy (prop u "id") = true →
  (∀ p, p ∈ App.allPosts st → prop p "id" = Str postId →
        App.startsWith (JsString.lit "mock-post-") postId = false) →
  prop room "id" = Str rid →
  let st' := (App.handleOpenChat postId (App.Resolved room) st).1 in
  (App.handleOpenChat postId (App.Resolved room) st).2 = None
  ∧ App.currentPage st' = JsString.lit "chat"
  ∧ App.selectedRoomId st' = Str rid
  ∧ App.selectedPostId st' = None ∧ App.isEditingPost st' = false
  ∧ (∃ r, r ∈ App.chatRooms st' ∧ prop r "id" = Str rid)
  ∧ ((∃ r, r ∈ App.chatRooms st ∧ prop r "id" = Str rid) →
     App.chatRooms st' = App.chatRooms st)
  ∧ ((∀ r, r ∈ App.chatRooms st → prop r "id" ≠ Str rid) →
     App.chatRooms st' = App.chatRooms st ++ [room])
  ∧ (NoDup (map (λ r, prop r "id") (App.chatRooms st)) →
     NoDup (map (λ r, prop r "id") (App.chatRooms st')))
  ∧ App.chatRooms (App.handleOpenChat postId (App.Resolved room) st').1
    = App.chatRooms st'.
Proof.
  intros Hu Hid Hpost Hroom.
  rewrite (handleOpenChat_resolved postId room u st Hu Hid Hpost), Hroom.
  rewrite navigateTo_other by (by vm_compute). cbn [fst snd].
  set (st1 := if existsb _ (App.chatRooms st) then st else _).
  assert (App.user st1 = Some u ∧ App.allPosts st1 = App.allPosts st) as [Hu1 Hall1].
  { unfold st1. by destruct (existsb _ _). }
  assert (∃ r, r ∈ App.chatRooms st1 ∧ prop r "id" = Str rid) as Hin.
  { unfold st1. destruct (existsb _ _) eqn:Hex.
    - by apply existsb_strict_eq_Str in Hex.
    - exists room. split; [|done]. cbn. apply elem_of_app. right. apply list_elem_of_here. }
  split; [done|]. split; [done|]. split; [done|]. split; [done|]. split; [done|].
  split; [exact Hin|].
  split.
  { intros Hex. apply existsb_strict_eq_Str in Hex. unfold st1. by rewrite Hex. }
  assert ((∀ r, r ∈ App.chatRooms st → prop r "id" ≠ Str rid) →
          App.chatRooms st1 = App.chatRooms st ++ [room]) as Hadd.
  { intros Hno. unfold st1. destruct (existsb _ _) eqn:Hex; [|done].
    apply existsb_strict_eq_Str in Hex as (r & Hr & Hrid). by destruct (Hno r). }
  split; [exact Hadd|].
  split.
  { intros Hnd. change (NoDup (map (λ r, prop r "id") (App.chatRooms st1))).
    unfold st1. destruct (existsb _ _) eqn:Hex; [done|].
    change (NoDup (map (λ r, prop r "id") (App.chatRooms st ++ [room]))).
    rewrite map_app. apply NoDup_app. split; [done|].
    split; [|apply NoDup_singleton].
    intros x Hx. cbn [map]. rewrite list_elem_of_singleton. intros ->.
    apply list_elem_of_fmap in Hx as (r & Hrid & Hr). rewrite Hroom in Hrid.
    rewrite <- not_true_iff_false in Hex. apply Hex.
    apply existsb_strict_eq_Str. by exists r. }
  rewrite (handleOpenChat_resolved postId room u); [|done|done|].
  2:{ intros p Hp. apply Hpost. revert Hp. cbn. by rewrite Hall1. }
  rewrite Hroom. cbn [fst].
  set (st2 := App.setIsEditingPost _ _).
  change (App.chatRooms st2) with (App.chatRooms st1).
  rewrite (proj2 (existsb_strict_eq_Str _ _) Hin).
  by rewrite navigateTo_other by (by vm_compute).
Qed.

(** X23. Opening a chat without a room.  Without a user, or with a
    user whose [id] is falsy, nothing changes and the user is asked to
    log in.  For a loaded post whose identifier starts with
    'mock-post-' the answer of the API plays no part: the page becomes
    'chat', the rooms and the selected room stay.  When the call
    fails, the state is unchanged but for the error, which is the
    message of the answer when it has one and is never falsy. *)
Theorem handleOpenChat_without_room (postId : JsString.t) (a : App.answer doc)
    (st : App.state) :
  (App.user st = None ∨ (∃ u, App.user st = Some u ∧ truthy (prop u "id") = false) →
   App.handleOpenChat postId a st = (st, Some App.PleaseLogIn))
  ∧ (∀ u post,
       App.user st = Some u → truthy (prop u "id") = true →
       post ∈ App.allPosts st → prop post "id" = Str postId →
       App.startsWith (JsString.lit "mock-post-") postId = true →
       App.handleOpenChat postId a st = (App.navigateTo (JsString.lit "chat") st, None)
       ∧ App.chatRooms (App.navigateTo (JsString.lit "chat") st) = App.chatRooms st
       ∧ App.selectedRoomId (App.navigateTo (JsString.lit "chat") st)
         = App.selectedRoomId st)
  ∧ (∀ u err,
       App.user st = Some u → truthy (prop u "id") = true →
       (∀ p, p ∈ App.allPosts st → prop p "id" = Str postId →
             App.startsWith (JsString.lit "mock-post-") postId = false) →
       a = App.Rejected err →
       ∃ errorMessage,
         App.handleOpenChat postId a st
         = (App.setError errorMessage st, Some (App.Failed errorMessage))
         ∧ truthy errorMessage = true
         ∧ (truthy (App.member (App.response_data err) "message") = true →
            errorMessage = App.member (App.response_data err) "message")).
Proof.
  split; [|split].
  - unfold App.handleOpenChat. intros [->|(u & -> & ->)]; done.
  - intros u post Hu Hid Hpost Hpid Hmock.
    unfold App.handleOpenChat. rewrite Hu, Hid. cbn [negb].
    destruct (List.find _ (App.allPosts st)) as [p|] eqn:E.
    + rewrite Hmock. rewrite navigateTo_other by (by vm_compute). done.
    + exfalso. apply list_elem_of_In in Hpost.
      apply (find_none _ _ E) in Hpost. rewrite <- not_true_iff_false in Hpost.
      apply Hpost. by apply strict_eq_Str.
  - intros u err Hu Hid Hmock ->.
    unfold App.handleOpenChat. rewrite Hu, Hid. cbn [negb].
    assert (match List.find (λ p, App.strict_eq (prop p "id") (Str postId))
                    (App.allPosts st) with
            | Some _ => App.startsWith (JsString.lit "mock-post-") postId
            | None => false
            end = false) as ->.
    { destruct (List.find _ (App.allPosts st)) as [p|] eqn:E; [|done].
      apply find_some in E as [Hp E]. apply (Hmock p).
      - by apply list_elem_of_In.
      - by apply strict_eq_Str. }
    eexists. split; [reflexivity|]. split.
    + by apply truthy_or_r.
    + intros Hm.
      assert (∀ b, or (App.member (App.response_data err) "message") b
                   = App.member (App.response_data err) "message") as Hor.
      { intros b. unfold or. by rewrite Hm. }
      by rewrite !Hor.
Qed.

(** X24. What [fetchAllData] loads.  When the three calls succeed,
    the posts are the fetched posts followed by those mock posts whose
    [id] no fetched post has, so that a fetched post is never shadowed
    and, identifiers being strings, distinct identifiers stay
    distinct; the user's posts and rooms are the fetched ones.  When a
    call fails, the posts are the mock posts and the user's posts and
    rooms are emptied.  The error is cleared and the page stays in
    both cases. *)
Theorem fetchAllData_merges_mock_posts (generateMockPosts : value → list doc)
    (allProducts myProducts rooms : option (list doc)) (st : App.state) (u : doc) :
  App.user st = Some u →
  let fetched := default [] allProducts in
  let mock := generateMockPosts (prop u "id") in
  let loaded :=
    App.fetchAllData generateMockPosts (Some (allProducts, myProducts, rooms)) st in
  let failed := App.fetchAllData generateMockPosts None st in
  (∃ added,
     App.allPosts loaded = fetched ++ added
     ∧ (∀ p, p ∈ added
             ↔ p ∈ mock
               ∧ ∀ q, q ∈ fetched → App.strict_eq (prop q "id") (prop p "id") = false)
     ∧ ((∀ p, p ∈ fetched ++ mock → ∃ id, prop p "id" = Str id) →
        NoDup (map (λ p, prop p "id") fetched) →
        NoDup (map (λ p, prop p "id") mock) →
        NoDup (map (λ p, prop p "id") (App.allPosts loaded))))
  ∧ App.myPosts loaded = default [] myProducts
  ∧ App.chatRooms loaded = default [] rooms
  ∧ App.error loaded = Null
  ∧ App.allPosts failed = mock ∧ App.myPosts failed = []
  ∧ App.chatRooms failed = [] ∧ App.error failed = Null
  ∧ App.currentPage loaded = App.currentPage st
  ∧ App.currentPage failed = App.currentPage st.
Proof.
  intros Hu fetched mock loaded failed.
  subst loaded failed. unfold App.fetchAllData. rewrite Hu.
  fold fetched mock.
  destruct st as [page usr all mine chats msgs confirmed sel editing dialog
                  room loading err].
  run_setters.
  set (added := List.filter _ mock).
  assert (∀ p, p ∈ added
               ↔ p ∈ mock
                 ∧ ∀ q, q ∈ fetched →
                        App.strict_eq (prop q "id") (prop p "id") = false) as Hadded.
  { intros p. unfold added. rewrite !list_elem_of_In, filter_In, negb_true_iff.
    rewrite <- not_true_iff_false, existsb_exists.
    split; intros [Hp Hno]; (split; [done|]).
    - intros q Hq. rewrite <- not_true_iff_false. intros Heq. apply Hno.
      exists (prop q "id"). split; [|done].
      apply (in_map (λ p, prop p "id")). by apply list_elem_of_In.
    - intros (x & Hx & Heq). apply in_map_iff in Hx as (q & <- & Hq).
      apply list_elem_of_In in Hq. apply Hno in Hq. congruence. }
  split; [|done].
  exists added. split; [done|]. split; [exact Hadded|].
  intros Hstr Hnd1 Hnd2. rewrite map_app. apply NoDup_app.
  split; [done|]. split.
  - intros x Hx Hx'.
    apply list_elem_of_fmap in Hx as (q & -> & Hq).
    apply list_elem_of_fmap in Hx' as (p & Hid & Hp).
    apply Hadded in Hp as [Hp Hno].
    destruct (Hstr q) as [id Hqid]; [apply elem_of_app; by left|].
    apply Hno in Hq. rewrite <- Hid, Hqid in Hq.
    rewrite <- not_true_iff_false in Hq. apply Hq. by apply strict_eq_Str.
  - unfold added. clear Hadded. induction mock as [|p mock IH]; [constructor|].
    cbn [List.filter map] in *. apply NoDup_cons in Hnd2 as [Hp Hnd2].
    assert (NoDup (map (λ p, prop p "id") (List.filter
              (λ p, negb (existsb (λ x, App.strict_eq x (prop p "id"))
                            (map (λ p, prop p "id") fetched))) mock))) as IH'.
    { apply IH; [|done]. intros q Hq. apply Hstr.
      rewrite elem_of_app in Hq |- *. rewrite elem_of_cons. tauto. }
    destruct (negb _); [|done]. cbn [map]. apply NoDup_cons. split; [|done].
    intros Hin. apply Hp. apply list_elem_of_fmap in Hin as (q & Hid & Hq).
    apply list_elem_of_fmap. exists q. split; [done|].
    apply list_elem_of_In, filter_In in Hq as [Hq _]. by apply list_elem_of_In.
Qed.


(** The properties above, on the client of [u1]. *)
Section ClientCases.

Import Scenario.

Lemma handleOpenChat_adds_room_once_witness :
  let st' := (App.handleOpenChat (JsString.lit "p1") (App.Resolved answered_room)
                browsing_client).1 in
  edited_post ∈ App.allPosts browsing_client
  ∧ prop edited_post "id" = str "p1"
  ∧ App.chatRooms st' = [answered_room]
  ∧ App.chatRooms (App.handleOpenChat (JsString.lit "p1")
                     (App.Resolved answered_room) st').1 = [answered_room]
  ∧ App.selectedRoomId st' = str room_id
  ∧ App.currentPage st' = JsString.lit "chat".
Proof.
  intros st'.
  destruct (handleOpenChat_adds_room_once (JsString.lit "p1") (JsString.lit room_id)
              answered_room buyer browsing_client)
    as (_ & Hpage & Hsel & _ & _ & _ & _ & Hadd & _ & Hagain).
  - reflexivity.
  - reflexivity.
  - intros p _ _. reflexivity.
  - reflexivity.
  - split; [apply list_elem_of_here|]. split; [reflexivity|].
    split; [|split; [|split; [exact Hsel|exact Hpage]]].
    + apply Hadd. intros r Hr. by apply elem_of_nil in Hr.
    + etrans; [exact Hagain|]. apply Hadd. intros r Hr. by apply elem_of_nil in Hr.
Defined.

Lemma fetchAllData_merges_mock_posts_witness :
  App.allPosts
    (App.fetchAllData (λ _, [mock_post]) (Some (Some [served_post], None, None))
       signed_in_client)
  = [served_post]
  ∧ App.allPosts (App.fetchAllData (λ _, [mock_post]) None signed_in_client)
    = [mock_post].
Proof.
  destruct (fetchAllData_merges_mock_posts (λ _, [mock_post])
              (Some [served_post]) None None signed_in_client buyer eq_refl)
    as ((added & Hall & Hadded & _) & _ & _ & _ & Hfailed & _).
  split; [|exact Hfailed].
  rewrite Hall. destruct added as [|p added]; [done|]. exfalso.
  destruct (proj1 (Hadded p)) as [Hp Hno]; [apply list_elem_of_here|].
  apply list_elem_of_singleton in Hp as ->.
  specialize (Hno served_post ltac:(apply list_elem_of_here)).
  vm_compute in Hno. discriminate Hno.
Defined.


End ClientCases.

(** * The private key of the service account *)

Section PrivateKey.

Import FirebaseConfig.

Local Open Scope N_scope.

Lemma unescape_newlines_eq (c d : N) (s : JsString.t) :
  unescape_newlines (c :: d :: s)
  = if (c =? 92) && (d =? 110) then 10 :: unescape_newlines s
    else c :: unescape_newlines (d :: s).
Proof. reflexivity. Qed.

Lemma has_escaped_newline_eq (c d : N) (s : JsString.t) :
  has_escaped_newline (c :: d :: s)
  = ((c =? 92) && (d =? 110)) || has_escaped_newline (d :: s).
Proof. reflexivity. Qed.

Lemma unescape_newlines_cons (c : N) (s : JsString.t) :
  c ≠ 92 → unescape_newlines (c :: s) = c :: unescape_newlines s.
Proof.
  intros Hc. destruct s as [|d s]; [done|]. rewrite unescape_newlines_eq.
  destruct (N.eqb_spec c 92); [done|]. reflexivity.
Qed.

Lemma unescape_newlines_plain (l rest : JsString.t) :
  92 ∉ l →
  unescape_newlines (l ++ 92 :: 110 :: rest) = l ++ 10 :: unescape_newlines rest.
Proof.
  induction l as [|c l IH]; [done|].
  intros H. apply not_elem_of_cons in H as [Hc Hl].
  cbn [app]. rewrite unescape_newlines_cons by done. by rewrite IH.
Qed.

Lemma unescape_newlines_id (s : JsString.t) :
  has_escaped_newline s = false → unescape_newlines s = s.
Proof.
  induction s as [|c s IH]; [done|].
  destruct s as [|d s]; [done|].
  rewrite has_escaped_newline_eq, unescape_newlines_eq.
  intros H. apply orb_false_iff in H as [-> H]. by rewrite IH.
Qed.

Lemma unescape_newlines_head (s : JsString.t) :
  match unescape_newlines s with
  | c :: _ => c = 10 ∨ head s = Some c
  | [] => s = []
  end.
Proof.
  destruct s as [|c [|d s]]; [done|by right|].
  rewrite unescape_newlines_eq. destruct (_ && _); [by left|by right].
Qed.

Lemma unescape_newlines_clean (s : JsString.t) :
  has_escaped_newline (unescape_newlines s) = false.
Proof.
  induction s as [s IH] using (induction_ltof1 _ (@length N)).
  unfold ltof in IH.
  destruct s as [|c [|d s]]; [done|done|].
  rewrite unescape_newlines_eq.
  destruct ((c =? 92) && (d =? 110)) eqn:E.
  - pose proof (IH s ltac:(cbn; lia)) as IHs.
    destruct (unescape_newlines s) as [|x r]; [done|].
    rewrite has_escaped_newline_eq, IHs. reflexivity.
  - pose proof (unescape_newlines_head (d :: s)) as Hh.
    pose proof (IH (d :: s) ltac:(cbn; lia)) as IHs.
    destruct (unescape_newlines (d :: s)) as [|x r]; [done|].
    rewrite has_escaped_newline_eq, IHs, orb_false_r.
    destruct Hh as [->|[= ->]].
    + by rewrite andb_false_r.
    + done.
Qed.

End PrivateKey.

(** X26. The private key read from the environment.  After the
    replacement no backslash followed by [n] is left, so that the
    replacement is idempotent; a key without such a pair is unchanged;
    the result is not longer than the key; the lines of a key (free of
    backslashes) joined by backslash-[n] become the lines joined by
    line feeds; and a missing key stays missing. *)
Theorem privateKey_unescapes_newlines (s : JsString.t) :
  FirebaseConfig.has_escaped_newline (FirebaseConfig.unescape_newlines s) = false
  ∧ FirebaseConfig.unescape_newlines (FirebaseConfig.unescape_newlines s)
    = FirebaseConfig.unescape_newlines s
  ∧ (FirebaseConfig.has_escaped_newline s = false →
     FirebaseConfig.unescape_newlines s = s)
  ∧ length (FirebaseConfig.unescape_newlines s) ≤ length s
  ∧ (∀ lines, s = FirebaseConfig.join_escaped lines →
       Forall (λ l, 92%N ∉ l) lines →
       FirebaseConfig.unescape_newlines s = FirebaseConfig.join_lines lines)
  ∧ FirebaseConfig.privateKey None = None.
Proof.
  split; [apply unescape_newlines_clean|].
  split; [apply unescape_newlines_id, unescape_newlines_clean|].
  split; [apply unescape_newlines_id|].
  split.
  { induction s as [s IH] using (induction_ltof1 _ (@length N)).
    unfold ltof in IH. destruct s as [|c [|d s]]; [done|done|].
    rewrite unescape_newlines_eq.
    destruct (_ && _).
    - pose proof (IH s ltac:(cbn; lia)). cbn [length] in *. lia.
    - pose proof (IH (d :: s) ltac:(cbn; lia)). cbn [length] in *. lia. }
  split; [|done].
  intros lines -> Hplain.
  induction Hplain as [|l lines Hl Hplain IH]; [done|].
  destruct lines as [|l' lines].
  - cbn [FirebaseConfig.join_escaped FirebaseConfig.join_lines].
    apply unescape_newlines_id.
    clear -Hl. induction l as [|c l IH]; [done|].
    apply not_elem_of_cons in Hl as [Hc Hl]. destruct l as [|d l]; [done|].
    rewrite has_escaped_newline_eq, (IH Hl).
    destruct (N.eqb_spec c 92); [done|]. reflexivity.
  - change (FirebaseConfig.unescape_newlines
              (l ++ 92%N :: 110%N :: FirebaseConfig.join_escaped (l' :: lines))
            = l ++ 10%N :: FirebaseConfig.join_lines (l' :: lines)).
    rewrite unescape_newlines_plain by done. by rewrite IH.
Qed.
